(** * routines.cpp: numeric and allocation helpers

    A shallow embedding of [src/routines.cpp].

    - [int] is [Z]; every loop counter stays between 0 and its bound, so no
      signed arithmetic of the source can overflow on the inputs considered.
    - [double] is [R]: arithmetic is the exact arithmetic of the reals, and
      rounding, infinities and NaN are outside the model.  [pow(10.0, .)]
      and [log10] are the real functions.
    - Memory is a list of blocks; a pointer is the index of the block it
      was obtained from.  A block remembers the operation that allocated it
      and whether it has been released.  Reads and writes outside a block,
      through a released block or of a cell never written, and releases
      that do not match the allocation, are undefined behaviour of the
      source and are results of their own in the model.
    - [printf] followed by [exit(-1)] is a result of its own as well, and
      carries the values the message prints. *)

From Stdlib Require Import ZArith Reals Lra Lia List.
From stdpp Require Import base list.
Import ListNotations.
Local Open Scope Z_scope.

(** ** Memory *)

Abbreviation ptr := nat.

Inductive value :=
| Vundef
| Vdouble (d : R)
| Vptr (p : ptr).

(** [calloc], [new T[n]] and [new T]; the matching releases are [free],
    [delete[]] and [delete]. *)
Inductive alloc_kind := ByCalloc | ByNewArray | ByNew.

Record block := Block {
  blk_kind : alloc_kind;
  blk_live : bool;
  blk_cells : list value
}.

Abbreviation heap := (list block).

Inductive fault :=
| OutOfBounds
| Dangling
| Uninitialized
| NotAPointer
| NotADouble
| NullDereference
| MismatchedRelease
| DoubleRelease
| BadArrayLength.

(** What the source prints before [exit(-1)]. *)
Inductive report :=
| AllocationFailed (n : Z)
| NonPositiveSample (x y : R).

Inductive outcome (A : Type) :=
| Done (a : A) (h : heap)
| Undefined (f : fault)
| Exited (r : report).
Arguments Done {A} a h.
Arguments Undefined {A} f.
Arguments Exited {A} r.

Definition M (A : Type) := heap -> outcome A.

Definition ret {A} (a : A) : M A := fun h => Done a h.

Definition bind {A B} (c : M A) (k : A -> M B) : M B :=
  fun h =>
    match c h with
    | Done a h' => k a h'
    | Undefined f => Undefined f
    | Exited r => Exited r
    end.

Definition undefined {A} (f : fault) : M A := fun _ => Undefined f.
Definition exit_with {A} (r : report) : M A := fun _ => Exited r.

Notation "x <- c ;; k" := (bind c (fun x => k))
  (at level 100, c at next level, right associativity).
Notation "c ;;; k" := (bind c (fun _ => k))
  (at level 100, right associativity).

Definition eq_kind (a b : alloc_kind) : bool :=
  match a, b with
  | ByCalloc, ByCalloc | ByNewArray, ByNewArray | ByNew, ByNew => true
  | _, _ => false
  end.

(** The live block behind a pointer. *)
Definition deref (p : ptr) : M block :=
  fun h =>
    match h !! p with
    | Some b => if blk_live b then Done b h else Undefined Dangling
    | None => Undefined Dangling
    end.

(** [p[i]] read. *)
Definition load (p : ptr) (i : Z) : M value :=
  b <- deref p ;;
  if i <? 0 then undefined OutOfBounds
  else match blk_cells b !! Z.to_nat i with
       | Some v => ret v
       | None => undefined OutOfBounds
       end.

Definition load_double (p : ptr) (i : Z) : M R :=
  v <- load p i ;;
  match v with
  | Vdouble d => ret d
  | Vundef => undefined Uninitialized
  | Vptr _ => undefined NotADouble
  end.

Definition load_ptr (p : ptr) (i : Z) : M ptr :=
  v <- load p i ;;
  match v with
  | Vptr q => ret q
  | Vundef => undefined Uninitialized
  | Vdouble _ => undefined NotAPointer
  end.

(** [p[i] = v]. *)
Definition store (p : ptr) (i : Z) (v : value) : M unit :=
  b <- deref p ;;
  if i <? 0 then undefined OutOfBounds
  else if (Z.to_nat i <? length (blk_cells b))%nat
  then fun h =>
         Done tt (<[p := Block (blk_kind b) true (<[Z.to_nat i := v]> (blk_cells b))]> h)
  else undefined OutOfBounds.

(** A fresh block is appended; its index is the new pointer. *)
Definition alloc (k : alloc_kind) (cells : list value) : M ptr :=
  fun h => Done (length h) (h ++ [Block k true cells]).

(** [new T[n]]: the cells are not initialised. *)
Definition new_array (n : Z) : M ptr :=
  if n <? 0 then undefined BadArrayLength
  else alloc ByNewArray (replicate (Z.to_nat n) Vundef).

(** [calloc(n, sizeof(double))]: all bytes zero, that is every cell [0.0];
    a request that cannot be met (here: a negative [n], which converts to
    a huge [size_t]) yields the null pointer. *)
Definition calloc (n : Z) : M (option ptr) :=
  if n <? 0 then ret None
  else p <- alloc ByCalloc (replicate (Z.to_nat n) (Vdouble 0%R)) ;; ret (Some p).

(** [free], [delete[]] or [delete], according to [op]. *)
Definition release (op : alloc_kind) (p : ptr) : M unit :=
  fun h =>
    match h !! p with
    | None => Undefined Dangling
    | Some b =>
        if negb (blk_live b) then Undefined DoubleRelease
        else if eq_kind op (blk_kind b)
        then Done tt (<[p := Block (blk_kind b) false (blk_cells b)]> h)
        else Undefined MismatchedRelease
    end.

Definition delete_array := release ByNewArray.
Definition delete := release ByNew.

(** ** Loops *)

(** [for(int i=i0; i<...; i++) body], run [k] times. *)
Fixpoint for_from (k : nat) (i : Z) (body : Z -> M unit) : M unit :=
  match k with
  | O => ret tt
  | S k' => body i ;;; for_from k' (i + 1) body
  end.

(** [for(int i=0;i<n;i++) body]. *)
Definition for_loop (n : Z) (body : Z -> M unit) : M unit :=
  for_from (Z.to_nat n) 0 body.

(** The same loop threading a local variable that the body updates. *)
Fixpoint fold_from {A} (k : nat) (i : Z) (body : Z -> A -> M A) (acc : A) : M A :=
  match k with
  | O => ret acc
  | S k' => acc' <- body i acc ;; fold_from k' (i + 1) body acc'
  end.

Definition for_fold {A} (n : Z) (body : Z -> A -> M A) (acc : A) : M A :=
  fold_from (Z.to_nat n) 0 body acc.

(** ** Allocation of nested arrays *)

(** [x[i][j]] and [x[i][j][k]] as assignment targets. *)
Definition store2 (x : ptr) (i j : Z) (v : value) : M unit :=
  xi <- load_ptr x i ;; store xi j v.

Definition store3 (x : ptr) (i j k : Z) (v : value) : M unit :=
  xi <- load_ptr x i ;; xij <- load_ptr xi j ;; store xij k v.

Definition two_dimensional_array (n l : Z) : M ptr :=
  x <- new_array n ;;
  for_loop n (fun i =>
    xi <- new_array l ;;
    store x i (Vptr xi)) ;;;
  for_loop n (fun i =>
    for_loop l (fun j =>
      store2 x i j (Vdouble 0%R))) ;;;
  ret x.

Definition deallocate_two_dimensional_array (x : ptr) (n l : Z) : M unit :=
  for_loop n (fun i =>
    xi <- load_ptr x i ;;
    delete_array xi) ;;;
  delete x.

Definition three_dimensional_array (n l m : Z) : M ptr :=
  x <- new_array n ;;
  for_loop n (fun i =>
    xi <- new_array l ;;
    store x i (Vptr xi) ;;;
    for_loop l (fun j =>
      xij <- new_array m ;;
      store2 x i j (Vptr xij))) ;;;
  ret x.

Definition deallocate_three_dimensional_array (x : ptr) (n l m : Z) : M unit :=
  for_loop n (fun i =>
    for_loop l (fun j =>
      xi <- load_ptr x i ;;
      xij <- load_ptr xi j ;;
      delete_array xij) ;;;
    xi <- load_ptr x i ;;
    delete_array xi) ;;;
  delete x.

Definition four_dimensional_array (n l m p : Z) : M ptr :=
  x <- new_array n ;;
  for_loop n (fun i =>
    xi <- new_array l ;;
    store x i (Vptr xi) ;;;
    for_loop l (fun j =>
      xij <- new_array m ;;
      store2 x i j (Vptr xij) ;;;
      for_loop p (fun k =>
        leaf <- new_array p ;;
        store3 x i j k (Vptr leaf)))) ;;;
  ret x.

Definition deallocate_four_dimensional_array (x : ptr) (n l m p : Z) : M unit :=
  for_loop n (fun i =>
    for_loop l (fun j =>
      for_loop p (fun k =>
        xi <- load_ptr x i ;;
        xij <- load_ptr xi j ;;
        leaf <- load_ptr xij k ;;
        delete_array leaf) ;;;
      xi <- load_ptr x i ;;
      xij <- load_ptr xi j ;;
      delete_array xij) ;;;
    xi <- load_ptr x i ;;
    delete_array xi) ;;;
  delete x.

(** ** Index-to-value maps *)

(** [pow(10.0, x)] and [log10(y)] of the C library. *)
Definition pow10 (x : R) : R := Rpower 10 x.
Definition log10 (y : R) : R := (ln y / ln 10)%R.

Definition double_log10_index (i n : Z) (xmin xmax : R) : R :=
  pow10 ((log10 xmax - log10 xmin) * IZR i / IZR (n - 1) + log10 xmin)%R.

Definition double_linear_index (i n : Z) (xmin xmax : R) : R :=
  ((xmax - xmin) * IZR i / IZR (n - 1) + xmin)%R.

(** ** Safe allocation *)

Definition calloc_double_array (n : Z) : M ptr :=
  f <- calloc n ;;
  match f with
  | None => exit_with (AllocationFailed n)
  | Some p => ret p
  end.

(** A pointer about to be dereferenced. *)
Definition nonnull (p : option ptr) : M ptr :=
  match p with
  | Some q => ret q
  | None => undefined NullDereference
  end.

(** ** Splines *)

(** Modelled from the spec: the interpolant and its accelerator are objects
    of the GSL library, which is not under src/.  The interpolant records
    what the builder hands to [gsl_spline_alloc] and [gsl_spline_init]: the
    number of knots and the abscissas and ordinates read at initialisation.
    The accelerator starts empty. *)
Record gsl_spline := Spline {
  spline_size : Z;
  spline_x : list R;
  spline_y : list R
}.

Inductive gsl_interp_accel := Accel.

Definition read_doubles (p : ptr) (n : Z) : M (list R) :=
  for_fold n (fun i acc => d <- load_double p i ;; ret (acc ++ [d])) [].

Definition gsl_spline_alloc (n : Z) : M gsl_spline := ret (Spline n [] []).

Definition gsl_interp_accel_alloc : M gsl_interp_accel := ret Accel.

Definition gsl_spline_init (s : gsl_spline) (xa ya : ptr) (n : Z) : M gsl_spline :=
  xs <- read_doubles xa n ;;
  ys <- read_doubles ya n ;;
  ret (Spline (spline_size s) xs ys).

(** The reference parameters [log10y], [spline] and [acc] are the result;
    [func] is any function of the sample point and the parameter block. *)
Definition create_log10_spline {P} (func : R -> P -> R) (log10x : ptr) (n : Z)
    (params : P) : M (ptr * gsl_spline * gsl_interp_accel) :=
  log10y <- calloc_double_array n ;;
  for_loop n (fun i =>
    lx <- load_double log10x i ;;
    let x := pow10 lx in
    let y := func x params in
    if Rle_dec y 0 then exit_with (NonPositiveSample x y)
    else store log10y i (Vdouble (log10 y))) ;;;
  spline <- gsl_spline_alloc n ;;
  acc <- gsl_interp_accel_alloc ;;
  spline <- gsl_spline_init spline log10x log10y n ;;
  ret (log10y, spline, acc).

Definition create_linear_spline {P} (func : R -> P -> R) (x : ptr) (n : Z)
    (params : P) : M (ptr * gsl_spline * gsl_interp_accel) :=
  y <- calloc_double_array n ;;
  for_loop n (fun i =>
    xi <- load_double x i ;;
    store y i (Vdouble (func xi params))) ;;;
  spline <- gsl_spline_alloc n ;;
  acc <- gsl_interp_accel_alloc ;;
  spline <- gsl_spline_init spline x y n ;;
  ret (y, spline, acc).

(** ** Array extrema *)

(** Modelled from the spec: [gsl_stats_max] and [gsl_stats_min] are
    functions of the GSL library, which is not under src/.  They return the
    maximum and the minimum element of the [n] elements [data[i*stride]],
    found by one pass that starts from [data[0]] and replaces the running
    value by every element beyond it. *)
Definition gsl_stats_max (data : ptr) (stride n : Z) : M R :=
  d0 <- load_double data (0 * stride) ;;
  for_fold n (fun i mx =>
    xi <- load_double data (i * stride) ;;
    ret (if Rgt_dec xi mx then xi else mx)) d0.

Definition gsl_stats_min (data : ptr) (stride n : Z) : M R :=
  d0 <- load_double data (0 * stride) ;;
  for_fold n (fun i mn =>
    xi <- load_double data (i * stride) ;;
    ret (if Rlt_dec xi mn then xi else mn)) d0.

Definition array_max (x : ptr) (n : Z) : M R := gsl_stats_max x 1 n.

Definition array_min (x : ptr) (n : Z) : M R := gsl_stats_min x 1 n.

(** ** Vectors and tensors *)

(** [a[i][j]] read as a double. *)
Definition load2_double (a : ptr) (i j : Z) : M R :=
  ai <- load_ptr a i ;; load_double ai j.

Definition vector_cross_product (x y : ptr) (ndim : Z) : M ptr :=
  if ndim =? 2 then
    cp <- calloc 1 ;;
    cp <- nonnull cp ;;
    x0 <- load_double x 0 ;; y1 <- load_double y 1 ;;
    x1 <- load_double x 1 ;; y0 <- load_double y 0 ;;
    store cp 0 (Vdouble (x0 * y1 - x1 * y0)) ;;;
    ret cp
  else
    cp <- calloc 3 ;;
    cp <- nonnull cp ;;
    x1 <- load_double x 1 ;; y2 <- load_double y 2 ;;
    x2 <- load_double x 2 ;; y1 <- load_double y 1 ;;
    store cp 0 (Vdouble (x1 * y2 - x2 * y1)) ;;;
    x2 <- load_double x 2 ;; y0 <- load_double y 0 ;;
    x0 <- load_double x 0 ;; y2 <- load_double y 2 ;;
    store cp 1 (Vdouble (x2 * y0 - x0 * y2)) ;;;
    x0 <- load_double x 0 ;; y1 <- load_double y 1 ;;
    x1 <- load_double x 1 ;; y0 <- load_double y 0 ;;
    store cp 2 (Vdouble (x0 * y1 - x1 * y0)) ;;;
    ret cp.

Definition vector_dot_product (x y : ptr) (n : Z) : M R :=
  for_fold n (fun i dot =>
    xi <- load_double x i ;; yi <- load_double y i ;;
    ret (dot + xi * yi)%R) 0%R.

Definition vector_cross_product_in_place (r x y : ptr) (ndim : Z) : M unit :=
  if ndim =? 2 then
    x0 <- load_double x 0 ;; y1 <- load_double y 1 ;;
    x1 <- load_double x 1 ;; y0 <- load_double y 0 ;;
    store r 0 (Vdouble (x0 * y1 - x1 * y0))
  else
    x1 <- load_double x 1 ;; y2 <- load_double y 2 ;;
    x2 <- load_double x 2 ;; y1 <- load_double y 1 ;;
    store r 0 (Vdouble (x1 * y2 - x2 * y1)) ;;;
    x2 <- load_double x 2 ;; y0 <- load_double y 0 ;;
    x0 <- load_double x 0 ;; y2 <- load_double y 2 ;;
    store r 1 (Vdouble (x2 * y0 - x0 * y2)) ;;;
    x0 <- load_double x 0 ;; y1 <- load_double y 1 ;;
    x1 <- load_double x 1 ;; y0 <- load_double y 0 ;;
    store r 2 (Vdouble (x0 * y1 - x1 * y0)).

Definition vector_magnitude (x : ptr) (n : Z) : M R :=
  dot <- for_fold n (fun i dot =>
           xi <- load_double x i ;; xi' <- load_double x i ;;
           ret (dot + xi * xi')%R) 0%R ;;
  ret (sqrt dot).

Definition tensor_transformation (a sigma : ptr) (ndim : Z) : M ptr :=
  result_A <- two_dimensional_array ndim ndim ;;
  for_loop ndim (fun n =>
    for_loop ndim (fun m =>
      x <- for_fold ndim (fun j x =>
             y <- for_fold ndim (fun i y =>
                    ami <- load2_double a m i ;;
                    sji <- load2_double sigma j i ;;
                    ret (y + ami * sji)%R) 0%R ;;
             anj <- load2_double a n j ;;
             ret (x + anj * y)%R) 0%R ;;
      store2 result_A n m (Vdouble x))) ;;;
  ret result_A.

Definition matrix_determinant (a : ptr) (ndim : Z) : M R :=
  if ndim =? 2 then
    a00 <- load2_double a 0 0 ;; a11 <- load2_double a 1 1 ;;
    a10 <- load2_double a 1 0 ;; a01 <- load2_double a 0 1 ;;
    ret (a00 * a11 - a10 * a01)%R
  else
    let det := 0%R in
    a00 <- load2_double a 0 0 ;; a11 <- load2_double a 1 1 ;;
    a22 <- load2_double a 2 2 ;; a01 <- load2_double a 0 1 ;;
    a12 <- load2_double a 1 2 ;; a20 <- load2_double a 2 0 ;;
    let det := (det + (a00 * a11 * a22 + a01 * a12 * a20))%R in
    a02 <- load2_double a 0 2 ;; a10 <- load2_double a 1 0 ;;
    a21 <- load2_double a 2 1 ;; a02' <- load2_double a 0 2 ;;
    a11' <- load2_double a 1 1 ;; a20' <- load2_double a 2 0 ;;
    let det := (det + (a02 * a10 * a21 - a02' * a11' * a20'))%R in
    a01' <- load2_double a 0 1 ;; a10' <- load2_double a 1 0 ;;
    a22' <- load2_double a 2 2 ;; a00' <- load2_double a 0 0 ;;
    a12' <- load2_double a 1 2 ;; a21' <- load2_double a 2 1 ;;
    let det := (det - (a01' * a10' * a22' + a00' * a12' * a21'))%R in
    ret det.

(** ** Small helpers of the source *)

(** [GSL_MAX_DBL(a,b)] of gsl_minmax.h, which is not under src/: the
    larger of two doubles, [a > b ? a : b]. *)
Definition GSL_MAX_DBL (a b : R) : R := if Rgt_dec a b then a else b.

Definition max_three (a b c : R) : R := GSL_MAX_DBL (GSL_MAX_DBL a b) c.

(** The comparison callback handed to [qsort]: the test "da greater than
    db" minus the test "da less than db", each operand read through its
    pointer. *)
Definition compare_doubles (a b : ptr) : M Z :=
  da <- load_double a 0 ;; db <- load_double b 0 ;;
  da' <- load_double a 0 ;; db' <- load_double b 0 ;;
  ret ((if Rgt_dec da db then 1 else 0) - (if Rlt_dec da' db' then 1 else 0)).

(** * Specification vocabulary *)

(** The live block behind [p] holds exactly the doubles [xs]. *)
Definition vec_at (h : heap) (p : ptr) (xs : list R) : Prop :=
  exists k, h !! p = Some (Block k true (Vdouble <$> xs)).

(** The live block behind [a] holds pointers to the rows of a matrix. *)
Definition mat_at (h : heap) (a : ptr) (rows : list (list R)) : Prop :=
  exists k ps,
    h !! a = Some (Block k true (Vptr <$> ps)) /\ Forall2 (vec_at h) ps rows.

(** Number of components read from each operand, and written to the
    result, by the cross product in its two branches. *)
Definition cross_dim (ndim : Z) : nat := if ndim =? 2 then 2%nat else 3%nat.
Definition cross_size (ndim : Z) : nat := if ndim =? 2 then 1%nat else 3%nat.

Definition vector_block (xs : list R) : block :=
  Block ByCalloc true (Vdouble <$> xs).

Definition row_block (xs : list R) : block :=
  Block ByNewArray true (Vdouble <$> xs).

Definition rows_block (ps : list ptr) : block :=
  Block ByNewArray true (Vptr <$> ps).

(** The two variants agree from [h]: the doubles of the array returned by
    the allocating one are, element for element, what the in-place one
    leaves at the front of [r]. *)
Definition same_values (h : heap) (r x y : ptr) (ndim : Z) : Prop :=
  exists cp h1 h2 cs k cells,
    vector_cross_product x y ndim h = Done cp h1
    /\ vec_at h1 cp cs
    /\ vector_cross_product_in_place r x y ndim h = Done tt h2
    /\ h2 !! r = Some (Block k true cells)
    /\ take (length cs) cells = Vdouble <$> cs.

(** Memories used as concrete inputs. *)
Definition sample_heap : heap :=
  [ vector_block [1; 0]%R;
    vector_block [0; 1]%R;
    vector_block [1; 0; 0]%R;
    vector_block [0; 1; 0]%R;
    rows_block [5; 6]%nat;
    row_block [1; 2]%R;
    row_block [3; 4]%R;
    rows_block [8; 9; 10]%nat;
    row_block [2; 0; 1]%R;
    row_block [1; 3; 2]%R;
    row_block [1; 1; 1]%R;
    Block ByNewArray true [Vundef; Vundef; Vundef] ].

Definition aliased_heap : heap :=
  [ vector_block [1; 2; 3]%R; vector_block [4; 5; 6]%R ].

(** The value sampled at the abscissa [lx] by the log-log builder. *)
Definition sampled {P} (func : R -> P -> R) (params : P) (lx : R) : R :=
  func (pow10 lx) params.

#[local] Instance Rle_decision (x y : R) : Decision (x <= y)%R := Rle_dec x y.

(** The sum of [f j] over [j < n], in the order a loop accumulates it. *)
Fixpoint Rsum (n : nat) (f : nat -> R) : R :=
  match n with
  | O => 0%R
  | S k => (Rsum k f + f k)%R
  end.

(** [A[i][j]], and 0 outside the matrix. *)
Definition entry (A : list (list R)) (i j : nat) : R :=
  match A !! i with
  | Some row => match row !! j with Some d => d | None => 0%R end
  | None => 0%R
  end.

(** The entry (n, m) of a.sigma.a^T written index-wise. *)
Definition transformed (A S : list (list R)) (ndim n m : nat) : R :=
  Rsum ndim (fun j =>
    entry A n j * Rsum ndim (fun i => entry A m i * entry S j i))%R.

Definition square (ndim : nat) (A : list (list R)) : Prop :=
  length A = ndim /\ Forall (fun row => length row = ndim) A.

Definition identity_matrix (ndim : nat) : list (list R) :=
  (fun i => (fun j => if Nat.eqb i j then 1%R else 0%R) <$> seq 0 ndim)
    <$> seq 0 ndim.

(** The memory [h] followed by a nested array with the given rows: the
    block of row pointers comes first and the rows follow in order. *)
Definition grid (h : heap) (rows : list (list value)) : heap :=
  h ++ rows_block (seq (S (length h)) (length rows))
    :: (Block ByNewArray true <$> rows).

Definition doubles (T : list (list R)) : list (list value) :=
  (fun row : list R => Vdouble <$> row) <$> T.

(** [x[i][j][k]] points to a live array of [p] cells. *)
Definition leaf_at (h : heap) (x : ptr) (i j k p : Z) : Prop :=
  exists xi xij leaf cells,
    load_ptr x i h = Done xi h
    /\ load_ptr xi j h = Done xij h
    /\ load_ptr xij k h = Done leaf h
    /\ h !! leaf = Some (Block ByNewArray true cells)
    /\ length cells = Z.to_nat p.

(** Every leaf of an n x l x m x p array is allocated. *)
Definition every_leaf_allocated (h : heap) (x : ptr) (n l m p : Z) : Prop :=
  forall i j k, 0 <= i < n -> 0 <= j < l -> 0 <= k < m -> leaf_at h x i j k p.

(** [xs[i]], and 0 outside the vector. *)
Definition component (xs : list R) (i : nat) : R :=
  match xs !! i with Some d => d | None => 0%R end.

(** The sum of [xs[i] * ys[i]] over [i < n]. *)
Definition dot_of (n : nat) (xs ys : list R) : R :=
  Rsum n (fun i => component xs i * component ys i)%R.

(** A memory holding matrices together with their transposes, and a
    symmetric matrix. *)
Definition matrix_heap : heap :=
  [ rows_block [1; 2]%nat; row_block [1; 2]%R; row_block [3; 4]%R;
    rows_block [4; 5]%nat; row_block [1; 3]%R; row_block [2; 4]%R;
    rows_block [7; 8; 9]%nat;
    row_block [2; 0; 1]%R; row_block [1; 3; 2]%R; row_block [1; 1; 1]%R;
    rows_block [11; 12; 13]%nat;
    row_block [2; 1; 1]%R; row_block [0; 3; 1]%R; row_block [1; 2; 1]%R;
    rows_block [15; 16]%nat; row_block [1; 2]%R; row_block [2; 3]%R ].

(** [S[i][j] = S[j][i]] for all indices below [nd]. *)
Definition symmetric (nd : nat) (S : list (list R)) : Prop :=
  forall i j, (i < nd)%nat -> (j < nd)%nat -> entry S i j = entry S j i.

(** The blocks a nested allocation appends, in allocation order.  A leaf
    is one array of uninitialised cells.  A node whose own block lands at
    index [root] is an array of [N] pointers of which the first [K] have
    been set, followed by the [K] children it points to, each taking [sz]
    blocks. *)
Definition leaf_chunk (cells : nat) (root : nat) : list block :=
  [Block ByNewArray true (replicate cells Vundef)].

Definition node_chunk (N K sz : nat) (child : nat -> list block) (root : nat)
    : list block :=
  Block ByNewArray true
    ((Vptr <$> ((fun j => root + 1 + j * sz)%nat <$> seq 0 K))
     ++ replicate (N - K) Vundef)
  :: concat ((fun j => child (root + 1 + j * sz)%nat) <$> seq 0 K).

(** The blocks of [chunk] are in [h] from index [root] on. *)
Definition sits_at (h : heap) (root : nat) (chunk : list block) : Prop :=
  forall r b, chunk !! r = Some b -> h !! (root + r)%nat = Some b.

(** The memory [h] after the blocks selected by [D] have been released. *)
Definition kill (D : nat -> bool) (h : heap) : heap :=
  imap (fun q b =>
          if D q then Block (blk_kind b) false (blk_cells b) else b) h.

(** [lo <= q < hi]. *)
Definition span (lo hi q : nat) : bool := (lo <=? q)%nat && (q <? hi)%nat.

(** * Properties *)

(** ** Index-to-value maps *)

Lemma ln_10_pos : (0 < ln 10)%R.
Proof. rewrite <- ln_1. apply ln_increasing; lra. Qed.

Lemma pow10_log10 (x : R) : (0 < x)%R -> pow10 (log10 x) = x.
Proof.
  intros Hx. unfold pow10, log10, Rpower.
  replace (ln x / ln 10 * ln 10)%R with (ln x).
  - now apply exp_ln.
  - field. pose proof ln_10_pos. lra.
Qed.

Lemma IZR_pred_nonzero (n : Z) : 2 <= n -> IZR (n - 1) <> 0%R.
Proof. intros Hn. apply not_0_IZR. lia. Qed.

(** C7: for n >= 2 and 0 <= i <= n-1 the linear map is
    xmin + (xmax-xmin)*i/(n-1), giving xmin at i = 0 and xmax at i = n-1;
    for positive xmin and xmax the log10 map is
    10^(log10 xmin + (log10 xmax - log10 xmin)*i/(n-1)), again with xmin at
    i = 0 and xmax at i = n-1. *)
Theorem double_index_values (i n : Z) (xmin xmax : R) :
  2 <= n -> 0 <= i <= n - 1 ->
  double_linear_index i n xmin xmax
    = (xmin + (xmax - xmin) * IZR i / IZR (n - 1))%R
  /\ double_linear_index 0 n xmin xmax = xmin
  /\ double_linear_index (n - 1) n xmin xmax = xmax
  /\ ((0 < xmin)%R -> (0 < xmax)%R ->
      double_log10_index i n xmin xmax
        = pow10 (log10 xmin + (log10 xmax - log10 xmin) * IZR i / IZR (n - 1))%R
      /\ double_log10_index 0 n xmin xmax = xmin
      /\ double_log10_index (n - 1) n xmin xmax = xmax).
Proof.
  intros Hn Hi. pose proof (IZR_pred_nonzero n Hn) as Hd.
  unfold double_linear_index, double_log10_index.
  repeat split.
  - ring.
  - field. exact Hd.
  - field. exact Hd.
  - f_equal. ring.
  - etransitivity; [| apply pow10_log10; assumption]. f_equal. field. exact Hd.
  - etransitivity; [| apply pow10_log10; assumption]. f_equal. field. exact Hd.
Qed.

Lemma double_index_values_witness :
  double_linear_index 2 5 1 100 = (1 + (100 - 1) * IZR 2 / IZR (5 - 1))%R
  /\ double_linear_index 0 5 1 100 = 1%R
  /\ double_linear_index (5 - 1) 5 1 100 = 100%R
  /\ ((0 < 1)%R -> (0 < 100)%R ->
      double_log10_index 2 5 1 100
        = pow10 (log10 1 + (log10 100 - log10 1) * IZR 2 / IZR (5 - 1))%R
      /\ double_log10_index 0 5 1 100 = 1%R
      /\ double_log10_index (5 - 1) 5 1 100 = 100%R).
Proof. apply (double_index_values 2 5 1 100); lia. Defined.

(** ** Reading memory *)

Lemma bind_done {A B} (c : M A) (k : A -> M B) h a h' :
  c h = Done a h' -> bind c k h = k a h'.
Proof. intros H. unfold bind. now rewrite H. Qed.

Lemma bind_exited {A B} (c : M A) (k : A -> M B) h r :
  c h = Exited r -> bind c k h = Exited r.
Proof. intros H. unfold bind. now rewrite H. Qed.

Lemma load_at h p k cells (i : Z) v :
  h !! p = Some (Block k true cells) -> 0 <= i ->
  cells !! Z.to_nat i = Some v ->
  load p i h = Done v h.
Proof.
  intros Hp Hi Hv. unfold load, bind, deref. rewrite Hp. simpl.
  destruct (Z.ltb_spec i 0); [lia|]. now rewrite Hv.
Qed.

Lemma load_double_at h p xs (i : Z) d :
  vec_at h p xs -> 0 <= i -> xs !! Z.to_nat i = Some d ->
  load_double p i h = Done d h.
Proof.
  intros [k Hp] Hi Hd. unfold load_double.
  rewrite (bind_done _ _ h (Vdouble d) h); [reflexivity|].
  eapply load_at; [exact Hp|exact Hi|].
  now rewrite list_lookup_fmap, Hd.
Qed.

Lemma load_ptr_at h p k ps (i : Z) q :
  h !! p = Some (Block k true (Vptr <$> ps)) -> 0 <= i ->
  ps !! Z.to_nat i = Some q ->
  load_ptr p i h = Done q h.
Proof.
  intros Hp Hi Hq. unfold load_ptr.
  rewrite (bind_done _ _ h (Vptr q) h); [reflexivity|].
  eapply load_at; [exact Hp|exact Hi|].
  now rewrite list_lookup_fmap, Hq.
Qed.

Lemma load2_double_at h a rows (i j : Z) row d :
  mat_at h a rows -> 0 <= i -> 0 <= j ->
  rows !! Z.to_nat i = Some row -> row !! Z.to_nat j = Some d ->
  load2_double a i j h = Done d h.
Proof.
  intros (k & ps & Ha & Hrows) Hi Hj Hrow Hd. unfold load2_double.
  destruct (Forall2_lookup_r _ _ _ _ _ Hrows Hrow) as (q & Hq & Hvec).
  erewrite bind_done by (eapply load_ptr_at; eauto).
  eapply load_double_at; eauto.
Qed.

(** ** Determinant *)

(** C3: a 2x2 matrix with ndim = 2 gives a00*a11 - a10*a01; a 3x3 matrix
    with any ndim other than 2 gives the six-term expansion
    a00*a11*a22 + a01*a12*a20 + a02*a10*a21 - a02*a11*a20 - a01*a10*a22
    - a00*a12*a21.  Memory is left as it was. *)
Theorem matrix_determinant_formula (h : heap) (a2 a3 : ptr) (ndim : Z)
    (b00 b01 b10 b11 : R) (a00 a01 a02 a10 a11 a12 a20 a21 a22 : R) :
  mat_at h a2 [[b00; b01]; [b10; b11]] ->
  mat_at h a3 [[a00; a01; a02]; [a10; a11; a12]; [a20; a21; a22]] ->
  ndim <> 2 ->
  matrix_determinant a2 2 h = Done (b00 * b11 - b10 * b01)%R h
  /\ matrix_determinant a3 ndim h
     = Done (a00 * a11 * a22 + a01 * a12 * a20 + a02 * a10 * a21
             - a02 * a11 * a20 - a01 * a10 * a22 - a00 * a12 * a21)%R h.
Proof.
  intros H2 H3 Hnd. split.
  - unfold matrix_determinant. simpl.
    repeat (erewrite bind_done
              by (eapply (load2_double_at _ _ _ _ _ _ _ H2); [lia|lia|reflexivity|reflexivity])).
    reflexivity.
  - unfold matrix_determinant.
    destruct (Z.eqb_spec ndim 2) as [|_]; [contradiction|].
    repeat (erewrite bind_done
              by (eapply (load2_double_at _ _ _ _ _ _ _ H3); [lia|lia|reflexivity|reflexivity])).
    unfold ret. f_equal. ring.
Qed.

Lemma sample_mat_at :
  mat_at sample_heap 4%nat [[1; 2]; [3; 4]]%R.
Proof.
  exists ByNewArray, [5; 6]%nat. split; [reflexivity|].
  repeat constructor; now exists ByNewArray.
Qed.

Lemma sample_mat3_at :
  mat_at sample_heap 7%nat [[2; 0; 1]; [1; 3; 2]; [1; 1; 1]]%R.
Proof.
  exists ByNewArray, [8; 9; 10]%nat. split; [reflexivity|].
  repeat constructor; now exists ByNewArray.
Qed.

Lemma matrix_determinant_formula_witness :
  matrix_determinant 4%nat 2 sample_heap
    = Done (1 * 4 - 3 * 2)%R sample_heap
  /\ matrix_determinant 7%nat 3 sample_heap
     = Done (2 * 3 * 1 + 0 * 2 * 1 + 1 * 1 * 1
             - 1 * 3 * 1 - 0 * 1 * 1 - 2 * 2 * 1)%R sample_heap.
Proof.
  apply (matrix_determinant_formula sample_heap 4%nat 7%nat 3
           1 2 3 4 2 0 1 1 3 2 1 1 1 sample_mat_at sample_mat3_at).
  lia.
Defined.

(** ** Writing memory *)

Lemma store_at h p k cells (i : Z) v :
  h !! p = Some (Block k true cells) -> 0 <= i ->
  (Z.to_nat i < length cells)%nat ->
  store p i v h = Done tt (<[p := Block k true (<[Z.to_nat i := v]> cells)]> h).
Proof.
  intros Hp Hi Hlen. unfold store, bind, deref. rewrite Hp. simpl.
  destruct (Z.ltb_spec i 0); [lia|].
  destruct (Nat.ltb_spec (Z.to_nat i) (length cells)); [reflexivity|lia].
Qed.

Lemma vec_at_app h ext p xs : vec_at h p xs -> vec_at (h ++ ext) p xs.
Proof. intros [k Hp]. exists k. now apply lookup_app_l_Some. Qed.

Lemma lookup_fresh (h : heap) b : (h ++ [b]) !! length h = Some b.
Proof. now rewrite list_lookup_middle. Qed.

Lemma insert_fresh (h : heap) b b' : <[length h := b']> (h ++ [b]) = h ++ [b'].
Proof.
  rewrite insert_app_r_alt by lia. now rewrite Nat.sub_diag.
Qed.

(** ** Cross product *)

Ltac read_vectors :=
  repeat (erewrite bind_done
            by (eapply load_double_at;
                [apply vec_at_app; eassumption | lia | reflexivity])).

Ltac write_fresh :=
  erewrite bind_done
    by (eapply store_at; [apply lookup_fresh | lia | simpl; lia]);
  rewrite insert_fresh; simpl.

Lemma cross_product_2d h x y x0 x1 xs y0 y1 ys :
  vec_at h x (x0 :: x1 :: xs) -> vec_at h y (y0 :: y1 :: ys) ->
  vector_cross_product x y 2 h
  = Done (length h) (h ++ [Block ByCalloc true [Vdouble (x0 * y1 - x1 * y0)]]).
Proof.
  intros Hx Hy. unfold vector_cross_product. simpl.
  unfold calloc. simpl. unfold bind at 1 2. unfold alloc, ret at 1. simpl.
  unfold bind at 1. simpl. unfold ret at 1.
  read_vectors. write_fresh. reflexivity.
Qed.

Lemma cross_product_3d h x y ndim x0 x1 x2 xs y0 y1 y2 ys :
  ndim <> 2 ->
  vec_at h x (x0 :: x1 :: x2 :: xs) -> vec_at h y (y0 :: y1 :: y2 :: ys) ->
  vector_cross_product x y ndim h
  = Done (length h)
      (h ++ [Block ByCalloc true [Vdouble (x1 * y2 - x2 * y1);
                                  Vdouble (x2 * y0 - x0 * y2);
                                  Vdouble (x0 * y1 - x1 * y0)]]).
Proof.
  intros Hnd Hx Hy. unfold vector_cross_product.
  destruct (Z.eqb_spec ndim 2) as [|_]; [contradiction|].
  unfold calloc. simpl. unfold bind at 1 2. unfold alloc, ret at 1. simpl.
  unfold bind at 1. simpl. unfold ret at 1.
  read_vectors. write_fresh.
  read_vectors. write_fresh.
  read_vectors. write_fresh. reflexivity.
Qed.

Lemma vec_at_insert_ne h r b p xs :
  r <> p -> vec_at h p xs -> vec_at (<[r := b]> h) p xs.
Proof. intros Hne [k Hp]. exists k. now rewrite list_lookup_insert_ne. Qed.

Lemma lookup_insert_same (h : heap) r b b' :
  h !! r = Some b -> <[r := b']> h !! r = Some b'.
Proof. intros Hr. apply list_lookup_insert_eq. now apply lookup_lt_Some in Hr. Qed.

Lemma in_place_2d h r x y k c0 cells x0 x1 xs y0 y1 ys :
  vec_at h x (x0 :: x1 :: xs) -> vec_at h y (y0 :: y1 :: ys) ->
  h !! r = Some (Block k true (c0 :: cells)) ->
  vector_cross_product_in_place r x y 2 h
  = Done tt (<[r := Block k true (Vdouble (x0 * y1 - x1 * y0) :: cells)]> h).
Proof.
  intros Hx Hy Hr. unfold vector_cross_product_in_place. simpl.
  repeat (erewrite bind_done
            by (eapply load_double_at; [eassumption | lia | reflexivity])).
  erewrite store_at by (try exact Hr; simpl; lia). reflexivity.
Qed.

Lemma in_place_3d h r x y ndim k c0 c1 c2 cells x0 x1 x2 xs y0 y1 y2 ys :
  ndim <> 2 -> r <> x -> r <> y ->
  vec_at h x (x0 :: x1 :: x2 :: xs) -> vec_at h y (y0 :: y1 :: y2 :: ys) ->
  h !! r = Some (Block k true (c0 :: c1 :: c2 :: cells)) ->
  vector_cross_product_in_place r x y ndim h
  = Done tt (<[r := Block k true (Vdouble (x1 * y2 - x2 * y1)
                                  :: Vdouble (x2 * y0 - x0 * y2)
                                  :: Vdouble (x0 * y1 - x1 * y0) :: cells)]> h).
Proof.
  intros Hnd Hrx Hry Hx Hy Hr. unfold vector_cross_product_in_place.
  destruct (Z.eqb_spec ndim 2) as [|_]; [contradiction|].
  repeat (erewrite bind_done
            by (eapply load_double_at; [eassumption | lia | reflexivity])).
  erewrite bind_done by (eapply store_at; [exact Hr | lia | simpl; lia]).
  simpl.
  repeat (erewrite bind_done
            by (eapply load_double_at;
                [apply vec_at_insert_ne; eassumption | lia | reflexivity])).
  erewrite bind_done
    by (eapply store_at; [eapply lookup_insert_same, Hr | lia | simpl; lia]).
  rewrite list_insert_insert_eq. simpl.
  repeat (erewrite bind_done
            by (eapply load_double_at;
                [apply vec_at_insert_ne; eassumption | lia | reflexivity])).
  erewrite store_at
    by (try (eapply lookup_insert_same, Hr); simpl; lia).
  rewrite list_insert_insert_eq. reflexivity.
Qed.

(** C5: with ndim = 2 the result is a fresh one-element array holding
    x0*y1 - x1*y0; with any other ndim it is a fresh three-element array
    holding (x1*y2 - x2*y1, x2*y0 - x0*y2, x0*y1 - x1*y0).  In particular
    [1,0] x [0,1] = [1] and [1,0,0] x [0,1,0] = [0,0,1]. *)
Theorem vector_cross_product_values (h : heap) (x y u v : ptr) (ndim : Z)
    (x0 x1 y0 y1 u0 u1 u2 v0 v1 v2 : R) (xs ys us vs : list R) :
  vec_at h x (x0 :: x1 :: xs) -> vec_at h y (y0 :: y1 :: ys) ->
  vec_at h u (u0 :: u1 :: u2 :: us) -> vec_at h v (v0 :: v1 :: v2 :: vs) ->
  ndim <> 2 ->
  vector_cross_product x y 2 h
    = Done (length h) (h ++ [vector_block [x0 * y1 - x1 * y0]%R])
  /\ vector_cross_product u v ndim h
    = Done (length h)
        (h ++ [vector_block [u1 * v2 - u2 * v1; u2 * v0 - u0 * v2;
                             u0 * v1 - u1 * v0]%R])
  /\ (forall a b, vec_at h a [1; 0]%R -> vec_at h b [0; 1]%R ->
        vector_cross_product a b 2 h
        = Done (length h) (h ++ [vector_block [1%R]]))
  /\ (forall a b, vec_at h a [1; 0; 0]%R -> vec_at h b [0; 1; 0]%R ->
        vector_cross_product a b 3 h
        = Done (length h) (h ++ [vector_block [0; 0; 1]%R])).
Proof.
  intros Hx Hy Hu Hv Hnd. repeat split.
  - now apply cross_product_2d with (xs := xs) (ys := ys).
  - now apply cross_product_3d with (xs := us) (ys := vs).
  - intros a b Ha Hb. rewrite (cross_product_2d _ _ _ _ _ _ _ _ _ Ha Hb).
    unfold vector_block. simpl.
    replace (1 * 1 - 0 * 0)%R with 1%R by ring. reflexivity.
  - intros a b Ha Hb.
    rewrite (cross_product_3d _ _ _ 3 _ _ _ _ _ _ _ _ ltac:(lia) Ha Hb).
    unfold vector_block. simpl.
    replace (0 * 0 - 0 * 1)%R with 0%R by ring.
    replace (0 * 0 - 1 * 0)%R with 0%R by ring.
    replace (1 * 1 - 0 * 0)%R with 1%R by ring.
    reflexivity.
Qed.

Lemma sample_vec_at (p : ptr) (xs : list R) :
  sample_heap !! p = Some (vector_block xs) -> vec_at sample_heap p xs.
Proof. intros Hp. now exists ByCalloc. Qed.

Lemma vector_cross_product_values_witness :
  vector_cross_product 0%nat 1%nat 2 sample_heap
    = Done (length sample_heap)
        (sample_heap ++ [vector_block [1 * 1 - 0 * 0]%R])
  /\ vector_cross_product 2%nat 3%nat 3 sample_heap
    = Done (length sample_heap)
        (sample_heap ++ [vector_block [0 * 0 - 0 * 1; 0 * 0 - 1 * 0;
                                       1 * 1 - 0 * 0]%R]).
Proof.
  pose proof (vector_cross_product_values sample_heap 0%nat 1%nat 2%nat 3%nat 3
                1 0 0 1 1 0 0 0 1 0 [] [] [] []
                (sample_vec_at 0%nat _ eq_refl) (sample_vec_at 1%nat _ eq_refl)
                (sample_vec_at 2%nat _ eq_refl) (sample_vec_at 3%nat _ eq_refl)
                ltac:(lia)) as (H2 & H3 & _).
  split; assumption.
Defined.

(** C10: swapping the operands negates every component of the result, in
    the ndim = 2 branch and in the other one. *)
Theorem vector_cross_product_anticommutative (h : heap) (x y : ptr) (ndim : Z)
    (xs ys : list R) :
  vec_at h x xs -> vec_at h y ys ->
  (cross_dim ndim <= length xs)%nat -> (cross_dim ndim <= length ys)%nat ->
  exists cs,
    length cs = cross_size ndim
    /\ vector_cross_product x y ndim h
       = Done (length h) (h ++ [vector_block cs])
    /\ vector_cross_product y x ndim h
       = Done (length h) (h ++ [vector_block (Ropp <$> cs)]).
Proof.
  intros Hx Hy. unfold cross_dim, cross_size.
  destruct (Z.eqb_spec ndim 2) as [->|Hnd]; intros Hlx Hly.
  - destruct xs as [|x0 [|x1 xs]]; simpl in Hlx; try lia.
    destruct ys as [|y0 [|y1 ys]]; simpl in Hly; try lia.
    exists [x0 * y1 - x1 * y0]%R. split; [reflexivity|]. split.
    + eapply cross_product_2d; eassumption.
    + rewrite (cross_product_2d _ _ _ _ _ _ _ _ _ Hy Hx).
      unfold vector_block. simpl.
      replace (y0 * x1 - y1 * x0)%R with (- (x0 * y1 - x1 * y0))%R by ring.
      reflexivity.
  - destruct xs as [|x0 [|x1 [|x2 xs]]]; simpl in Hlx; try lia.
    destruct ys as [|y0 [|y1 [|y2 ys]]]; simpl in Hly; try lia.
    exists [x1 * y2 - x2 * y1; x2 * y0 - x0 * y2; x0 * y1 - x1 * y0]%R.
    split; [reflexivity|]. split.
    + eapply cross_product_3d; eassumption.
    + rewrite (cross_product_3d _ _ _ _ _ _ _ _ _ _ _ _ Hnd Hy Hx).
      unfold vector_block. simpl.
      replace (y1 * x2 - y2 * x1)%R with (- (x1 * y2 - x2 * y1))%R by ring.
      replace (y2 * x0 - y0 * x2)%R with (- (x2 * y0 - x0 * y2))%R by ring.
      replace (y0 * x1 - y1 * x0)%R with (- (x0 * y1 - x1 * y0))%R by ring.
      reflexivity.
Qed.

Lemma vector_cross_product_anticommutative_witness :
  exists cs,
    length cs = cross_size 3
    /\ vector_cross_product 2%nat 3%nat 3 sample_heap
       = Done (length sample_heap) (sample_heap ++ [vector_block cs])
    /\ vector_cross_product 3%nat 2%nat 3 sample_heap
       = Done (length sample_heap) (sample_heap ++ [vector_block (Ropp <$> cs)]).
Proof.
  apply (vector_cross_product_anticommutative sample_heap 2%nat 3%nat 3
           [1; 0; 0]%R [0; 1; 0]%R).
  - apply sample_vec_at. reflexivity.
  - apply sample_vec_at. reflexivity.
  - unfold cross_dim, cross_size; simpl; lia.
  - unfold cross_dim, cross_size; simpl; lia.
Defined.

(** C6, amended: the two variants agree whenever the output buffer [r] is
    a live block with room for the result and, in the three-component
    branch, is neither of the operands. *)
Theorem cross_product_variants_agree (h : heap) (r x y : ptr) (ndim : Z)
    (xs ys : list R) (k : alloc_kind) (cells : list value) :
  vec_at h x xs -> vec_at h y ys ->
  h !! r = Some (Block k true cells) ->
  (cross_dim ndim <= length xs)%nat -> (cross_dim ndim <= length ys)%nat ->
  (cross_size ndim <= length cells)%nat ->
  (ndim <> 2 -> r <> x /\ r <> y) ->
  same_values h r x y ndim.
Proof.
  intros Hx Hy Hr. unfold cross_dim, cross_size, same_values.
  destruct (Z.eqb_spec ndim 2) as [->|Hnd]; intros Hlx Hly Hlc Hdis.
  - destruct xs as [|x0 [|x1 xs]]; simpl in Hlx; try lia.
    destruct ys as [|y0 [|y1 ys]]; simpl in Hly; try lia.
    destruct cells as [|c0 cells]; simpl in Hlc; try lia.
    eexists _, _, _, [x0 * y1 - x1 * y0]%R, k, _.
    split; [eapply cross_product_2d; eassumption|].
    split; [exists ByCalloc; apply lookup_fresh|].
    split; [eapply in_place_2d; eassumption|].
    split; [eapply lookup_insert_same, Hr|]. reflexivity.
  - destruct (Hdis Hnd) as [Hrx Hry].
    destruct xs as [|x0 [|x1 [|x2 xs]]]; simpl in Hlx; try lia.
    destruct ys as [|y0 [|y1 [|y2 ys]]]; simpl in Hly; try lia.
    destruct cells as [|c0 [|c1 [|c2 cells]]]; simpl in Hlc; try lia.
    eexists _, _, _,
      [x1 * y2 - x2 * y1; x2 * y0 - x0 * y2; x0 * y1 - x1 * y0]%R, k, _.
    split; [eapply cross_product_3d; eassumption|].
    split; [exists ByCalloc; apply lookup_fresh|].
    split; [eapply in_place_3d; eassumption|].
    split; [eapply lookup_insert_same, Hr|]. reflexivity.
Qed.

Lemma cross_product_variants_agree_witness : same_values sample_heap 11%nat 2%nat 3%nat 3.
Proof.
  apply (cross_product_variants_agree sample_heap 11%nat 2%nat 3%nat 3
           [1; 0; 0]%R [0; 1; 0]%R ByNewArray [Vundef; Vundef; Vundef]).
  - apply sample_vec_at. reflexivity.
  - apply sample_vec_at. reflexivity.
  - reflexivity.
  - unfold cross_dim, cross_size; simpl; lia.
  - unfold cross_dim, cross_size; simpl; lia.
  - unfold cross_dim, cross_size; simpl; lia.
  - intros _. split; lia.
Defined.

(** C6 as stated fails when the output buffer is the first operand:
    with x = r = [1,2,3] and y = [4,5,6] the allocating variant returns
    [-3,6,-3], while the in-place variant reads back the components it has
    just overwritten and leaves [-3,30,-135]. *)
Lemma in_place_aliasing_counterexample :
  vec_at aliased_heap 0%nat [1; 2; 3]%R
  /\ vec_at aliased_heap 1%nat [4; 5; 6]%R
  /\ ~ same_values aliased_heap 0%nat 0%nat 1%nat 3.
Proof.
  assert (H0 : vec_at aliased_heap 0%nat [1; 2; 3]%R) by (now exists ByCalloc).
  assert (H1 : vec_at aliased_heap 1%nat [4; 5; 6]%R) by (now exists ByCalloc).
  split; [exact H0|]. split; [exact H1|].
  intros (cp & h1 & h2 & cs & k & cells & Hc & Hcp & Hi & Hr & Htake).
  rewrite (cross_product_3d _ _ _ 3 _ _ _ _ _ _ _ _ ltac:(lia) H0 H1) in Hc.
  injection Hc as <- <-.
  destruct Hcp as [k' Hcp]. simpl in Hcp.
  injection Hcp as _ Hcs.
  cbn in Hi. injection Hi as <-.
  injection Hr as _ <-.
  destruct cs as [|c0 [|c1 [|c2 [|c3 cs]]]]; try discriminate Hcs.
  injection Hcs as _ Hc1 _. simpl in Htake.
  injection Htake as _ Hr1 _. lra.
Qed.

(** ** Loop rules *)

(** Total correctness of a counted loop from an invariant [I j], where [j]
    is the number of iterations already run. *)
Lemma fold_from_inv {A} (k : nat) :
  forall (I : nat -> A -> heap -> Prop) (body : Z -> A -> M A) (i0 : Z) a h,
    (forall j a h, (j < k)%nat -> I j a h ->
       exists a' h', body (i0 + Z.of_nat j) a h = Done a' h' /\ I (S j) a' h') ->
    I 0%nat a h ->
    exists a' h', fold_from k i0 body a h = Done a' h' /\ I k a' h'.
Proof.
  induction k as [|k IH]; intros I body i0 a h Hstep H0.
  - exists a, h. split; [reflexivity|assumption].
  - destruct (Hstep 0%nat a h ltac:(lia) H0) as (a1 & h1 & Hb & H1).
    rewrite Z.add_0_r in Hb.
    destruct (IH (fun j => I (S j)) body (i0 + 1) a1 h1) as (a' & h' & Hr & Hk).
    + intros j a2 h2 Hj Hi.
      replace (i0 + 1 + Z.of_nat j) with (i0 + Z.of_nat (S j)) by lia.
      apply Hstep; [lia|assumption].
    + assumption.
    + exists a', h'. split; [|assumption].
      simpl. now rewrite (bind_done _ _ _ _ _ Hb).
Qed.

Lemma for_from_inv (k : nat) :
  forall (I : nat -> heap -> Prop) (body : Z -> M unit) (i0 : Z) h,
    (forall j h, (j < k)%nat -> I j h ->
       exists h', body (i0 + Z.of_nat j) h = Done tt h' /\ I (S j) h') ->
    I 0%nat h ->
    exists h', for_from k i0 body h = Done tt h' /\ I k h'.
Proof.
  induction k as [|k IH]; intros I body i0 h Hstep H0.
  - exists h. split; [reflexivity|assumption].
  - destruct (Hstep 0%nat h ltac:(lia) H0) as (h1 & Hb & H1).
    rewrite Z.add_0_r in Hb.
    destruct (IH (fun j => I (S j)) body (i0 + 1) h1) as (h' & Hr & Hk).
    + intros j h2 Hj Hi.
      replace (i0 + 1 + Z.of_nat j) with (i0 + Z.of_nat (S j)) by lia.
      apply Hstep; [lia|assumption].
    + assumption.
    + exists h'. split; [|assumption].
      simpl. now rewrite (bind_done _ _ _ _ _ Hb).
Qed.

(** ** Array extrema *)

Section Extremum.
(** [pick xi m] is the running value after seeing [xi]; [before e m]
    says that [m] is at least as extreme as [e]. *)
Variable pick : R -> R -> R.
Variable before : R -> R -> Prop.
Hypothesis before_refl : forall a, before a a.
Hypothesis before_trans : forall a b c, before a b -> before b c -> before a c.
Hypothesis pick_cases : forall xi m,
  (pick xi m = xi /\ before m xi) \/ (pick xi m = m /\ before xi m).

Lemma running_extremum h data xs (n : Z) x0 :
  vec_at h data xs -> length xs = Z.to_nat n -> xs !! 0%nat = Some x0 ->
  exists m,
    for_fold n (fun i m =>
        xi <- load_double data (i * 1) ;; ret (pick xi m)) x0 h
    = Done m h
    /\ (exists i, xs !! i = Some m)
    /\ (forall i e, xs !! i = Some e -> before e m).
Proof.
  intros Hv Hlen H0. unfold for_fold.
  destruct (fold_from_inv (Z.to_nat n)
              (fun j m h' =>
                 h' = h /\ (exists i, xs !! i = Some m)
                 /\ (forall i e, (i < j)%nat -> xs !! i = Some e -> before e m))
              (fun i m => xi <- load_double data (i * 1) ;; ret (pick xi m))
              0 x0 h) as (m & h' & Hrun & -> & Hin & Hall).
  - intros j m h' Hj (-> & Hin & Hall).
    destruct (lookup_lt_is_Some_2 xs j ltac:(lia)) as [e He].
    exists (pick e m), h. split.
    + erewrite bind_done; [reflexivity|].
      eapply load_double_at; [exact Hv|lia|].
      now replace (Z.to_nat ((0 + Z.of_nat j) * 1)) with j by lia.
    + split; [reflexivity|].
      destruct (pick_cases e m) as [[-> Hm]|[-> Hm]].
      * split; [now exists j|].
        intros i e' Hi He'. destruct (Nat.eq_dec i j) as [->|Hne].
        -- rewrite He in He'. injection He' as <-. apply before_refl.
        -- eapply before_trans; [|exact Hm]. eapply Hall; [|exact He']. lia.
      * split; [exact Hin|].
        intros i e' Hi He'. destruct (Nat.eq_dec i j) as [->|Hne].
        -- rewrite He in He'. now injection He' as <-.
        -- eapply Hall; [|exact He']. lia.
  - split; [reflexivity|]. split; [now exists 0%nat|]. intros i e Hi. lia.
  - exists m. split; [exact Hrun|]. split; [exact Hin|].
    intros i e He. eapply Hall; [|exact He].
    apply lookup_lt_Some in He. lia.
Qed.
End Extremum.

Lemma max_cases (xi m : R) :
  ((if Rgt_dec xi m then xi else m) = xi /\ (m <= xi)%R)
  \/ ((if Rgt_dec xi m then xi else m) = m /\ (xi <= m)%R).
Proof. destruct (Rgt_dec xi m); [left|right]; split; try reflexivity; lra. Qed.

Lemma min_cases (xi m : R) :
  ((if Rlt_dec xi m then xi else m) = xi /\ (xi <= m)%R)
  \/ ((if Rlt_dec xi m then xi else m) = m /\ (m <= xi)%R).
Proof. destruct (Rlt_dec xi m); [left|right]; split; try reflexivity; lra. Qed.

(** C8: on an array of n >= 1 elements, [array_min] and [array_max] return
    elements of the array that bound every element from below and from
    above, and both return x[0] when n = 1.  Memory is left as it was. *)
Theorem array_extrema (h : heap) (x : ptr) (n : Z) (xs : list R) :
  vec_at h x xs -> 1 <= n -> length xs = Z.to_nat n ->
  exists mx mn,
    array_max x n h = Done mx h
    /\ array_min x n h = Done mn h
    /\ (forall i e, xs !! i = Some e -> (mn <= e <= mx)%R)
    /\ (exists i, xs !! i = Some mx)
    /\ (exists i, xs !! i = Some mn)
    /\ (n = 1 -> xs !! 0%nat = Some mx /\ xs !! 0%nat = Some mn).
Proof.
  intros Hv Hn Hlen.
  destruct (lookup_lt_is_Some_2 xs 0%nat ltac:(lia)) as [x0 H0].
  destruct (running_extremum (fun xi m => if Rgt_dec xi m then xi else m)
              (fun e m => (e <= m)%R) Rle_refl Rle_trans max_cases
              h x xs n x0 Hv Hlen H0) as (mx & Hmx & Hinx & Hallx).
  destruct (running_extremum (fun xi m => if Rlt_dec xi m then xi else m)
              (fun e m => (m <= e)%R) Rle_refl
              (fun a b c Hab Hbc => Rle_trans c b a Hbc Hab)
              (fun xi m => min_cases xi m)
              h x xs n x0 Hv Hlen H0) as (mn & Hmn & Hinn & Halln).
  exists mx, mn.
  assert (Hload : load_double x (0 * 1) h = Done x0 h)
    by (eapply load_double_at; [exact Hv|lia|exact H0]).
  split; [unfold array_max, gsl_stats_max; now rewrite (bind_done _ _ _ _ _ Hload)|].
  split; [unfold array_min, gsl_stats_min; now rewrite (bind_done _ _ _ _ _ Hload)|].
  split; [intros i e He; split; [now apply (Halln i)|now apply (Hallx i)]|].
  split; [exact Hinx|]. split; [exact Hinn|].
  intros ->. destruct Hinx as [i Hi], Hinn as [j Hj].
  assert (i = 0%nat) as -> by (apply lookup_lt_Some in Hi; simpl in Hlen; lia).
  assert (j = 0%nat) as -> by (apply lookup_lt_Some in Hj; simpl in Hlen; lia).
  split; assumption.
Qed.

Lemma array_extrema_witness :
  exists mx mn,
    array_max 2%nat 3 sample_heap = Done mx sample_heap
    /\ array_min 2%nat 3 sample_heap = Done mn sample_heap
    /\ (forall i e, [1; 0; 0]%R !! i = Some e -> (mn <= e <= mx)%R)
    /\ (exists i, [1; 0; 0]%R !! i = Some mx)
    /\ (exists i, [1; 0; 0]%R !! i = Some mn)
    /\ (3 = 1 -> [1; 0; 0]%R !! 0%nat = Some mx /\ [1; 0; 0]%R !! 0%nat = Some mn).
Proof.
  apply (array_extrema sample_heap 2%nat 3 [1; 0; 0]%R).
  - apply sample_vec_at. reflexivity.
  - lia.
  - reflexivity.
Defined.

(** ** Log-log spline *)

Lemma read_doubles_at h p xs (n : Z) :
  vec_at h p xs -> length xs = Z.to_nat n ->
  read_doubles p n h = Done xs h.
Proof.
  intros Hv Hlen. unfold read_doubles, for_fold.
  destruct (fold_from_inv (Z.to_nat n)
              (fun j acc h' => h' = h /\ acc = take j xs)
              (fun i acc => d <- load_double p i ;; ret (acc ++ [d]))
              0 [] h) as (acc & h' & Hrun & -> & ->).
  - intros j acc h' Hj [-> ->].
    destruct (lookup_lt_is_Some_2 xs j ltac:(lia)) as [e He].
    exists (take j xs ++ [e]), h. split.
    + erewrite bind_done; [reflexivity|].
      eapply load_double_at; [exact Hv|lia|].
      now replace (Z.to_nat (0 + Z.of_nat j)) with j by lia.
    + split; [reflexivity|]. now erewrite take_S_r.
  - split; reflexivity.
  - rewrite Hrun. f_equal. rewrite <- Hlen. apply firstn_all.
Qed.

Lemma gsl_spline_init_at h s xa ya xs ys (n : Z) :
  vec_at h xa xs -> vec_at h ya ys ->
  length xs = Z.to_nat n -> length ys = Z.to_nat n ->
  gsl_spline_init s xa ya n h = Done (Spline (spline_size s) xs ys) h.
Proof.
  intros Hx Hy Hlx Hly. unfold gsl_spline_init.
  rewrite (bind_done _ _ _ _ _ (read_doubles_at _ _ _ _ Hx Hlx)).
  rewrite (bind_done _ _ _ _ _ (read_doubles_at _ _ _ _ Hy Hly)).
  reflexivity.
Qed.

Section Log10Spline.
Context {P : Type} (func : R -> P -> R) (params : P).
Context (h : heap) (log10x : ptr) (xs : list R).
Hypothesis log10x_at : vec_at h log10x xs.

Let g (lx : R) : R := log10 (sampled func params lx).

Let body (i : Z) : M unit :=
  lx <- load_double log10x i ;;
  let x := pow10 lx in
  let y := func x params in
  if Rle_dec y 0 then exit_with (NonPositiveSample x y)
  else store (length h) i (Vdouble (log10 y)).

(** The sampling loop stops at the first abscissa with a non-positive
    sample, and otherwise fills the ordinates. *)
Lemma sampling_loop (todo : list R) :
  forall done, xs = done ++ todo ->
    for_from (length todo) (Z.of_nat (length done)) body
      (h ++ [Block ByCalloc true
               ((Vdouble <$> (g <$> done)) ++ replicate (length todo) (Vdouble 0))])
    = match list_find (fun lx => (sampled func params lx <= 0)%R) todo with
      | Some (_, lx) =>
          Exited (NonPositiveSample (pow10 lx) (sampled func params lx))
      | None => Done tt (h ++ [vector_block (g <$> xs)])
      end.
Proof.
  induction todo as [|lx todo IH]; intros done Hxs.
  - simpl. rewrite app_nil_r in Hxs. subst done.
    unfold vector_block. now rewrite app_nil_r.
  - assert (Hlx : xs !! length done = Some lx)
      by (subst xs; apply list_lookup_middle; reflexivity).
    set (hh := h ++ _).
    assert (Hload : load_double log10x (Z.of_nat (length done)) hh = Done lx hh).
    { eapply load_double_at; [apply vec_at_app, log10x_at|lia|].
      now rewrite Nat2Z.id. }
    cbn [length for_from list_find].
    unfold decide, Rle_decision, sampled at 1.
    destruct (Rle_dec (func (pow10 lx) params) 0) as [Hle|Hgt].
    + apply bind_exited. unfold body.
      rewrite (bind_done _ _ _ _ _ Hload). simpl.
      now destruct (Rle_dec (func (pow10 lx) params) 0).
    + erewrite bind_done; cycle 1.
      { unfold body. rewrite (bind_done _ _ _ _ _ Hload). simpl.
        destruct (Rle_dec (func (pow10 lx) params) 0); [contradiction|].
        eapply store_at; [apply lookup_fresh|lia|].
        rewrite length_app, !length_fmap. simpl. lia. }
      subst hh. rewrite insert_fresh, Nat2Z.id.
      specialize (IH (done ++ [lx])).
      rewrite <- app_assoc in IH. specialize (IH Hxs).
      rewrite length_app, Nat2Z.inj_add in IH.
      change (Z.of_nat (length [lx])) with 1 in IH.
      replace (<[length done := Vdouble (log10 (func (pow10 lx) params))]>
                 ((Vdouble <$> (g <$> done)) ++ replicate (S (length todo)) (Vdouble 0)))
        with ((Vdouble <$> (g <$> (done ++ [lx]))) ++ replicate (length todo) (Vdouble 0)).
      * rewrite IH. now destruct (list_find _ todo) as [[? ?]|].
      * rewrite !fmap_app, <- app_assoc. simpl.
        rewrite insert_app_r_alt by (rewrite !length_fmap; lia).
        rewrite !length_fmap, Nat.sub_diag. reflexivity.
Qed.

(** The whole builder, for any number of abscissas. *)
Lemma create_log10_spline_run (n : Z) :
  0 <= n -> length xs = Z.to_nat n ->
  create_log10_spline func log10x n params h
  = match list_find (fun lx => (sampled func params lx <= 0)%R) xs with
    | Some (_, lx) =>
        Exited (NonPositiveSample (pow10 lx) (sampled func params lx))
    | None =>
        Done (length h, Spline n xs (g <$> xs), Accel)
             (h ++ [vector_block (g <$> xs)])
    end.
Proof.
  intros Hn Hlen. unfold create_log10_spline, calloc_double_array, calloc.
  destruct (Z.ltb_spec n 0); [lia|].
  unfold bind at 1 2 3. unfold alloc, ret at 1 2. cbn beta iota.
  unfold for_loop. rewrite <- Hlen.
  pose proof (sampling_loop xs [] eq_refl) as Hloop.
  simpl in Hloop. unfold body in Hloop.
  change (Z.of_nat 0) with 0 in Hloop.
  unfold bind at 1. rewrite Hloop.
  destruct (list_find _ xs) as [[? ?]|]; [reflexivity|].
  unfold gsl_spline_alloc, gsl_interp_accel_alloc.
  unfold bind at 1 2. unfold ret at 1 2. cbn beta iota.
  erewrite bind_done; [reflexivity|].
  apply gsl_spline_init_at.
  - apply vec_at_app, log10x_at.
  - exists ByCalloc. apply lookup_fresh.
  - exact Hlen.
  - now rewrite length_fmap.
Qed.
End Log10Spline.

(** C2: on n >= 2 abscissas the builder exits fatally exactly when some
    sampled value f(10^log10x[i]) is non-positive, and then reports an
    offending x = 10^log10x[i] with y = f(x); when every sampled value is
    positive it returns with log10y[i] = log10(f(10^log10x[i])) for every
    i, in a fresh array. *)
Theorem create_log10_spline_outcome {P} (func : R -> P -> R) (params : P)
    (h : heap) (log10x : ptr) (xs : list R) (n : Z) :
  2 <= n -> vec_at h log10x xs -> length xs = Z.to_nat n ->
  ((exists r, create_log10_spline func log10x n params h = Exited r)
   <-> (exists i lx, xs !! i = Some lx /\ (sampled func params lx <= 0)%R))
  /\ (forall r, create_log10_spline func log10x n params h = Exited r ->
      exists i lx,
        xs !! i = Some lx /\ (sampled func params lx <= 0)%R
        /\ r = NonPositiveSample (pow10 lx) (func (pow10 lx) params))
  /\ ((forall i lx, xs !! i = Some lx -> (0 < sampled func params lx)%R) ->
      exists spline acc,
        create_log10_spline func log10x n params h
        = Done (length h, spline, acc)
            (h ++ [vector_block
                     ((fun lx => log10 (func (pow10 lx) params)) <$> xs)])).
Proof.
  intros Hn Hv Hlen.
  rewrite (create_log10_spline_run func params h log10x xs Hv n ltac:(lia) Hlen).
  destruct (list_find (fun lx => (sampled func params lx <= 0)%R) xs)
    as [[i lx]|] eqn:Hfind.
  - apply list_find_Some in Hfind as (Hi & Hle & _).
    split; [|split].
    + split; [intros _; now exists i, lx|intros _; eauto].
    + intros r [= <-]. now exists i, lx.
    + intros Hpos. specialize (Hpos i lx Hi). lra.
  - apply list_find_None in Hfind.
    split; [|split].
    + split; [intros [r Hr]; discriminate|].
      intros (i & lx & Hi & Hle). exfalso.
      eapply (proj1 (Forall_lookup _ _) Hfind); eassumption.
    + intros r Hr. discriminate.
    + intros _. eexists _, _. reflexivity.
Qed.

Lemma create_log10_spline_outcome_witness :
  exists spline acc,
    create_log10_spline (fun x (_ : unit) => (x + 1)%R) 0%nat 2 tt sample_heap
    = Done (length sample_heap, spline, acc)
        (sample_heap ++ [vector_block
                           ((fun lx => log10 (pow10 lx + 1)) <$> [1; 0]%R)]).
Proof.
  assert (Hpos : forall x, (0 < pow10 x + 1)%R).
  { intros x. unfold pow10, Rpower. pose proof (exp_pos (x * ln 10)). lra. }
  apply (create_log10_spline_outcome (fun x (_ : unit) => (x + 1)%R) tt
           sample_heap 0%nat [1; 0]%R 2).
  - lia.
  - apply sample_vec_at. reflexivity.
  - reflexivity.
  - intros i lx _. apply Hpos.
Defined.

(** ** Nested arrays in memory *)

Lemma mat_at_app h ext a rows : mat_at h a rows -> mat_at (h ++ ext) a rows.
Proof.
  intros (k & ps & Ha & Hrows). exists k, ps. split.
  - now apply lookup_app_l_Some.
  - eapply Forall2_impl; [exact Hrows|]. intros p row. apply vec_at_app.
Qed.

Lemma grid_lookup_top h rows :
  grid h rows !! length h = Some (rows_block (seq (S (length h)) (length rows))).
Proof. unfold grid. now rewrite list_lookup_middle. Qed.

Lemma grid_lookup_row h rows i r :
  rows !! i = Some r ->
  grid h rows !! (S (length h) + i)%nat = Some (Block ByNewArray true r).
Proof.
  intros Hr. unfold grid.
  rewrite lookup_app_r by lia.
  replace (S (length h) + i - length h)%nat with (S i) by lia.
  simpl. now rewrite list_lookup_fmap, Hr.
Qed.

Lemma grid_insert_row h rows i r r' :
  rows !! i = Some r ->
  <[(S (length h) + i)%nat := Block ByNewArray true r']> (grid h rows)
  = grid h (<[i := r']> rows).
Proof.
  intros Hr. unfold grid.
  rewrite insert_app_r_alt by lia.
  replace (S (length h) + i - length h)%nat with (S i) by lia.
  simpl. now rewrite list_fmap_insert, length_insert.
Qed.

Lemma store2_grid h rows (i j : nat) r v :
  rows !! i = Some r -> (j < length r)%nat ->
  store2 (length h) (Z.of_nat i) (Z.of_nat j) v (grid h rows)
  = Done tt (grid h (<[i := <[j := v]> r]> rows)).
Proof.
  intros Hr Hj. unfold store2.
  erewrite bind_done; cycle 1.
  { eapply load_ptr_at; [apply grid_lookup_top|lia|].
    rewrite Nat2Z.id. apply lookup_seq. split; [reflexivity|].
    now apply lookup_lt_Some in Hr. }
  rewrite (store_at _ _ ByNewArray r)
    by (try (now apply grid_lookup_row); rewrite ?Nat2Z.id; lia).
  rewrite Nat2Z.id. f_equal. now apply grid_insert_row with (r := r).
Qed.

Lemma mat_at_grid h T : mat_at (grid h (doubles T)) (length h) T.
Proof.
  exists ByNewArray, (seq (S (length h)) (length (doubles T))). split.
  - apply grid_lookup_top.
  - apply Forall2_same_length_lookup. split.
    + unfold doubles. now rewrite length_seq, length_fmap.
    + intros i p row Hp Hrow. apply lookup_seq in Hp as [-> _].
      exists ByNewArray. apply grid_lookup_row.
      unfold doubles. now rewrite list_lookup_fmap, Hrow.
Qed.

Lemma alloc_rows_loop h (N : nat) (l : Z) :
  0 <= l ->
  for_from N 0 (fun i => xi <- new_array l ;; store (length h) i (Vptr xi))
    (h ++ [Block ByNewArray true (replicate N Vundef)])
  = Done tt (grid h (replicate N (replicate (Z.to_nat l) Vundef))).
Proof.
  intros Hl.
  set (row := Block ByNewArray true (replicate (Z.to_nat l) Vundef)).
  destruct (for_from_inv N
              (fun j hh =>
                 hh = h ++ Block ByNewArray true
                             ((Vptr <$> seq (S (length h)) j)
                              ++ replicate (N - j) Vundef)
                        :: replicate j row)
              (fun i => xi <- new_array l ;; store (length h) i (Vptr xi))
              0 (h ++ [Block ByNewArray true (replicate N Vundef)]))
    as (h' & Hrun & ->).
  - intros j hh Hj ->. eexists. split.
    + unfold new_array. destruct (Z.ltb_spec l 0); [lia|].
      unfold bind, alloc. fold row.
      rewrite <- app_assoc. simpl.
      erewrite store_at; [reflexivity| apply list_lookup_middle; reflexivity | lia |].
      rewrite length_app, length_fmap, length_seq, length_replicate. lia.
    + rewrite seq_S, fmap_app, <- app_assoc.
      rewrite insert_app_r_alt by lia. rewrite Nat.sub_diag. simpl.
      do 2 f_equal.
      * f_equal.
        replace (Z.to_nat (0 + Z.of_nat j)) with j by lia.
        rewrite insert_app_r_alt by (rewrite length_fmap, length_seq; lia).
        rewrite length_fmap, length_seq, Nat.sub_diag.
        replace (N - j)%nat with (S (N - S j)) by lia. simpl.
        do 3 f_equal. rewrite length_app. simpl. rewrite length_replicate. lia.
      * symmetry. apply replicate_cons_app.
  - simpl. now rewrite Nat.sub_0_r.
  - rewrite Hrun. unfold grid, rows_block.
    rewrite Nat.sub_diag, app_nil_r, length_replicate, fmap_replicate.
    reflexivity.
Qed.

Lemma zero_fill_loop h (N : nat) (l : Z) :
  0 <= l ->
  for_from N 0
    (fun i => for_loop l (fun j => store2 (length h) i j (Vdouble 0)))
    (grid h (replicate N (replicate (Z.to_nat l) Vundef)))
  = Done tt (grid h (replicate N (replicate (Z.to_nat l) (Vdouble 0)))).
Proof.
  intros Hl. set (L := Z.to_nat l).
  set (rows_after := fun i : nat =>
         replicate i (replicate L (Vdouble 0))
         ++ replicate (N - i) (replicate L Vundef)).
  destruct (for_from_inv N (fun i hh => hh = grid h (rows_after i))
              (fun i => for_loop l (fun j => store2 (length h) i j (Vdouble 0)))
              0 (grid h (replicate N (replicate L Vundef))))
    as (h' & Hrun & ->).
  - intros i hh Hi ->. unfold for_loop. fold L.
    set (row_after := fun j : nat =>
           replicate j (Vdouble 0) ++ replicate (L - j) Vundef).
    destruct (for_from_inv L
                (fun j hh =>
                   hh = grid h (replicate i (replicate L (Vdouble 0))
                                ++ row_after j
                                :: replicate (N - S i) (replicate L Vundef)))
                (fun j => store2 (length h) (0 + Z.of_nat i) j (Vdouble 0))
                0 (grid h (rows_after i)))
      as (h' & Hrun & ->).
    + intros j hh Hj ->. eexists. split.
      * rewrite !Z.add_0_l. apply store2_grid with (r := row_after j).
        -- apply list_lookup_middle. now rewrite length_replicate.
        -- unfold row_after. rewrite length_app, !length_replicate. lia.
      * f_equal.
        rewrite insert_app_r_alt by (rewrite length_replicate; lia).
        rewrite length_replicate, Nat.sub_diag. simpl. do 2 f_equal.
        unfold row_after.
        rewrite insert_app_r_alt by (rewrite length_replicate; lia).
        rewrite length_replicate, Nat.sub_diag.
        replace (L - j)%nat with (S (L - S j)) by lia. simpl.
        rewrite cons_middle, app_assoc, <- replicate_cons_app. reflexivity.
    + unfold rows_after, row_after. simpl. rewrite Nat.sub_0_r.
      replace (N - i)%nat with (S (N - S i)) by lia. reflexivity.
    + eexists. split; [exact Hrun|]. f_equal.
      unfold rows_after, row_after.
      rewrite Nat.sub_diag, app_nil_r, replicate_S_end, <- app_assoc.
      reflexivity.
  - unfold rows_after. simpl. now rewrite Nat.sub_0_r.
  - rewrite Hrun. unfold rows_after.
    now rewrite Nat.sub_diag, app_nil_r.
Qed.

Lemma two_dimensional_array_run h (n l : Z) :
  0 <= n -> 0 <= l ->
  two_dimensional_array n l h
  = Done (length h)
      (grid h (replicate (Z.to_nat n) (replicate (Z.to_nat l) (Vdouble 0)))).
Proof.
  intros Hn Hl. unfold two_dimensional_array, new_array.
  destruct (Z.ltb_spec n 0); [lia|].
  unfold bind at 1. unfold alloc at 1. unfold for_loop at 1 2.
  rewrite (bind_done _ _ _ _ _ (alloc_rows_loop h (Z.to_nat n) l Hl)).
  rewrite (bind_done _ _ _ _ _ (zero_fill_loop h (Z.to_nat n) l Hl)).
  reflexivity.
Qed.

(** ** Tensor transformation *)

Lemma square_lookup nd A i j :
  square nd A -> (i < nd)%nat -> (j < nd)%nat ->
  exists row, A !! i = Some row /\ length row = nd
              /\ row !! j = Some (entry A i j).
Proof.
  intros [Hlen Hall] Hi Hj.
  destruct (lookup_lt_is_Some_2 A i ltac:(lia)) as [row Hrow].
  pose proof (proj1 (Forall_lookup _ _) Hall i row Hrow) as Hlr.
  simpl in Hlr.
  destruct (lookup_lt_is_Some_2 row j ltac:(lia)) as [d Hd].
  exists row. unfold entry. now rewrite Hrow, Hd.
Qed.

Lemma entry_insert T n m x Tn n' m' :
  T !! n = Some Tn -> (m < length Tn)%nat ->
  entry (<[n := <[m := x]> Tn]> T) n' m'
  = if decide (n' = n /\ m' = m) then x else entry T n' m'.
Proof.
  intros Hn Hm. unfold entry.
  destruct (decide (n' = n)) as [->|Hne].
  - rewrite list_lookup_insert_eq by (now apply lookup_lt_Some in Hn).
    rewrite Hn. destruct (decide (m' = m)) as [->|Hme].
    + rewrite list_lookup_insert_eq by assumption.
      destruct (decide (n = n /\ m = m)) as [_|[]]; tauto.
    + rewrite list_lookup_insert_ne by congruence.
      destruct (decide (n = n /\ m' = m)) as [[_ ?]|_]; [contradiction|reflexivity].
  - rewrite list_lookup_insert_ne by congruence.
    destruct (decide (n' = n /\ m' = m)) as [[? _]|_]; [contradiction|reflexivity].
Qed.

Lemma square_insert nd T n m x Tn :
  square nd T -> T !! n = Some Tn -> square nd (<[n := <[m := x]> Tn]> T).
Proof.
  intros [Hlen Hall] Hn. split.
  - now rewrite length_insert.
  - apply Forall_insert; [assumption|].
    rewrite length_insert. exact (proj1 (Forall_lookup _ _) Hall n Tn Hn).
Qed.

Lemma doubles_insert T n m x Tn :
  <[n := <[m := Vdouble x]> (Vdouble <$> Tn)]> (doubles T)
  = doubles (<[n := <[m := x]> Tn]> T).
Proof. unfold doubles. now rewrite !list_fmap_insert. Qed.

(** A loop that only reads memory and adds one term per iteration. *)
Lemma fold_sum h (nd : nat) (body : Z -> R -> M R) (f : nat -> R) :
  (forall i acc, (i < nd)%nat ->
     body (Z.of_nat i) acc h = Done (acc + f i)%R h) ->
  fold_from nd 0 body 0%R h = Done (Rsum nd f) h.
Proof.
  intros Hbody.
  destruct (fold_from_inv nd (fun j acc h' => h' = h /\ acc = Rsum j f)
              body 0 0%R h) as (acc & h' & Hrun & -> & ->).
  - intros j acc h' Hj [-> ->]. exists (Rsum (S j) f), h.
    rewrite Z.add_0_l. split; [now apply Hbody|]. split; reflexivity.
  - split; reflexivity.
  - exact Hrun.
Qed.

Section Tensor.
Context (h : heap) (a sigma : ptr) (A S : list (list R)) (nd : nat).
Hypothesis a_at : mat_at h a A.
Hypothesis sigma_at : mat_at h sigma S.
Hypothesis A_square : square nd A.
Hypothesis S_square : square nd S.

(** The two summations for the entry (n, m), run on a memory that
    extends [h]. *)
Lemma entry_sums ext (n m : nat) :
  (n < nd)%nat -> (m < nd)%nat ->
  fold_from nd 0 (fun j x =>
      y <- fold_from nd 0 (fun i y =>
             ami <- load2_double a (Z.of_nat m) i ;;
             sji <- load2_double sigma j i ;;
             ret (y + ami * sji)%R) 0%R ;;
      anj <- load2_double a (Z.of_nat n) j ;;
      ret (x + anj * y)%R) 0%R (h ++ ext)
  = Done (transformed A S nd n m) (h ++ ext).
Proof.
  intros Hn Hm. unfold transformed. apply fold_sum. intros j x Hj.
  erewrite bind_done; cycle 1.
  { apply fold_sum with
      (f := fun i => (entry A m i * entry S j i)%R).
    intros i y Hi.
    destruct (square_lookup nd A m i A_square Hm Hi) as (ra & Hra & _ & Hai).
    destruct (square_lookup nd S j i S_square Hj Hi) as (rs & Hrs & _ & Hsi).
    erewrite bind_done
      by (eapply load2_double_at;
          [apply mat_at_app, a_at|lia|lia|
           rewrite Nat2Z.id; exact Hra|rewrite Nat2Z.id; exact Hai]).
    erewrite bind_done
      by (eapply load2_double_at;
          [apply mat_at_app, sigma_at|lia|lia|
           rewrite Nat2Z.id; exact Hrs|rewrite Nat2Z.id; exact Hsi]).
    reflexivity. }
  destruct (square_lookup nd A n j A_square Hn Hj) as (ra & Hra & _ & Haj).
  erewrite bind_done
    by (eapply load2_double_at;
        [apply mat_at_app, a_at|lia|lia|
         rewrite Nat2Z.id; exact Hra|rewrite Nat2Z.id; exact Haj]).
  reflexivity.
Qed.

(** The loops over (n, m) fill the result array entry by entry. *)
Lemma tensor_loops (ndim : Z) (T0 : list (list R)) :
  Z.to_nat ndim = nd -> 0 <= ndim -> square nd T0 ->
  exists T,
    for_loop ndim (fun n =>
      for_loop ndim (fun m =>
        x <- for_fold ndim (fun j x =>
               y <- for_fold ndim (fun i y =>
                      ami <- load2_double a m i ;;
                      sji <- load2_double sigma j i ;;
                      ret (y + ami * sji)%R) 0%R ;;
               anj <- load2_double a n j ;;
               ret (x + anj * y)%R) 0%R ;;
        store2 (length h) n m (Vdouble x))) (grid h (doubles T0))
    = Done tt (grid h (doubles T))
    /\ square nd T
    /\ (forall n m, (n < nd)%nat -> (m < nd)%nat ->
          entry T n m = transformed A S nd n m).
Proof.
  intros Hnd Hpos HT0. unfold for_loop, for_fold. rewrite Hnd.
  match goal with
  | |- exists T, for_from nd 0 ?body ?h0 = _ /\ _ =>
      destruct (for_from_inv nd
        (fun n hh => exists T,
           hh = grid h (doubles T) /\ square nd T
           /\ (forall n' m, (n' < n)%nat -> (m < nd)%nat ->
                 entry T n' m = transformed A S nd n' m))
        body 0 h0) as (h' & Hrun & T & -> & HT & Hent)
  end.
  - intros n hh Hn (T & -> & HT & Hent). rewrite Z.add_0_l.
    match goal with
    | |- exists h', for_from nd 0 ?body ?h0 = _ /\ _ =>
        destruct (for_from_inv nd
          (fun m hh => exists T,
             hh = grid h (doubles T) /\ square nd T
             /\ (forall n' m', (n' < n)%nat -> (m' < nd)%nat ->
                   entry T n' m' = transformed A S nd n' m')
             /\ (forall m', (m' < m)%nat ->
                   entry T n m' = transformed A S nd n m'))
          body 0 h0) as (h' & Hrun & T' & -> & HT' & Hent' & Hrow)
    end.
    + intros m hh Hm (T1 & -> & HT1 & Hent1 & Hrow1). rewrite Z.add_0_l.
      destruct (lookup_lt_is_Some_2 T1 n ltac:(destruct HT1; lia)) as [Tn HTn].
      assert (Hlen : length Tn = nd)
        by exact (proj1 (Forall_lookup _ _) (proj2 HT1) n Tn HTn).
      exists (grid h (doubles (<[n := <[m := transformed A S nd n m]> Tn]> T1))).
      split.
      * unfold grid at 1.
        rewrite (bind_done _ _ _ _ _ (entry_sums _ n m Hn Hm)).
        fold (grid h (doubles T1)).
        rewrite (store2_grid h (doubles T1) n m (Vdouble <$> Tn)).
        -- now rewrite doubles_insert.
        -- unfold doubles. now rewrite list_lookup_fmap, HTn.
        -- rewrite length_fmap. lia.
      * eexists. split; [reflexivity|].
        split; [now apply square_insert|]. split.
        -- intros n' m' Hn' Hm'.
           rewrite (entry_insert T1 n m _ Tn) by (assumption || lia).
           destruct (decide (n' = n /\ m' = m)) as [[? _]|_]; [lia|].
           now apply Hent1.
        -- intros m' Hm'.
           rewrite (entry_insert T1 n m _ Tn) by (assumption || lia).
           destruct (decide (n = n /\ m' = m)) as [[_ ->]|Hne]; [reflexivity|].
           apply Hrow1. destruct (decide (m' = m)); [tauto|lia].
    + exists T. split; [reflexivity|]. split; [assumption|].
      split; [assumption|]. intros m' Hm'. lia.
    + exists (grid h (doubles T')). split; [exact Hrun|].
      exists T'. split; [reflexivity|]. split; [assumption|].
      intros n' m' Hn' Hm'. destruct (decide (n' = n)) as [->|Hne].
      * now apply Hrow.
      * apply Hent'; lia.
  - exists T0. split; [reflexivity|]. split; [assumption|].
    intros n' m' Hn'. lia.
  - exists T. split; [exact Hrun|]. split; assumption.
Qed.
End Tensor.

Lemma Rsum_ext n f g :
  (forall j, (j < n)%nat -> f j = g j) -> Rsum n f = Rsum n g.
Proof.
  induction n as [|n IH]; intros Hfg; [reflexivity|].
  simpl. rewrite IH by (intros j Hj; apply Hfg; lia).
  now rewrite (Hfg n) by lia.
Qed.

Lemma Rsum_delta_zero n k f :
  (n <= k)%nat ->
  Rsum n (fun j => (if Nat.eqb k j then 1 else 0) * f j)%R = 0%R.
Proof.
  induction n as [|n IH]; intros Hk; [reflexivity|].
  simpl. rewrite IH by lia.
  destruct (Nat.eqb_spec k n); [lia|]. ring.
Qed.

Lemma Rsum_delta n k f :
  (k < n)%nat ->
  Rsum n (fun j => (if Nat.eqb k j then 1 else 0) * f j)%R = f k.
Proof.
  induction n as [|n IH]; intros Hk; [lia|].
  simpl. destruct (Nat.eqb_spec k n) as [->|Hne].
  - rewrite Rsum_delta_zero by lia. ring.
  - rewrite IH by lia. ring.
Qed.

Lemma entry_identity nd i j :
  (i < nd)%nat -> (j < nd)%nat ->
  entry (identity_matrix nd) i j = if Nat.eqb i j then 1%R else 0%R.
Proof.
  intros Hi Hj. unfold entry, identity_matrix.
  rewrite list_lookup_fmap, lookup_seq_lt by assumption. simpl.
  now rewrite list_lookup_fmap, lookup_seq_lt by assumption.
Qed.

Lemma transformed_identity S nd n m :
  (n < nd)%nat -> (m < nd)%nat ->
  transformed (identity_matrix nd) S nd n m = entry S n m.
Proof.
  intros Hn Hm. unfold transformed.
  rewrite (Rsum_ext nd _
             (fun j => ((if Nat.eqb n j then 1 else 0) * entry S j m)%R)).
  - now apply (Rsum_delta nd n (fun j => entry S j m)).
  - intros j Hj. rewrite entry_identity by assumption. f_equal.
    rewrite (Rsum_ext nd _
               (fun i => ((if Nat.eqb m i then 1 else 0) * entry S j i)%R)).
    + now apply (Rsum_delta nd m (fun i => entry S j i)).
    + intros i Hi. now rewrite entry_identity by assumption.
Qed.

Lemma square_ext nd T S :
  square nd T -> square nd S ->
  (forall n m, (n < nd)%nat -> (m < nd)%nat -> entry T n m = entry S n m) ->
  T = S.
Proof.
  intros [HlT HT] [HlS HS] Hent.
  apply (list_eq_same_length _ _ nd); [assumption..|].
  intros n rt rs Hn Hrt Hrs.
  pose proof (proj1 (Forall_lookup _ _) HT n rt Hrt) as Hlt. simpl in Hlt.
  pose proof (proj1 (Forall_lookup _ _) HS n rs Hrs) as Hls. simpl in Hls.
  apply (list_eq_same_length _ _ nd); [assumption..|].
  intros m x y Hm Hx Hy. specialize (Hent n m Hn Hm).
  unfold entry in Hent. now rewrite Hrt, Hrs, Hx, Hy in Hent.
Qed.

(** C4: for ndim >= 1 and ndim x ndim inputs, the result is a fresh
    ndim x ndim array whose entry (n, m) is
    sum_j a[n][j] * (sum_i a[m][i] * sigma[j][i]); the inputs are left as
    they were, and with the identity for [a] the result equals sigma. *)
Theorem tensor_transformation_entries (h : heap) (a sigma : ptr) (ndim : Z)
    (A S : list (list R)) :
  1 <= ndim -> mat_at h a A -> mat_at h sigma S ->
  square (Z.to_nat ndim) A -> square (Z.to_nat ndim) S ->
  exists T,
    tensor_transformation a sigma ndim h = Done (length h) (grid h (doubles T))
    /\ mat_at (grid h (doubles T)) (length h) T
    /\ mat_at (grid h (doubles T)) a A
    /\ mat_at (grid h (doubles T)) sigma S
    /\ square (Z.to_nat ndim) T
    /\ (forall n m, (n < Z.to_nat ndim)%nat -> (m < Z.to_nat ndim)%nat ->
          entry T n m = transformed A S (Z.to_nat ndim) n m)
    /\ (A = identity_matrix (Z.to_nat ndim) -> T = S).
Proof.
  intros Hnd Ha Hs HA HS. set (nd := Z.to_nat ndim) in *.
  set (Z0 := replicate nd (replicate nd 0%R)).
  assert (HZ0 : square nd Z0).
  { split; [apply length_replicate|].
    apply Forall_replicate. apply length_replicate. }
  destruct (tensor_loops h a sigma A S nd Ha Hs HA HS ndim Z0 eq_refl
              ltac:(lia) HZ0) as (T & Hrun & HT & Hent).
  exists T. split.
  - unfold tensor_transformation.
    rewrite (bind_done _ _ _ _ _
               (two_dimensional_array_run h ndim ndim ltac:(lia) ltac:(lia))).
    fold nd.
    replace (replicate nd (replicate nd (Vdouble 0))) with (doubles Z0)
      by (unfold doubles, Z0; now rewrite !fmap_replicate).
    now rewrite (bind_done _ _ _ _ _ Hrun).
  - split; [apply mat_at_grid|].
    split; [now apply mat_at_app|]. split; [now apply mat_at_app|].
    split; [exact HT|]. split; [exact Hent|].
    intros ->. apply (square_ext nd); [assumption..|].
    intros n m Hn Hm. rewrite Hent by assumption.
    now apply transformed_identity.
Qed.

Lemma tensor_transformation_entries_witness :
  exists T,
    tensor_transformation 4%nat 4%nat 2 sample_heap
      = Done (length sample_heap) (grid sample_heap (doubles T))
    /\ (forall n m, (n < 2)%nat -> (m < 2)%nat ->
          entry T n m
          = transformed [[1; 2]; [3; 4]]%R [[1; 2]; [3; 4]]%R 2 n m).
Proof.
  destruct (tensor_transformation_entries sample_heap 4%nat 4%nat 2
              [[1; 2]; [3; 4]]%R [[1; 2]; [3; 4]]%R ltac:(lia)
              sample_mat_at sample_mat_at)
    as (T & Hrun & _ & _ & _ & _ & Hent & _).
  - split; [reflexivity|]. repeat constructor.
  - split; [reflexivity|]. repeat constructor.
  - exists T. split; assumption.
Defined.

(** ** Allocation and release of nested arrays *)

(** C1 fails on the code: the innermost loop of [four_dimensional_array]
    runs to p, not to m.  For 1 x 1 x 2 x 1 the second of the two
    third-level pointers is never set, and for 1 x 1 x 1 x 2 the loop
    writes past the one-element array of third-level pointers. *)
Theorem four_dimensional_array_leaf_loop_bound :
  (exists x h,
     four_dimensional_array 1 1 2 1 [] = Done x h
     /\ load_ptr x 0 h = Done 1%nat h
     /\ load_ptr 1%nat 0 h = Done 2%nat h
     /\ load_ptr 2%nat 1 h = Undefined Uninitialized
     /\ ~ every_leaf_allocated h x 1 1 2 1)
  /\ four_dimensional_array 1 1 1 2 [] = Undefined OutOfBounds.
Proof.
  split; [|reflexivity].
  eexists _, _. split; [reflexivity|].
  split; [reflexivity|]. split; [reflexivity|]. split; [reflexivity|].
  intros Hall.
  destruct (Hall 0 0 1) as (xi & xij & leaf & cells & H1 & H2 & H3 & _);
    try lia.
  injection H1 as <-. injection H2 as <-. discriminate H3.
Qed.

(** The sibling [three_dimensional_array] bounds its inner loop by the
    dimension of the array it fills, and sets every pointer. *)
Example three_dimensional_array_1_2_1 :
  three_dimensional_array 1 2 1 []
  = Done 0%nat
      [ rows_block [1%nat];
        rows_block [2; 3]%nat;
        Block ByNewArray true [Vundef];
        Block ByNewArray true [Vundef] ].
Proof. reflexivity. Qed.

(** C9 fails on the code: every deallocator ends with [delete x] on a
    block obtained from [new T[n]], a release that does not match the
    allocation. *)
Theorem deallocation_mismatched_release :
  (x <- two_dimensional_array 1 1 ;;
   deallocate_two_dimensional_array x 1 1) []
  = Undefined MismatchedRelease
  /\ (x <- three_dimensional_array 1 1 1 ;;
      deallocate_three_dimensional_array x 1 1 1) []
     = Undefined MismatchedRelease
  /\ (x <- four_dimensional_array 1 1 1 1 ;;
      deallocate_four_dimensional_array x 1 1 1 1) []
     = Undefined MismatchedRelease.
Proof. repeat split; reflexivity. Qed.

Lemma release_rows_loop h (N : nat) (cells : list value) :
  for_from N 0 (fun i => xi <- load_ptr (length h) i ;; delete_array xi)
    (grid h (replicate N cells))
  = Done tt (h ++ rows_block (seq (S (length h)) N)
               :: replicate N (Block ByNewArray false cells)).
Proof.
  set (top := rows_block (seq (S (length h)) N)).
  set (dead := Block ByNewArray false cells).
  set (live := Block ByNewArray true cells).
  destruct (for_from_inv N
              (fun j hh =>
                 hh = h ++ top :: (replicate j dead ++ replicate (N - j) live))
              (fun i => xi <- load_ptr (length h) i ;; delete_array xi)
              0 (grid h (replicate N cells))) as (h' & Hrun & ->).
  - intros j hh Hj ->.
    exists (h ++ top :: (replicate (S j) dead ++ replicate (N - S j) live)).
    split; [|reflexivity].
    erewrite bind_done; cycle 1.
    { eapply load_ptr_at; [apply list_lookup_middle; reflexivity|lia|].
      rewrite Z.add_0_l, Nat2Z.id. now apply lookup_seq_lt. }
    unfold delete_array, release.
    set (hh := h ++ _).
    assert (Hrow : hh !! (S (length h) + j)%nat = Some live).
    { subst hh. rewrite lookup_app_r by lia.
      replace (S (length h) + j - length h)%nat with (S j) by lia.
      simpl. rewrite lookup_app_r by (rewrite length_replicate; lia).
      rewrite length_replicate, Nat.sub_diag.
      now replace (N - j)%nat with (S (N - S j)) by lia. }
    rewrite Hrow. cbn [live blk_live blk_kind blk_cells negb eq_kind].
    f_equal. subst hh.
    rewrite insert_app_r_alt by lia.
    replace (S (length h) + j - length h)%nat with (S j) by lia.
    change (<[S j := ?b]> (top :: ?l)) with (top :: <[j := b]> l).
    do 2 f_equal.
    rewrite insert_app_r_alt by (rewrite length_replicate; lia).
    rewrite length_replicate, Nat.sub_diag.
    replace (N - j)%nat with (S (N - S j)) by lia.
    change (<[0%nat := ?b]> (replicate (S ?k) live)) with (b :: replicate k live).
    fold dead. rewrite cons_middle, app_assoc, <- replicate_cons_app.
    reflexivity.
  - unfold grid. rewrite length_replicate, fmap_replicate, Nat.sub_0_r.
    reflexivity.
  - rewrite Hrun. now rewrite Nat.sub_diag, app_nil_r.
Qed.

(** Whatever the dimensions and the memory before, the 2-D round trip
    releases every row with the matching [delete[]] and then stops at the
    mismatched [delete] of the row-pointer block. *)
Lemma two_dimensional_round_trip h (n l : Z) :
  0 <= n -> 0 <= l ->
  (x <- two_dimensional_array n l ;;
   deallocate_two_dimensional_array x n l) h
  = Undefined MismatchedRelease.
Proof.
  intros Hn Hl.
  rewrite (bind_done _ _ _ _ _ (two_dimensional_array_run h n l Hn Hl)).
  unfold deallocate_two_dimensional_array, for_loop.
  rewrite (bind_done _ _ _ _ _ (release_rows_loop h (Z.to_nat n) _)).
  unfold delete, release. rewrite list_lookup_middle by reflexivity.
  reflexivity.
Qed.


(** * Further properties of the routines *)

(** ** Index-to-value maps: range, order and spacing *)

Lemma IZR_pred_pos (n : Z) : 2 <= n -> (0 < IZR (n - 1))%R.
Proof. intros Hn. apply IZR_lt. lia. Qed.

Lemma linear_grid_facts (i j n : Z) (xmin xmax : R) :
  2 <= n -> (xmin <= xmax)%R -> 0 <= i -> i <= j -> j <= n - 1 ->
  (xmin <= double_linear_index i n xmin xmax)%R
  /\ (double_linear_index i n xmin xmax
       <= double_linear_index j n xmin xmax)%R
  /\ (double_linear_index j n xmin xmax <= xmax)%R
  /\ (double_linear_index (i + 1) n xmin xmax
       - double_linear_index i n xmin xmax
       = (xmax - xmin) / IZR (n - 1))%R.
Proof.
  intros Hn Hx Hi Hij Hj. pose proof (IZR_pred_pos n Hn) as Hd.
  assert (Hinv : (0 < / IZR (n - 1))%R) by now apply Rinv_0_lt_compat.
  assert (H0i : (0 <= IZR i)%R) by now apply IZR_le.
  assert (Hi_j : (IZR i <= IZR j)%R) by now apply IZR_le.
  assert (Hj_n : (IZR j <= IZR (n - 1))%R) by now apply IZR_le.
  unfold double_linear_index, Rdiv.
  set (d := (xmax - xmin)%R). assert (Hd0 : (0 <= d)%R) by (unfold d; lra).
  set (q := (/ IZR (n - 1))%R) in *.
  assert (Hone : (IZR (n - 1) * q = 1)%R) by (unfold q; field; lra).
  repeat split.
  - assert (0 <= d * IZR i * q)%R; [|lra].
    apply Rmult_le_pos; [apply Rmult_le_pos|]; lra.
  - assert (d * IZR i * q <= d * IZR j * q)%R; [|lra].
    apply Rmult_le_compat_r; [lra|]. apply Rmult_le_compat_l; lra.
  - assert (d * IZR j * q <= d * IZR (n - 1) * q)%R as Hle.
    { apply Rmult_le_compat_r; [lra|]. apply Rmult_le_compat_l; lra. }
    replace (d * IZR (n - 1) * q)%R with (d * (IZR (n - 1) * q))%R in Hle by ring.
    rewrite Hone in Hle. unfold d in *. lra.
  - rewrite plus_IZR. ring.
Qed.

(** X1: on a grid with xmin <= xmax the linear map is non-decreasing in
    the index and stays between xmin and xmax, and neighbouring indices
    are (xmax - xmin)/(n - 1) apart. *)
Theorem double_linear_index_grid (i j n : Z) (xmin xmax : R) :
  2 <= n -> (xmin <= xmax)%R -> 0 <= i -> i <= j -> j <= n - 1 ->
  (xmin <= double_linear_index i n xmin xmax)%R
  /\ (double_linear_index i n xmin xmax
       <= double_linear_index j n xmin xmax)%R
  /\ (double_linear_index j n xmin xmax <= xmax)%R
  /\ (double_linear_index (i + 1) n xmin xmax
       - double_linear_index i n xmin xmax
       = (xmax - xmin) / IZR (n - 1))%R.
Proof. apply linear_grid_facts. Qed.

Lemma double_linear_index_grid_witness :
  (1 <= double_linear_index 1 5 1 100)%R
  /\ (double_linear_index 1 5 1 100 <= double_linear_index 3 5 1 100)%R
  /\ (double_linear_index 3 5 1 100 <= 100)%R
  /\ (double_linear_index (1 + 1) 5 1 100 - double_linear_index 1 5 1 100
       = (100 - 1) / IZR (5 - 1))%R.
Proof. apply (double_linear_index_grid 1 3 5 1 100); (lia || lra). Defined.

Lemma pow10_pos (x : R) : (0 < pow10 x)%R.
Proof. unfold pow10, Rpower. apply exp_pos. Qed.







(** ** Maximum of three and the comparison callback *)

Lemma GSL_MAX_DBL_spec (a b : R) :
  (a <= GSL_MAX_DBL a b)%R /\ (b <= GSL_MAX_DBL a b)%R
  /\ (GSL_MAX_DBL a b = a \/ GSL_MAX_DBL a b = b).
Proof. unfold GSL_MAX_DBL. destruct (Rgt_dec a b); repeat split; auto; lra. Qed.

(** X3: [max_three] returns one of its arguments, is at least each of
    them, is below every common upper bound, and does not depend on the
    order of the arguments. *)
Theorem max_three_least_upper_bound (a b c : R) :
  (a <= max_three a b c)%R /\ (b <= max_three a b c)%R
  /\ (c <= max_three a b c)%R
  /\ (max_three a b c = a \/ max_three a b c = b \/ max_three a b c = c)
  /\ (forall u, (a <= u)%R -> (b <= u)%R -> (c <= u)%R ->
        (max_three a b c <= u)%R)
  /\ max_three b a c = max_three a b c
  /\ max_three a c b = max_three a b c.
Proof.
  unfold max_three.
  pose proof (GSL_MAX_DBL_spec a b) as (? & ? & Hab).
  pose proof (GSL_MAX_DBL_spec b a) as (? & ? & Hba).
  pose proof (GSL_MAX_DBL_spec a c) as (? & ? & Hac).
  pose proof (GSL_MAX_DBL_spec (GSL_MAX_DBL a b) c) as (? & ? & Habc).
  pose proof (GSL_MAX_DBL_spec (GSL_MAX_DBL b a) c) as (? & ? & Hbac).
  pose proof (GSL_MAX_DBL_spec (GSL_MAX_DBL a c) b) as (? & ? & Hacb).
  repeat split; try lra;
    intros; destruct Hab, Hba, Hac, Habc, Hbac, Hacb; lra.
Qed.

(** X4: [compare_doubles] is a three-way comparison: it returns -1, 0 or
    1 according to whether the first double is below, equal to or above
    the second, swapping the operands negates the result, and memory is
    left as it was. *)
Theorem compare_doubles_three_way (h : heap) (a b : ptr) (x y : R)
    (xs ys : list R) :
  vec_at h a (x :: xs) -> vec_at h b (y :: ys) ->
  exists c,
    compare_doubles a b h = Done c h
    /\ compare_doubles b a h = Done (- c) h
    /\ (c = -1 <-> (x < y)%R) /\ (c = 0 <-> x = y) /\ (c = 1 <-> (x > y)%R).
Proof.
  intros Ha Hb. unfold compare_doubles.
  repeat (erewrite bind_done
            by (eapply load_double_at; [eassumption | lia | reflexivity])).
  eexists. split; [reflexivity|]. unfold ret.
  destruct (Rgt_dec x y), (Rlt_dec x y), (Rgt_dec y x), (Rlt_dec y x);
    try lra; (split; [reflexivity|]);
    repeat split; intros; try lia; try lra.
Qed.

Lemma compare_doubles_three_way_witness :
  exists c,
    compare_doubles 0%nat 1%nat sample_heap = Done c sample_heap
    /\ compare_doubles 1%nat 0%nat sample_heap = Done (- c) sample_heap
    /\ (c = -1 <-> (1 < 0)%R) /\ (c = 0 <-> 1%R = 0%R) /\ (c = 1 <-> (1 > 0)%R).
Proof.
  apply (compare_doubles_three_way sample_heap 0%nat 1%nat 1 0 [0%R] [1%R]).
  - apply sample_vec_at. reflexivity.
  - apply sample_vec_at. reflexivity.
Defined.

(** ** Dot product and magnitude *)

Lemma component_lookup (xs : list R) (i : nat) :
  (i < length xs)%nat -> xs !! i = Some (component xs i).
Proof.
  intros Hi. unfold component.
  now destruct (lookup_lt_is_Some_2 xs i Hi) as [d ->].
Qed.

Lemma fold_from_split {A} (k r : nat) :
  forall (body : Z -> A -> M A) (i0 : Z) a h,
    fold_from (k + r) i0 body a h
    = match fold_from k i0 body a h with
      | Done a' h' => fold_from r (i0 + Z.of_nat k) body a' h'
      | Undefined f => Undefined f
      | Exited e => Exited e
      end.
Proof.
  induction k as [|k IH]; intros body i0 a h.
  - simpl. now rewrite Z.add_0_r.
  - cbn [Nat.add fold_from]. unfold bind.
    destruct (body i0 a h) as [a1 h1| |]; [|reflexivity..].
    rewrite IH. now replace (i0 + 1 + Z.of_nat k) with (i0 + Z.of_nat (S k)) by lia.
Qed.

Lemma vector_dot_product_run h x y xs ys (n : Z) :
  vec_at h x xs -> vec_at h y ys ->
  (Z.to_nat n <= length xs)%nat -> (Z.to_nat n <= length ys)%nat ->
  vector_dot_product x y n h = Done (dot_of (Z.to_nat n) xs ys) h.
Proof.
  intros Hx Hy Hlx Hly. unfold vector_dot_product, for_fold, dot_of.
  apply fold_sum. intros i acc Hi.
  erewrite bind_done
    by (eapply load_double_at;
        [exact Hx|lia|rewrite Nat2Z.id; apply component_lookup; lia]).
  erewrite bind_done
    by (eapply load_double_at;
        [exact Hy|lia|rewrite Nat2Z.id; apply component_lookup; lia]).
  reflexivity.
Qed.

Lemma load_double_out_of_bounds h p xs (i : Z) :
  vec_at h p xs -> (length xs <= Z.to_nat i)%nat ->
  load_double p i h = Undefined OutOfBounds.
Proof.
  intros [k Hp] Hi. unfold load_double, load, bind, deref. rewrite Hp. simpl.
  destruct (Z.ltb_spec i 0); [reflexivity|].
  rewrite lookup_ge_None_2 by (rewrite length_fmap; lia). reflexivity.
Qed.

Lemma dot_of_comm n xs ys : dot_of n xs ys = dot_of n ys xs.
Proof. unfold dot_of. apply Rsum_ext. intros j _. ring. Qed.

Lemma Rsum_nonneg n f : (forall j, (j < n)%nat -> (0 <= f j)%R) -> (0 <= Rsum n f)%R.
Proof.
  induction n as [|n IH]; intros Hf; simpl; [lra|].
  pose proof (IH (fun j Hj => Hf j ltac:(lia))). pose proof (Hf n ltac:(lia)). lra.
Qed.

Lemma Rsum_zero_iff n f :
  (forall j, (j < n)%nat -> (0 <= f j)%R) ->
  Rsum n f = 0%R <-> (forall j, (j < n)%nat -> f j = 0%R).
Proof.
  induction n as [|n IH]; intros Hf; simpl.
  - split; [intros _ j Hj; lia|reflexivity].
  - pose proof (Rsum_nonneg n f (fun j Hj => Hf j ltac:(lia))) as Hs.
    pose proof (Hf n ltac:(lia)) as Hn.
    specialize (IH (fun j Hj => Hf j ltac:(lia))). split.
    + intros Hsum j Hj. destruct (Nat.eq_dec j n) as [->|Hne]; [lra|].
      apply IH; [lra|lia].
    + intros Hall. rewrite (proj2 IH) by (intros j Hj; apply Hall; lia).
      rewrite Hall by lia. ring.
Qed.

(** X5: on operands with at least n elements [vector_dot_product]
    returns the sum of x[i]*y[i] over i < n without changing memory, and
    the result does not depend on the order of the operands; with n <= 0
    it returns 0 without reading either operand; with n beyond the
    shorter operand it reads out of bounds. *)
Theorem vector_dot_product_value (h : heap) (x y : ptr) (xs ys : list R)
    (n : Z) :
  vec_at h x xs -> vec_at h y ys ->
  (Z.to_nat n <= length xs)%nat -> (Z.to_nat n <= length ys)%nat ->
  vector_dot_product x y n h = Done (dot_of (Z.to_nat n) xs ys) h
  /\ vector_dot_product y x n h = vector_dot_product x y n h
  /\ (forall p q k, k <= 0 -> vector_dot_product p q k h = Done 0%R h)
  /\ (forall k, (Nat.min (length xs) (length ys) < Z.to_nat k)%nat ->
        vector_dot_product x y k h = Undefined OutOfBounds).
Proof.
  intros Hx Hy Hlx Hly. split; [|split; [|split]].
  - now apply vector_dot_product_run.
  - rewrite (vector_dot_product_run h y x ys xs n) by assumption.
    rewrite (vector_dot_product_run h x y xs ys n) by assumption.
    now rewrite dot_of_comm.
  - intros p q k Hk. unfold vector_dot_product, for_fold.
    now replace (Z.to_nat k) with 0%nat by lia.
  - intros k Hk. unfold vector_dot_product, for_fold.
    set (m := Nat.min (length xs) (length ys)) in *.
    replace (Z.to_nat k) with (m + S (Z.to_nat k - S m))%nat by lia.
    rewrite fold_from_split.
    rewrite (fold_sum h m _ (fun i => component xs i * component ys i)%R).
    + cbn [fold_from]. rewrite Z.add_0_l. unfold bind at 1 2.
      destruct (Nat.le_gt_cases (length xs) (length ys)) as [Hle|Hgt].
      * rewrite (load_double_out_of_bounds h x xs) by (assumption || lia).
        reflexivity.
      * rewrite (load_double_at h x xs _ (component xs m))
          by (try assumption; try lia; rewrite Nat2Z.id; apply component_lookup; lia).
        unfold bind at 1.
        rewrite (load_double_out_of_bounds h y ys) by (assumption || lia).
        reflexivity.
    + intros i acc Hi.
      erewrite bind_done
        by (eapply load_double_at;
            [exact Hx|lia|rewrite Nat2Z.id; apply component_lookup; lia]).
      erewrite bind_done
        by (eapply load_double_at;
            [exact Hy|lia|rewrite Nat2Z.id; apply component_lookup; lia]).
      reflexivity.
Qed.

Lemma vector_dot_product_value_witness :
  vector_dot_product 2%nat 3%nat 3 sample_heap
    = Done (dot_of (Z.to_nat 3) [1; 0; 0]%R [0; 1; 0]%R) sample_heap
  /\ vector_dot_product 3%nat 2%nat 3 sample_heap
     = vector_dot_product 2%nat 3%nat 3 sample_heap.
Proof.
  destruct (vector_dot_product_value sample_heap 2%nat 3%nat
              [1; 0; 0]%R [0; 1; 0]%R 3) as (H1 & H2 & _).
  - apply sample_vec_at. reflexivity.
  - apply sample_vec_at. reflexivity.
  - simpl. lia.
  - simpl. lia.
  - split; assumption.
Defined.

(** X6: on an array with at least n elements [vector_magnitude] is the
    square root of [vector_dot_product] of the array with itself; it is
    non-negative, its square is that dot product, and it is zero exactly
    when the first n components are all zero. *)
Theorem vector_magnitude_value (h : heap) (x : ptr) (xs : list R) (n : Z) :
  vec_at h x xs -> (Z.to_nat n <= length xs)%nat ->
  exists d m,
    vector_dot_product x x n h = Done d h
    /\ vector_magnitude x n h = Done m h
    /\ m = sqrt d /\ (0 <= m)%R /\ (m * m = d)%R
    /\ (m = 0%R <-> forall i, (i < Z.to_nat n)%nat -> component xs i = 0%R).
Proof.
  intros Hx Hlx. set (d := dot_of (Z.to_nat n) xs xs).
  assert (Hsq : forall j, (j < Z.to_nat n)%nat ->
                 (0 <= component xs j * component xs j)%R)
    by (intros j _; apply Rle_0_sqr).
  assert (Hd : (0 <= d)%R) by now apply Rsum_nonneg.
  exists d, (sqrt d).
  split; [now apply vector_dot_product_run|]. split.
  - unfold vector_magnitude.
    erewrite bind_done; [reflexivity|].
    fold (vector_dot_product x x n). now apply vector_dot_product_run.
  - split; [reflexivity|]. split; [apply sqrt_pos|].
    split; [now apply sqrt_sqrt|]. split.
    + intros Hm. apply sqrt_eq_0 in Hm; [|exact Hd].
      intros i Hi.
      pose proof (proj1 (Rsum_zero_iff _ _ Hsq) Hm i Hi) as Hi0.
      simpl in Hi0. now apply Rsqr_0_uniq.
    + intros Hall. unfold d, dot_of.
      rewrite (proj2 (Rsum_zero_iff _ _ Hsq)).
      * apply sqrt_0.
      * intros j Hj. rewrite Hall by assumption. ring.
Qed.

Lemma vector_magnitude_value_witness :
  exists d m,
    vector_dot_product 2%nat 2%nat 3 sample_heap = Done d sample_heap
    /\ vector_magnitude 2%nat 3 sample_heap = Done m sample_heap
    /\ m = sqrt d.
Proof.
  destruct (vector_magnitude_value sample_heap 2%nat [1; 0; 0]%R 3)
    as (d & m & H1 & H2 & H3 & _).
  - apply sample_vec_at. reflexivity.
  - simpl. lia.
  - exists d, m. repeat split; assumption.
Defined.

(** ** Cross product: how it composes with the dot product *)

Lemma dot_of_3 x0 x1 x2 xs y0 y1 y2 ys :
  dot_of 3 (x0 :: x1 :: x2 :: xs) (y0 :: y1 :: y2 :: ys)
  = (x0 * y0 + x1 * y1 + x2 * y2)%R.
Proof. unfold dot_of, component. simpl. ring. Qed.

Lemma fresh_vec_at h cs : vec_at (h ++ [vector_block cs]) (length h) cs.
Proof. exists ByCalloc. apply lookup_fresh. Qed.

Lemma cross_product_3d_block h x y ndim x0 x1 x2 xs y0 y1 y2 ys :
  ndim <> 2 ->
  vec_at h x (x0 :: x1 :: x2 :: xs) -> vec_at h y (y0 :: y1 :: y2 :: ys) ->
  vector_cross_product x y ndim h
  = Done (length h)
      (h ++ [vector_block [x1 * y2 - x2 * y1; x2 * y0 - x0 * y2;
                           x0 * y1 - x1 * y0]%R]).
Proof. apply cross_product_3d. Qed.

Lemma cross_product_2d_block h x y x0 x1 xs y0 y1 ys :
  vec_at h x (x0 :: x1 :: xs) -> vec_at h y (y0 :: y1 :: ys) ->
  vector_cross_product x y 2 h
  = Done (length h) (h ++ [vector_block [x0 * y1 - x1 * y0]%R]).
Proof. apply cross_product_2d. Qed.

(** X7: in the three-component branch the result is orthogonal to both
    operands: its dot product with x and with y is 0. *)
Theorem cross_product_orthogonal (h : heap) (x y : ptr) (ndim : Z)
    (x0 x1 x2 y0 y1 y2 : R) (xs ys : list R) :
  ndim <> 2 ->
  vec_at h x (x0 :: x1 :: x2 :: xs) -> vec_at h y (y0 :: y1 :: y2 :: ys) ->
  exists h',
    (cp <- vector_cross_product x y ndim ;; vector_dot_product x cp 3) h
      = Done 0%R h'
    /\ (cp <- vector_cross_product x y ndim ;; vector_dot_product y cp 3) h
      = Done 0%R h'
    /\ (cp <- vector_cross_product x y ndim ;; ret cp) h = Done (length h) h'.
Proof.
  intros Hnd Hx Hy. eexists.
  rewrite !(bind_done _ _ _ _ _
              (cross_product_3d_block _ _ _ _ _ _ _ _ _ _ _ _ Hnd Hx Hy)).
  split; [|split; [|reflexivity]].
  - rewrite (vector_dot_product_run _ _ _ _ _ 3
               (vec_at_app _ _ _ _ Hx) (fresh_vec_at h _))
      by (simpl; lia).
    f_equal. change (Z.to_nat 3) with 3%nat. rewrite dot_of_3. ring.
  - rewrite (vector_dot_product_run _ _ _ _ _ 3
               (vec_at_app _ _ _ _ Hy) (fresh_vec_at h _))
      by (simpl; lia).
    f_equal. change (Z.to_nat 3) with 3%nat. rewrite dot_of_3. ring.
Qed.

Lemma cross_product_orthogonal_witness :
  exists h',
    (cp <- vector_cross_product 2%nat 3%nat 3 ;; vector_dot_product 2%nat cp 3)
      sample_heap = Done 0%R h'
    /\ (cp <- vector_cross_product 2%nat 3%nat 3 ;; vector_dot_product 3%nat cp 3)
      sample_heap = Done 0%R h'
    /\ (cp <- vector_cross_product 2%nat 3%nat 3 ;; ret cp) sample_heap
       = Done (length sample_heap) h'.
Proof.
  apply (cross_product_orthogonal sample_heap 2%nat 3%nat 3 1 0 0 0 1 0 [] []).
  - lia.
  - apply sample_vec_at. reflexivity.
  - apply sample_vec_at. reflexivity.
Defined.

(** X8: the cross product of a vector with itself is zero, in both
    branches, also when both operands are the same array. *)
Theorem cross_product_self (h : heap) (x : ptr) (ndim : Z) (xs : list R) :
  vec_at h x xs -> (cross_dim ndim <= length xs)%nat ->
  vector_cross_product x x ndim h
  = Done (length h) (h ++ [vector_block (replicate (cross_size ndim) 0%R)]).
Proof.
  intros Hx. unfold cross_dim, cross_size.
  destruct (Z.eqb_spec ndim 2) as [->|Hnd]; intros Hlx.
  - destruct xs as [|x0 [|x1 xs]]; simpl in Hlx; try lia.
    rewrite (cross_product_2d _ _ _ _ _ _ _ _ _ Hx Hx).
    unfold vector_block. simpl.
    now replace (x0 * x1 - x1 * x0)%R with 0%R by ring.
  - destruct xs as [|x0 [|x1 [|x2 xs]]]; simpl in Hlx; try lia.
    rewrite (cross_product_3d _ _ _ _ _ _ _ _ _ _ _ _ Hnd Hx Hx).
    unfold vector_block. simpl.
    replace (x1 * x2 - x2 * x1)%R with 0%R by ring.
    replace (x2 * x0 - x0 * x2)%R with 0%R by ring.
    now replace (x0 * x1 - x1 * x0)%R with 0%R by ring.
Qed.

Lemma cross_product_self_witness :
  vector_cross_product 2%nat 2%nat 3 sample_heap
  = Done (length sample_heap)
      (sample_heap ++ [vector_block (replicate (cross_size 3) 0%R)]).
Proof.
  apply (cross_product_self sample_heap 2%nat 3 [1; 0; 0]%R).
  - apply sample_vec_at. reflexivity.
  - unfold cross_dim; simpl; lia.
Defined.

(** X9: Lagrange's identity.  In the three-component branch the dot
    product of the result with itself is |x|^2 |y|^2 - (x.y)^2, and in the
    two-component branch the square of the single component is the same
    expression over two components; so the magnitude of the result never
    exceeds the product of the magnitudes of the operands. *)
Theorem cross_product_lagrange (h : heap) (x y u v : ptr) (ndim : Z)
    (x0 x1 x2 y0 y1 y2 u0 u1 v0 v1 : R) (xs ys us vs : list R) :
  ndim <> 2 ->
  vec_at h x (x0 :: x1 :: x2 :: xs) -> vec_at h y (y0 :: y1 :: y2 :: ys) ->
  vec_at h u (u0 :: u1 :: us) -> vec_at h v (v0 :: v1 :: vs) ->
  let X := (x0 :: x1 :: x2 :: xs) in
  let Y := (y0 :: y1 :: y2 :: ys) in
  let U := (u0 :: u1 :: us) in
  let V := (v0 :: v1 :: vs) in
  (exists h',
     (cp <- vector_cross_product x y ndim ;; vector_dot_product cp cp 3) h
     = Done (dot_of 3 X X * dot_of 3 Y Y - dot_of 3 X Y * dot_of 3 X Y)%R h'
     /\ (cp <- vector_cross_product x y ndim ;; vector_magnitude cp 3) h
        = Done (sqrt (dot_of 3 X X * dot_of 3 Y Y
                      - dot_of 3 X Y * dot_of 3 X Y)) h'
     /\ (sqrt (dot_of 3 X X * dot_of 3 Y Y - dot_of 3 X Y * dot_of 3 X Y)
         <= sqrt (dot_of 3 X X) * sqrt (dot_of 3 Y Y))%R)
  /\ (exists h',
        (cp <- vector_cross_product u v 2 ;; vector_dot_product cp cp 1) h
        = Done (dot_of 2 U U * dot_of 2 V V - dot_of 2 U V * dot_of 2 U V)%R h').
Proof.
  intros Hnd Hx Hy Hu Hv X Y U V. split.
  - eexists.
    rewrite !(bind_done _ _ _ _ _
                (cross_product_3d_block _ _ _ _ _ _ _ _ _ _ _ _ Hnd Hx Hy)).
    set (cs := [x1 * y2 - x2 * y1; x2 * y0 - x0 * y2; x0 * y1 - x1 * y0]%R).
    assert (Hval : dot_of 3 cs cs
                   = (dot_of 3 X X * dot_of 3 Y Y - dot_of 3 X Y * dot_of 3 X Y)%R).
    { unfold cs, X, Y. rewrite !dot_of_3. ring. }
    split; [|split].
    + rewrite (vector_dot_product_run _ _ _ _ _ 3
                 (fresh_vec_at h cs) (fresh_vec_at h cs)) by (simpl; lia).
      change (Z.to_nat 3) with 3%nat. now rewrite Hval.
    + unfold vector_magnitude.
      erewrite bind_done; cycle 1.
      { fold (vector_dot_product (length h) (length h) 3).
        apply (vector_dot_product_run _ _ _ _ _ 3
                 (fresh_vec_at h cs) (fresh_vec_at h cs)); simpl; lia. }
      change (Z.to_nat 3) with 3%nat. now rewrite Hval.
    + rewrite <- sqrt_mult
        by (apply Rsum_nonneg; intros j _; apply Rle_0_sqr).
      apply sqrt_le_1_alt.
      pose proof (Rle_0_sqr (dot_of 3 X Y)) as Hsq. unfold Rsqr in Hsq. lra.
  - eexists.
    rewrite (bind_done _ _ _ _ _
               (cross_product_2d_block _ _ _ _ _ _ _ _ _ Hu Hv)).
    rewrite (vector_dot_product_run _ _ _ _ _ 1
               (fresh_vec_at h _) (fresh_vec_at h _)) by (simpl; lia).
    f_equal. unfold U, V, dot_of, component. simpl. ring.
Qed.

Lemma cross_product_lagrange_witness :
  exists h',
    (cp <- vector_cross_product 2%nat 3%nat 3 ;; vector_dot_product cp cp 3)
      sample_heap
    = Done (dot_of 3 [1; 0; 0] [1; 0; 0] * dot_of 3 [0; 1; 0] [0; 1; 0]
            - dot_of 3 [1; 0; 0] [0; 1; 0] * dot_of 3 [1; 0; 0] [0; 1; 0])%R h'.
Proof.
  destruct (cross_product_lagrange sample_heap 2%nat 3%nat 0%nat 1%nat 3
              1 0 0 0 1 0 1 0 0 1 [] [] [] [])
    as [(h' & H1 & _) _].
  - lia.
  - apply sample_vec_at. reflexivity.
  - apply sample_vec_at. reflexivity.
  - apply sample_vec_at. reflexivity.
  - apply sample_vec_at. reflexivity.
  - exists h'. exact H1.
Defined.

(** ** Determinant: dimension argument, transposition, transformation *)

Lemma matrix_determinant_2x2 h a a00 a01 a10 a11 :
  mat_at h a [[a00; a01]; [a10; a11]] ->
  matrix_determinant a 2 h = Done (a00 * a11 - a10 * a01)%R h.
Proof.
  intros Ha. unfold matrix_determinant. simpl.
  repeat (erewrite bind_done
            by (eapply (load2_double_at _ _ _ _ _ _ _ Ha);
                [lia|lia|reflexivity|reflexivity])).
  reflexivity.
Qed.

Lemma matrix_determinant_3x3 h a ndim a00 a01 a02 a10 a11 a12 a20 a21 a22 :
  ndim <> 2 ->
  mat_at h a [[a00; a01; a02]; [a10; a11; a12]; [a20; a21; a22]] ->
  matrix_determinant a ndim h
  = Done (a00 * (a11 * a22 - a12 * a21) - a01 * (a10 * a22 - a12 * a20)
          + a02 * (a10 * a21 - a11 * a20))%R h.
Proof.
  intros Hnd Ha. unfold matrix_determinant.
  destruct (Z.eqb_spec ndim 2) as [|_]; [contradiction|].
  repeat (erewrite bind_done
            by (eapply (load2_double_at _ _ _ _ _ _ _ Ha);
                [lia|lia|reflexivity|reflexivity])).
  unfold ret. f_equal. ring.
Qed.

Lemma load_ptr_out_of_bounds h p k ps (i : Z) :
  h !! p = Some (Block k true (Vptr <$> ps)) -> (length ps <= Z.to_nat i)%nat ->
  load_ptr p i h = Undefined OutOfBounds.
Proof.
  intros Hp Hi. unfold load_ptr, load, bind, deref. rewrite Hp. simpl.
  destruct (Z.ltb_spec i 0); [reflexivity|].
  rewrite lookup_ge_None_2 by (rewrite length_fmap; lia). reflexivity.
Qed.

(** X10: any dimension argument other than 2 selects the three-component
    code, so a 2x2 matrix or a pair of 2-vectors passed with such an
    argument is read out of bounds (by the determinant, by both cross
    products). *)
Theorem dimension_fall_through (h : heap) (a x y r : ptr) (ndim : Z)
    (a00 a01 a10 a11 x0 x1 y0 y1 : R) :
  ndim <> 2 ->
  mat_at h a [[a00; a01]; [a10; a11]] ->
  vec_at h x [x0; x1] -> vec_at h y [y0; y1] ->
  matrix_determinant a ndim h = Undefined OutOfBounds
  /\ vector_cross_product x y ndim h = Undefined OutOfBounds
  /\ vector_cross_product_in_place r x y ndim h = Undefined OutOfBounds.
Proof.
  intros Hnd Ha Hx Hy. split; [|split].
  - unfold matrix_determinant.
    destruct (Z.eqb_spec ndim 2) as [|_]; [contradiction|].
    repeat (erewrite bind_done
              by (eapply (load2_double_at _ _ _ _ _ _ _ Ha);
                  [lia|lia|reflexivity|reflexivity])).
    destruct Ha as (k & ps & Hp & Hrows).
    pose proof (Forall2_length _ _ _ Hrows) as Hlen. simpl in Hlen.
    unfold load2_double at 1. unfold bind at 1 2.
    rewrite (load_ptr_out_of_bounds h a k ps 2 Hp) by (simpl; lia).
    reflexivity.
  - unfold vector_cross_product.
    destruct (Z.eqb_spec ndim 2) as [|_]; [contradiction|].
    unfold calloc. simpl. unfold bind at 1 2. unfold alloc, ret at 1. simpl.
    unfold bind at 1. simpl. unfold ret at 1.
    erewrite bind_done
      by (eapply load_double_at;
          [apply vec_at_app; exact Hx | lia | reflexivity]).
    unfold bind at 1.
    rewrite (load_double_out_of_bounds _ y [y0; y1] 2)
      by (try (apply vec_at_app; exact Hy); simpl; lia).
    reflexivity.
  - unfold vector_cross_product_in_place.
    destruct (Z.eqb_spec ndim 2) as [|_]; [contradiction|].
    erewrite bind_done
      by (eapply load_double_at; [exact Hx | lia | reflexivity]).
    unfold bind at 1.
    rewrite (load_double_out_of_bounds _ y [y0; y1] 2)
      by (try exact Hy; simpl; lia).
    reflexivity.
Qed.

Lemma dimension_fall_through_witness :
  matrix_determinant 4%nat 3 sample_heap = Undefined OutOfBounds
  /\ vector_cross_product 0%nat 1%nat 3 sample_heap = Undefined OutOfBounds
  /\ vector_cross_product_in_place 11%nat 0%nat 1%nat 3 sample_heap
     = Undefined OutOfBounds.
Proof.
  apply (dimension_fall_through sample_heap 4%nat 0%nat 1%nat 11%nat 3
           1 2 3 4 1 0 0 1).
  - lia.
  - exact sample_mat_at.
  - apply sample_vec_at. reflexivity.
  - apply sample_vec_at. reflexivity.
Defined.

(** X11: the determinant of a matrix and of its transpose agree, for 2x2
    matrices with ndim = 2 and for 3x3 matrices with any other ndim. *)
Theorem matrix_determinant_transpose (h : heap) (a2 b2 a3 b3 : ptr) (ndim : Z)
    (c00 c01 c10 c11 : R) (a00 a01 a02 a10 a11 a12 a20 a21 a22 : R) :
  ndim <> 2 ->
  mat_at h a2 [[c00; c01]; [c10; c11]] ->
  mat_at h b2 [[c00; c10]; [c01; c11]] ->
  mat_at h a3 [[a00; a01; a02]; [a10; a11; a12]; [a20; a21; a22]] ->
  mat_at h b3 [[a00; a10; a20]; [a01; a11; a21]; [a02; a12; a22]] ->
  matrix_determinant b2 2 h = matrix_determinant a2 2 h
  /\ matrix_determinant b3 ndim h = matrix_determinant a3 ndim h.
Proof.
  intros Hnd Ha2 Hb2 Ha3 Hb3. split.
  - rewrite (matrix_determinant_2x2 _ _ _ _ _ _ Ha2).
    rewrite (matrix_determinant_2x2 _ _ _ _ _ _ Hb2). f_equal. ring.
  - rewrite (matrix_determinant_3x3 _ _ _ _ _ _ _ _ _ _ _ _ Hnd Ha3).
    rewrite (matrix_determinant_3x3 _ _ _ _ _ _ _ _ _ _ _ _ Hnd Hb3).
    f_equal. ring.
Qed.

Lemma matrix_heap_mat_at (a : ptr) (ps : list ptr) (rows : list (list R)) :
  matrix_heap !! a = Some (rows_block ps) ->
  Forall2 (fun p row => matrix_heap !! p = Some (row_block row)) ps rows ->
  mat_at matrix_heap a rows.
Proof.
  intros Ha Hrows. exists ByNewArray, ps. split; [exact Ha|].
  eapply Forall2_impl; [exact Hrows|]. intros p row Hp. now exists ByNewArray.
Qed.

Lemma matrix_determinant_transpose_witness :
  matrix_determinant 3%nat 2 matrix_heap = matrix_determinant 0%nat 2 matrix_heap
  /\ matrix_determinant 10%nat 3 matrix_heap
     = matrix_determinant 6%nat 3 matrix_heap.
Proof.
  apply (matrix_determinant_transpose matrix_heap 0%nat 3%nat 6%nat 10%nat 3
           1 2 3 4 2 0 1 1 3 2 1 1 1).
  - lia.
  - apply (matrix_heap_mat_at 0%nat [1; 2]%nat); [reflexivity|].
    repeat constructor.
  - apply (matrix_heap_mat_at 3%nat [4; 5]%nat); [reflexivity|].
    repeat constructor.
  - apply (matrix_heap_mat_at 6%nat [7; 8; 9]%nat); [reflexivity|].
    repeat constructor.
  - apply (matrix_heap_mat_at 10%nat [11; 12; 13]%nat); [reflexivity|].
    repeat constructor.
Defined.

(** ** Tensor transformation: determinant and symmetry *)

Lemma tensor_transformation_run h a sigma (ndim : Z) A S :
  1 <= ndim -> mat_at h a A -> mat_at h sigma S ->
  square (Z.to_nat ndim) A -> square (Z.to_nat ndim) S ->
  exists T,
    tensor_transformation a sigma ndim h = Done (length h) (grid h (doubles T))
    /\ square (Z.to_nat ndim) T
    /\ (forall n m, (n < Z.to_nat ndim)%nat -> (m < Z.to_nat ndim)%nat ->
          entry T n m = transformed A S (Z.to_nat ndim) n m).
Proof.
  intros Hnd Ha Hs HA HS. set (nd := Z.to_nat ndim) in *.
  set (Z0 := replicate nd (replicate nd 0%R)).
  assert (HZ0 : square nd Z0).
  { split; [apply length_replicate|].
    apply Forall_replicate. apply length_replicate. }
  destruct (tensor_loops h a sigma A S nd Ha Hs HA HS ndim Z0 eq_refl
              ltac:(lia) HZ0) as (T & Hrun & HT & Hent).
  exists T. split; [|split; assumption].
  unfold tensor_transformation.
  rewrite (bind_done _ _ _ _ _
             (two_dimensional_array_run h ndim ndim ltac:(lia) ltac:(lia))).
  fold nd.
  replace (replicate nd (replicate nd (Vdouble 0))) with (doubles Z0)
    by (unfold doubles, Z0; now rewrite !fmap_replicate).
  now rewrite (bind_done _ _ _ _ _ Hrun).
Qed.

Lemma square_2 T :
  square 2 T ->
  T = [[entry T 0 0; entry T 0 1]; [entry T 1 0; entry T 1 1]].
Proof.
  intros [Hlen Hall].
  destruct T as [|[|t00 [|t01 [|]]] [|[|t10 [|t11 [|]]] [|]]];
    try discriminate Hlen;
    repeat match goal with
           | H : Forall _ (_ :: _) |- _ => inversion H; clear H; subst
           end; simpl in *; try discriminate; reflexivity.
Qed.

Lemma square_3 T :
  square 3 T ->
  T = [[entry T 0 0; entry T 0 1; entry T 0 2];
       [entry T 1 0; entry T 1 1; entry T 1 2];
       [entry T 2 0; entry T 2 1; entry T 2 2]].
Proof.
  intros [Hlen Hall].
  destruct T as [|[|? [|? [|? [|]]]] [|[|? [|? [|? [|]]]] [|[|? [|? [|? [|]]]] [|]]]];
    try discriminate Hlen;
    repeat match goal with
           | H : Forall _ (_ :: _) |- _ => inversion H; clear H; subst
           end; simpl in *; try discriminate; reflexivity.
Qed.

(** X12: the determinant of the transformed tensor is det(a)^2 det(sigma),
    for 2x2 inputs with ndim = 2 and for 3x3 inputs with ndim = 3. *)
Theorem tensor_transformation_determinant (h : heap) (a2 s2 a3 s3 : ptr)
    (b00 b01 b10 b11 t00 t01 t10 t11 : R)
    (a00 a01 a02 a10 a11 a12 a20 a21 a22 : R)
    (s00 s01 s02 s10 s11 s12 s20 s21 s22 : R) :
  mat_at h a2 [[b00; b01]; [b10; b11]] ->
  mat_at h s2 [[t00; t01]; [t10; t11]] ->
  mat_at h a3 [[a00; a01; a02]; [a10; a11; a12]; [a20; a21; a22]] ->
  mat_at h s3 [[s00; s01; s02]; [s10; s11; s12]; [s20; s21; s22]] ->
  let det2 := (b00 * b11 - b10 * b01)%R in
  let det3 := (a00 * (a11 * a22 - a12 * a21) - a01 * (a10 * a22 - a12 * a20)
               + a02 * (a10 * a21 - a11 * a20))%R in
  (exists h',
     (r <- tensor_transformation a2 s2 2 ;; matrix_determinant r 2) h
     = Done (det2 * det2 * (t00 * t11 - t10 * t01))%R h')
  /\ (exists h',
        (r <- tensor_transformation a3 s3 3 ;; matrix_determinant r 3) h
        = Done (det3 * det3
                * (s00 * (s11 * s22 - s12 * s21) - s01 * (s10 * s22 - s12 * s20)
                   + s02 * (s10 * s21 - s11 * s20)))%R h').
Proof.
  intros Ha2 Hs2 Ha3 Hs3 det2 det3. split.
  - destruct (tensor_transformation_run h a2 s2 2 _ _ ltac:(lia) Ha2 Hs2)
      as (T & Hrun & HT & Hent).
    { split; [reflexivity|]. repeat constructor. }
    { split; [reflexivity|]. repeat constructor. }
    change (Z.to_nat 2) with 2%nat in *.
    exists (grid h (doubles T)). rewrite (bind_done _ _ _ _ _ Hrun).
    assert (Hm : mat_at (grid h (doubles T)) (length h)
                   [[entry T 0 0; entry T 0 1]; [entry T 1 0; entry T 1 1]])
      by (rewrite <- (square_2 T HT); apply mat_at_grid).
    rewrite (matrix_determinant_2x2 _ _ _ _ _ _ Hm). f_equal.
    rewrite !Hent by lia. unfold det2, transformed, entry. simpl. ring.
  - destruct (tensor_transformation_run h a3 s3 3 _ _ ltac:(lia) Ha3 Hs3)
      as (T & Hrun & HT & Hent).
    { split; [reflexivity|]. repeat constructor. }
    { split; [reflexivity|]. repeat constructor. }
    change (Z.to_nat 3) with 3%nat in *.
    exists (grid h (doubles T)). rewrite (bind_done _ _ _ _ _ Hrun).
    assert (Hm : mat_at (grid h (doubles T)) (length h)
                   [[entry T 0 0; entry T 0 1; entry T 0 2];
                    [entry T 1 0; entry T 1 1; entry T 1 2];
                    [entry T 2 0; entry T 2 1; entry T 2 2]])
      by (rewrite <- (square_3 T HT); apply mat_at_grid).
    rewrite (matrix_determinant_3x3 _ _ 3 _ _ _ _ _ _ _ _ _ ltac:(lia) Hm).
    f_equal.
    rewrite !Hent by lia. unfold det3, transformed, entry. simpl. ring.
Qed.

Lemma matrix_heap_2x2 : mat_at matrix_heap 0%nat [[1; 2]; [3; 4]]%R.
Proof.
  apply (matrix_heap_mat_at 0%nat [1; 2]%nat); [reflexivity|]. repeat constructor.
Qed.

Lemma matrix_heap_symmetric : mat_at matrix_heap 14%nat [[1; 2]; [2; 3]]%R.
Proof.
  apply (matrix_heap_mat_at 14%nat [15; 16]%nat); [reflexivity|]. repeat constructor.
Qed.

Lemma matrix_heap_3x3 :
  mat_at matrix_heap 6%nat [[2; 0; 1]; [1; 3; 2]; [1; 1; 1]]%R.
Proof.
  apply (matrix_heap_mat_at 6%nat [7; 8; 9]%nat); [reflexivity|]. repeat constructor.
Qed.

Lemma matrix_heap_3x3_transposed :
  mat_at matrix_heap 10%nat [[2; 1; 1]; [0; 3; 1]; [1; 2; 1]]%R.
Proof.
  apply (matrix_heap_mat_at 10%nat [11; 12; 13]%nat); [reflexivity|].
  repeat constructor.
Qed.

Lemma tensor_transformation_determinant_witness :
  exists h',
    (r <- tensor_transformation 0%nat 14%nat 2 ;; matrix_determinant r 2)
      matrix_heap
    = Done ((1 * 4 - 3 * 2) * (1 * 4 - 3 * 2) * (1 * 3 - 2 * 2))%R h'.
Proof.
  destruct (tensor_transformation_determinant matrix_heap
              0%nat 14%nat 6%nat 10%nat 1 2 3 4 1 2 2 3
              2 0 1 1 3 2 1 1 1 2 1 1 0 3 1 1 2 1
              matrix_heap_2x2 matrix_heap_symmetric
              matrix_heap_3x3 matrix_heap_3x3_transposed) as [H2 _].
  exact H2.
Defined.

Lemma Rsum_scal n c f : (c * Rsum n f)%R = Rsum n (fun j => c * f j)%R.
Proof. induction n as [|n IH]; simpl; [ring|]. rewrite <- IH. ring. Qed.

Lemma Rsum_plus n f g :
  Rsum n (fun j => f j + g j)%R = (Rsum n f + Rsum n g)%R.
Proof. induction n as [|n IH]; simpl; [ring|]. rewrite IH. ring. Qed.

Lemma Rsum_const_zero n : Rsum n (fun _ => 0%R) = 0%R.
Proof. induction n as [|n IH]; simpl; [reflexivity|]. rewrite IH. ring. Qed.

Lemma Rsum_swap n m (f : nat -> nat -> R) :
  Rsum n (fun j => Rsum m (fun i => f j i))
  = Rsum m (fun i => Rsum n (fun j => f j i)).
Proof.
  induction n as [|n IH]; simpl.
  - now rewrite Rsum_const_zero.
  - now rewrite IH, Rsum_plus.
Qed.

Lemma transformed_symmetric A S nd n m :
  symmetric nd S -> transformed A S nd n m = transformed A S nd m n.
Proof.
  intros Hsym. unfold transformed.
  rewrite (Rsum_ext nd _
             (fun j => Rsum nd (fun i => entry A n j * entry A m i * entry S j i)%R)).
  2:{ intros j _. rewrite Rsum_scal. apply Rsum_ext. intros i _. ring. }
  rewrite Rsum_swap. apply Rsum_ext. intros i Hi.
  rewrite Rsum_scal. apply Rsum_ext. intros j Hj.
  rewrite (Hsym j i Hj Hi). ring.
Qed.

(** X13: a symmetric sigma gives a symmetric result, whatever the
    transformation a. *)
Theorem tensor_transformation_symmetric (h : heap) (a sigma : ptr) (ndim : Z)
    (A S : list (list R)) :
  1 <= ndim -> mat_at h a A -> mat_at h sigma S ->
  square (Z.to_nat ndim) A -> square (Z.to_nat ndim) S ->
  symmetric (Z.to_nat ndim) S ->
  exists T,
    tensor_transformation a sigma ndim h = Done (length h) (grid h (doubles T))
    /\ mat_at (grid h (doubles T)) (length h) T
    /\ symmetric (Z.to_nat ndim) T.
Proof.
  intros Hnd Ha Hs HA HS Hsym.
  destruct (tensor_transformation_run h a sigma ndim A S Hnd Ha Hs HA HS)
    as (T & Hrun & HT & Hent).
  exists T. split; [exact Hrun|]. split; [apply mat_at_grid|].
  intros n m Hn Hm. rewrite !Hent by assumption.
  now apply transformed_symmetric.
Qed.

Lemma tensor_transformation_symmetric_witness :
  exists T,
    tensor_transformation 0%nat 14%nat 2 matrix_heap
    = Done (length matrix_heap) (grid matrix_heap (doubles T))
    /\ mat_at (grid matrix_heap (doubles T)) (length matrix_heap) T
    /\ symmetric (Z.to_nat 2) T.
Proof.
  apply (tensor_transformation_symmetric matrix_heap 0%nat 14%nat 2
           [[1; 2]; [3; 4]]%R [[1; 2]; [2; 3]]%R).
  - lia.
  - exact matrix_heap_2x2.
  - exact matrix_heap_symmetric.
  - split; [reflexivity|]. repeat constructor.
  - split; [reflexivity|]. repeat constructor.
  - intros i j Hi Hj. change (Z.to_nat 2) with 2%nat in *.
    destruct i as [|[|i]], j as [|[|j]]; try lia; reflexivity.
Defined.

(** ** Two-dimensional arrays *)

(** X14: for non-negative dimensions [two_dimensional_array] returns a
    pointer that was not in use, to an n x l matrix of zeros; it adds
    n + 1 blocks and leaves every block that existed before unchanged. *)
Theorem two_dimensional_array_zeroed (h : heap) (n l : Z) :
  0 <= n -> 0 <= l ->
  exists h',
    two_dimensional_array n l h = Done (length h) h'
    /\ mat_at h' (length h) (replicate (Z.to_nat n) (replicate (Z.to_nat l) 0%R))
    /\ length h' = (length h + 1 + Z.to_nat n)%nat
    /\ (forall p b, h !! p = Some b -> h' !! p = Some b).
Proof.
  intros Hn Hl.
  set (Z0 := replicate (Z.to_nat n) (replicate (Z.to_nat l) 0%R)).
  exists (grid h (doubles Z0)).
  assert (Hd : doubles Z0
               = replicate (Z.to_nat n) (replicate (Z.to_nat l) (Vdouble 0)))
    by (unfold doubles, Z0; now rewrite !fmap_replicate).
  split; [rewrite Hd; now apply two_dimensional_array_run|].
  split; [apply mat_at_grid|]. split.
  - rewrite Hd. unfold grid. rewrite length_app. simpl.
    rewrite length_fmap, length_replicate. lia.
  - intros p b Hp. unfold grid. now apply lookup_app_l_Some.
Qed.

Lemma two_dimensional_array_zeroed_witness :
  exists h',
    two_dimensional_array 2 3 sample_heap = Done (length sample_heap) h'
    /\ mat_at h' (length sample_heap)
         (replicate (Z.to_nat 2) (replicate (Z.to_nat 3) 0%R)).
Proof.
  destruct (two_dimensional_array_zeroed sample_heap 2 3) as (h' & H1 & H2 & _);
    [lia|lia|].
  exists h'. split; assumption.
Defined.

(** ** Spline builders *)

Section LinearSpline.
Context {P : Type} (func : R -> P -> R) (params : P).
Context (h : heap) (x : ptr) (xs : list R).
Hypothesis x_at : vec_at h x xs.

Let f (xi : R) : R := func xi params.

Lemma linear_sampling_loop (todo : list R) :
  forall done, xs = done ++ todo ->
    for_from (length todo) (Z.of_nat (length done))
      (fun i => xi <- load_double x i ;;
                store (length h) i (Vdouble (func xi params)))
      (h ++ [Block ByCalloc true
               ((Vdouble <$> (f <$> done)) ++ replicate (length todo) (Vdouble 0))])
    = Done tt (h ++ [vector_block (f <$> xs)]).
Proof.
  induction todo as [|xi todo IH]; intros done Hxs.
  - simpl. rewrite app_nil_r in Hxs. subst done.
    unfold vector_block. now rewrite app_nil_r.
  - assert (Hxi : xs !! length done = Some xi)
      by (subst xs; apply list_lookup_middle; reflexivity).
    cbn [length for_from].
    erewrite bind_done; cycle 1.
    { erewrite bind_done
        by (eapply load_double_at;
            [apply vec_at_app, x_at|lia|rewrite Nat2Z.id; exact Hxi]).
      eapply store_at; [apply lookup_fresh|lia|].
      rewrite length_app, !length_fmap. simpl. lia. }
    rewrite insert_fresh, Nat2Z.id.
    specialize (IH (done ++ [xi])).
    rewrite <- app_assoc in IH. specialize (IH Hxs).
    rewrite length_app, Nat2Z.inj_add in IH.
    change (Z.of_nat (length [xi])) with 1 in IH.
    replace (<[length done := Vdouble (func xi params)]>
               ((Vdouble <$> (f <$> done)) ++ replicate (S (length todo)) (Vdouble 0)))
      with ((Vdouble <$> (f <$> (done ++ [xi]))) ++ replicate (length todo) (Vdouble 0)).
    + exact IH.
    + rewrite !fmap_app, <- app_assoc. simpl.
      rewrite insert_app_r_alt by (rewrite !length_fmap; lia).
      rewrite !length_fmap, Nat.sub_diag. reflexivity.
Qed.

Lemma create_linear_spline_run (n : Z) :
  0 <= n -> length xs = Z.to_nat n ->
  create_linear_spline func x n params h
  = Done (length h, Spline n xs (f <$> xs), Accel)
      (h ++ [vector_block (f <$> xs)]).
Proof.
  intros Hn Hlen. unfold create_linear_spline, calloc_double_array, calloc.
  destruct (Z.ltb_spec n 0); [lia|].
  unfold bind at 1 2 3. unfold alloc, ret at 1 2. cbn beta iota.
  unfold for_loop. rewrite <- Hlen.
  pose proof (linear_sampling_loop xs [] eq_refl) as Hloop.
  simpl in Hloop. change (Z.of_nat 0) with 0 in Hloop.
  unfold bind at 1. rewrite Hloop.
  unfold gsl_spline_alloc, gsl_interp_accel_alloc.
  unfold bind at 1 2. unfold ret at 1 2. cbn beta iota.
  erewrite bind_done; [reflexivity|].
  apply gsl_spline_init_at.
  - apply vec_at_app, x_at.
  - exists ByCalloc. apply lookup_fresh.
  - exact Hlen.
  - now rewrite length_fmap.
Qed.
End LinearSpline.



(** X17: for n >= 0 abscissas the log-log builder reports the first
    non-positive sample: if the sample at index i is non-positive and all
    samples before it are positive, the exit carries 10^log10x[i] and the
    sample there.  When all samples are positive the interpolant is
    initialised with the n abscissas log10x and the n ordinates
    log10(f(10^log10x[i])). *)
Theorem create_log10_spline_first_offender {P} (func : R -> P -> R)
    (params : P) (h : heap) (log10x : ptr) (xs : list R) (n : Z) :
  0 <= n -> vec_at h log10x xs -> length xs = Z.to_nat n ->
  (forall i lx,
     xs !! i = Some lx -> (sampled func params lx <= 0)%R ->
     (forall j ly, (j < i)%nat -> xs !! j = Some ly ->
                   (0 < sampled func params ly)%R) ->
     create_log10_spline func log10x n params h
     = Exited (NonPositiveSample (pow10 lx) (func (pow10 lx) params)))
  /\ ((forall i lx, xs !! i = Some lx -> (0 < sampled func params lx)%R) ->
      create_log10_spline func log10x n params h
      = Done (length h,
              Spline n xs ((fun lx => log10 (func (pow10 lx) params)) <$> xs),
              Accel)
          (h ++ [vector_block
                   ((fun lx => log10 (func (pow10 lx) params)) <$> xs)])).
Proof.
  intros Hn Hv Hlen.
  rewrite (create_log10_spline_run func params h log10x xs Hv n Hn Hlen).
  destruct (list_find (fun lx => (sampled func params lx <= 0)%R) xs)
    as [[i' lx']|] eqn:Hfind.
  - apply list_find_Some in Hfind as (Hi' & Hle' & Hmin). split.
    + intros i lx Hi Hle Hbefore.
      destruct (Nat.lt_trichotomy i i') as [Hlt|[->|Hgt]].
      * exfalso. exact (Hmin i lx Hi Hlt Hle).
      * rewrite Hi in Hi'. now injection Hi' as <-.
      * specialize (Hbefore i' lx' Hgt Hi'). lra.
    + intros Hpos. specialize (Hpos i' lx' Hi'). lra.
  - apply list_find_None in Hfind. split.
    + intros i lx Hi Hle _. exfalso.
      exact (proj1 (Forall_lookup _ _) Hfind i lx Hi Hle).
    + intros _. reflexivity.
Qed.

Lemma create_log10_spline_first_offender_witness :
  create_log10_spline (fun x (_ : unit) => (x - 10)%R) 0%nat 2 tt sample_heap
  = Exited (NonPositiveSample (pow10 1) (pow10 1 - 10)).
Proof.
  assert (H1 : pow10 1 = 10%R) by (unfold pow10; apply Rpower_1; lra).
  destruct (create_log10_spline_first_offender (fun x (_ : unit) => (x - 10)%R)
              tt sample_heap 0%nat [1; 0]%R 2) as [Hexit _].
  - lia.
  - apply sample_vec_at. reflexivity.
  - reflexivity.
  - apply (Hexit 0%nat 1%R).
    + reflexivity.
    + unfold sampled. rewrite H1. lra.
    + intros j ly Hj. lia.
Defined.

(** ** Nested allocation, level by level *)

Lemma for_from_split (k r : nat) :
  forall (body : Z -> M unit) (i0 : Z) h,
    for_from (k + r) i0 body h
    = match for_from k i0 body h with
      | Done _ h' => for_from r (i0 + Z.of_nat k) body h'
      | Undefined f => Undefined f
      | Exited e => Exited e
      end.
Proof.
  induction k as [|k IH]; intros body i0 h.
  - simpl. now rewrite Z.add_0_r.
  - cbn [Nat.add for_from]. unfold bind.
    destruct (body i0 h) as [a1 h1| |]; [|reflexivity..].
    rewrite IH. now replace (i0 + 1 + Z.of_nat k) with (i0 + Z.of_nat (S k)) by lia.
Qed.

Lemma length_concat_uniform {A} (sz : nat) (g : nat -> list A) (js : list nat) :
  (forall r, length (g r) = sz) ->
  length (concat (g <$> js)) = (length js * sz)%nat.
Proof.
  intros Hg. induction js as [|j js IH]; [reflexivity|].
  rewrite fmap_cons. change (concat (?x :: ?l)) with (x ++ concat l).
  rewrite length_app, Hg, IH. reflexivity.
Qed.

Lemma length_node_chunk N K sz child root :
  (forall r, length (child r) = sz) ->
  length (node_chunk N K sz child root) = (1 + K * sz)%nat.
Proof.
  intros Hc. unfold node_chunk.
  change (length (?b :: ?l)) with (S (length l)).
  rewrite (length_concat_uniform sz (fun j => child (root + 1 + j * sz)%nat))
    by (intros r; apply Hc).
  now rewrite length_seq.
Qed.

(** One level of a nested allocation: each iteration appends a child and
    stores its address in the next cell of the parent block. *)
Lemma link_loop h (N K sz : nat) (child : nat -> list block)
    (body : Z -> M unit) :
  (forall r, length (child r) = sz) ->
  (K <= N)%nat ->
  (forall (j : nat) cells rest,
     (j < K)%nat -> length cells = N ->
     body (Z.of_nat j) (h ++ Block ByNewArray true cells :: rest)
     = Done tt (h ++ Block ByNewArray true
                       (<[j := Vptr (length h + 1 + length rest)]> cells)
                  :: rest ++ child (length h + 1 + length rest)%nat)) ->
  for_from K 0 body (h ++ [Block ByNewArray true (replicate N Vundef)])
  = Done tt (h ++ node_chunk N K sz child (length h)).
Proof.
  intros Hsz HK Hbody.
  destruct (for_from_inv K
              (fun j hh => hh = h ++ node_chunk N j sz child (length h))
              body 0 (h ++ [Block ByNewArray true (replicate N Vundef)]))
    as (h' & Hrun & ->); [| |exact Hrun].
  - intros j hh Hj ->. eexists. split.
    + rewrite Z.add_0_l. unfold node_chunk. apply Hbody; [exact Hj|].
      rewrite length_app, !length_fmap, length_seq, length_replicate. lia.
    + f_equal. unfold node_chunk.
      rewrite (length_concat_uniform sz
                 (fun j => child (length h + 1 + j * sz)%nat))
        by (intros r; apply Hsz).
      rewrite length_seq. rewrite (seq_S j), !fmap_app, concat_app.
      simpl. rewrite app_nil_r. f_equal.
      rewrite <- app_assoc. f_equal.
      rewrite insert_app_r_alt by (rewrite !length_fmap, length_seq; lia).
      rewrite !length_fmap, length_seq, Nat.sub_diag.
      replace (N - j)%nat with (S (N - S j)) by lia. reflexivity.
  - unfold node_chunk. simpl. now rewrite Nat.sub_0_r.
Qed.

Lemma store_parent H k cells rest (j : nat) v :
  (j < length cells)%nat ->
  store (length H) (Z.of_nat j) v (H ++ Block k true cells :: rest)
  = Done tt (H ++ Block k true (<[j := v]> cells) :: rest).
Proof.
  intros Hj.
  rewrite (store_at _ _ k cells)
    by (try (apply list_lookup_middle; reflexivity); rewrite ?Nat2Z.id; lia).
  rewrite Nat2Z.id, insert_app_r_alt by lia.
  now rewrite Nat.sub_diag.
Qed.

Lemma load_ptr_cell h p k cells (i : Z) q :
  h !! p = Some (Block k true cells) -> 0 <= i ->
  cells !! Z.to_nat i = Some (Vptr q) ->
  load_ptr p i h = Done q h.
Proof.
  intros Hp Hi Hq. unfold load_ptr.
  now rewrite (bind_done _ _ h (Vptr q) h) by (eapply load_at; eassumption).
Qed.

Lemma store2_resolves H x (i : nat) k cellsx :
  H !! x = Some (Block k true cellsx) ->
  cellsx !! i = Some (Vptr (length H)) ->
  forall j v ext,
    store2 x (Z.of_nat i) j v (H ++ ext) = store (length H) j v (H ++ ext).
Proof.
  intros Hx Hi j v ext. unfold store2.
  erewrite bind_done; [reflexivity|].
  eapply load_ptr_cell; [apply lookup_app_l_Some, Hx|lia|].
  now rewrite Nat2Z.id.
Qed.

Lemma store3_resolves H x (i j : nat) k cellsx xi k' cellsxi :
  H !! x = Some (Block k true cellsx) ->
  cellsx !! i = Some (Vptr xi) ->
  H !! xi = Some (Block k' true cellsxi) ->
  cellsxi !! j = Some (Vptr (length H)) ->
  forall c v ext,
    store3 x (Z.of_nat i) (Z.of_nat j) c v (H ++ ext)
    = store (length H) c v (H ++ ext).
Proof.
  intros Hx Hi Hxi Hj c v ext. unfold store3.
  erewrite bind_done; cycle 1.
  { eapply load_ptr_cell; [apply lookup_app_l_Some, Hx|lia|].
    rewrite Nat2Z.id. exact Hi. }
  erewrite bind_done; [reflexivity|].
  eapply load_ptr_cell; [apply lookup_app_l_Some, Hxi|lia|].
  now rewrite Nat2Z.id.
Qed.

(** The innermost level: [K] leaves of [c] cells each, linked into the
    first [K] cells of a parent of [N] cells. *)
Lemma fill_leaves H (N K : nat) (c : Z) (link : Z -> value -> M unit) :
  0 <= c -> (K <= N)%nat ->
  (forall j v ext, link j v (H ++ ext) = store (length H) j v (H ++ ext)) ->
  for_from K 0 (fun j => leaf <- new_array c ;; link j (Vptr leaf))
    (H ++ [Block ByNewArray true (replicate N Vundef)])
  = Done tt (H ++ node_chunk N K 1 (leaf_chunk (Z.to_nat c)) (length H)).
Proof.
  intros Hc HK Hlink. apply link_loop; [reflexivity|exact HK|].
  intros j cells rest Hj Hlen.
  unfold new_array. destruct (Z.ltb_spec c 0); [lia|].
  unfold bind at 1. unfold alloc.
  rewrite <- app_assoc, Hlink. simpl.
  rewrite store_parent by lia.
  rewrite length_app. simpl.
  replace (length H + S (length rest))%nat
    with (length H + 1 + length rest)%nat by lia.
  reflexivity.
Qed.

Lemma store_out_of_bounds h p k cells (i : Z) v :
  h !! p = Some (Block k true cells) -> (length cells <= Z.to_nat i)%nat ->
  store p i v h = Undefined OutOfBounds.
Proof.
  intros Hp Hi. unfold store, bind, deref. rewrite Hp. simpl.
  destruct (Z.ltb_spec i 0); [reflexivity|].
  destruct (Nat.ltb_spec (Z.to_nat i) (length cells)); [lia|reflexivity].
Qed.

(** Writing one cell past a full parent of [N] cells. *)
Lemma fill_leaves_overflow H (N K : nat) (c : Z) (link : Z -> value -> M unit) :
  0 <= c -> (N < K)%nat ->
  (forall j v ext, link j v (H ++ ext) = store (length H) j v (H ++ ext)) ->
  for_from K 0 (fun j => leaf <- new_array c ;; link j (Vptr leaf))
    (H ++ [Block ByNewArray true (replicate N Vundef)])
  = Undefined OutOfBounds.
Proof.
  intros Hc HK Hlink.
  replace K with (N + S (K - S N))%nat by lia.
  rewrite for_from_split.
  rewrite (fill_leaves H N N c link Hc (Nat.le_refl N) Hlink).
  cbn [for_from]. rewrite Z.add_0_l.
  unfold new_array. destruct (Z.ltb_spec c 0); [lia|].
  unfold bind at 1 2. unfold alloc, node_chunk.
  rewrite <- app_assoc, <- app_comm_cons, Hlink.
  erewrite store_out_of_bounds; [reflexivity|apply list_lookup_middle; reflexivity|].
  rewrite length_app, !length_fmap, length_seq, length_replicate. lia.
Qed.

Lemma length_parent (h : heap) b rest :
  length (h ++ b :: rest) = (length h + 1 + length rest)%nat.
Proof. rewrite length_app. simpl. lia. Qed.

(** A node whose children are arrays of [K] leaves: the body of the
    outer loop of the 3-D allocator and of the middle loop of the 4-D
    one.  [link] stores into the parent, [link2] into the new node. *)
Lemma node_of_leaves_body h (N' K' : nat) (l c : Z)
    (link : Z -> value -> M unit) (link2 : Z -> Z -> value -> M unit)
    (j : nat) cells rest :
  0 <= l -> Z.to_nat l = N' -> 0 <= c -> (K' <= N')%nat ->
  (j < length cells)%nat ->
  (forall v ext,
     link (Z.of_nat j) v (h ++ Block ByNewArray true cells :: ext)
     = store (length h) (Z.of_nat j) v (h ++ Block ByNewArray true cells :: ext)) ->
  (forall H, H = h ++ Block ByNewArray true
                       (<[j := Vptr (length h + 1 + length rest)]> cells) :: rest ->
     forall k v ext,
       link2 (Z.of_nat j) k v (H ++ ext) = store (length H) k v (H ++ ext)) ->
  (xi <- new_array l ;;
   link (Z.of_nat j) (Vptr xi) ;;;
   for_from K' 0 (fun k => leaf <- new_array c ;;
                           link2 (Z.of_nat j) k (Vptr leaf)))
    (h ++ Block ByNewArray true cells :: rest)
  = Done tt (h ++ Block ByNewArray true
                    (<[j := Vptr (length h + 1 + length rest)]> cells)
               :: rest ++ node_chunk N' K' 1 (leaf_chunk (Z.to_nat c))
                            (length h + 1 + length rest)).
Proof.
  intros Hl HN Hc HK Hj Hlink Hlink2.
  unfold new_array at 1. destruct (Z.ltb_spec l 0); [lia|].
  unfold bind at 1. unfold alloc. rewrite length_parent, HN.
  rewrite <- app_assoc, <- app_comm_cons.
  unfold bind at 1. rewrite Hlink, store_parent by exact Hj.
  set (base := h ++ Block ByNewArray true
                     (<[j := Vptr (length h + 1 + length rest)]> cells) :: rest).
  replace (h ++ Block ByNewArray true
                  (<[j := Vptr (length h + 1 + length rest)]> cells)
             :: rest ++ [Block ByNewArray true (replicate N' Vundef)])
    with (base ++ [Block ByNewArray true (replicate N' Vundef)])
    by (unfold base; now rewrite <- app_assoc, <- app_comm_cons).
  rewrite (fill_leaves base N' K' c (link2 (Z.of_nat j)) Hc HK
             (Hlink2 base eq_refl)).
  unfold base at 1. rewrite <- app_assoc, <- app_comm_cons.
  unfold base. now rewrite length_parent.
Qed.

Lemma three_dimensional_array_run h (n l m : Z) :
  0 <= n -> 0 <= l -> 0 <= m ->
  three_dimensional_array n l m h
  = Done (length h)
      (h ++ node_chunk (Z.to_nat n) (Z.to_nat n) (1 + Z.to_nat l)
              (node_chunk (Z.to_nat l) (Z.to_nat l) 1 (leaf_chunk (Z.to_nat m)))
              (length h)).
Proof.
  intros Hn Hl Hm. unfold three_dimensional_array, new_array at 1.
  destruct (Z.ltb_spec n 0); [lia|].
  unfold bind at 1. unfold alloc at 1.
  erewrite bind_done; [reflexivity|].
  unfold for_loop at 1.
  apply link_loop;
    [intros r; rewrite (length_node_chunk _ _ 1) by reflexivity; lia|lia|].
  intros j cells rest Hj Hlen. unfold for_loop.
  apply (node_of_leaves_body h (Z.to_nat l) (Z.to_nat l) l m
           (fun i v => store (length h) i v)
           (fun i k v => store2 (length h) i k v));
    [lia|reflexivity|lia|lia|lia|reflexivity|].
  intros base -> k v ext.
  apply (store2_resolves _ (length h) j ByNewArray
           (<[j := Vptr (length h + 1 + length rest)]> cells)).
  - apply list_lookup_middle. reflexivity.
  - rewrite length_parent.
    apply list_lookup_insert_eq. lia.
Qed.

(** A node with arbitrary children: allocate its block, link it into the
    parent, then let [inner] fill it. *)
Lemma node_body h (N' : nat) (l : Z) (link : Z -> value -> M unit)
    (inner : M unit) (child : nat -> list block) (j : nat) cells rest :
  0 <= l -> Z.to_nat l = N' -> (j < length cells)%nat ->
  (forall v ext,
     link (Z.of_nat j) v (h ++ Block ByNewArray true cells :: ext)
     = store (length h) (Z.of_nat j) v (h ++ Block ByNewArray true cells :: ext)) ->
  (forall base,
     base = h ++ Block ByNewArray true
                   (<[j := Vptr (length h + 1 + length rest)]> cells) :: rest ->
     inner (base ++ [Block ByNewArray true (replicate N' Vundef)])
     = Done tt (base ++ child (length base))) ->
  (xi <- new_array l ;; link (Z.of_nat j) (Vptr xi) ;;; inner)
    (h ++ Block ByNewArray true cells :: rest)
  = Done tt (h ++ Block ByNewArray true
                    (<[j := Vptr (length h + 1 + length rest)]> cells)
               :: rest ++ child (length h + 1 + length rest)%nat).
Proof.
  intros Hl HN Hj Hlink Hinner.
  unfold new_array at 1. destruct (Z.ltb_spec l 0); [lia|].
  unfold bind at 1. unfold alloc. rewrite length_parent, HN.
  rewrite <- app_assoc, <- app_comm_cons.
  unfold bind at 1. rewrite Hlink, store_parent by exact Hj.
  set (base := h ++ Block ByNewArray true
                     (<[j := Vptr (length h + 1 + length rest)]> cells) :: rest).
  replace (h ++ Block ByNewArray true
                  (<[j := Vptr (length h + 1 + length rest)]> cells)
             :: rest ++ [Block ByNewArray true (replicate N' Vundef)])
    with (base ++ [Block ByNewArray true (replicate N' Vundef)])
    by (unfold base; now rewrite <- app_assoc, <- app_comm_cons).
  rewrite (Hinner base eq_refl).
  unfold base at 1. rewrite <- app_assoc, <- app_comm_cons.
  unfold base. now rewrite length_parent.
Qed.

Lemma four_dimensional_array_run h (n l m p : Z) :
  0 <= n -> 0 <= l -> 0 <= p -> p <= m ->
  four_dimensional_array n l m p h
  = Done (length h)
      (h ++ node_chunk (Z.to_nat n) (Z.to_nat n)
              (1 + Z.to_nat l * (1 + Z.to_nat p))
              (node_chunk (Z.to_nat l) (Z.to_nat l) (1 + Z.to_nat p)
                 (node_chunk (Z.to_nat m) (Z.to_nat p) 1
                    (leaf_chunk (Z.to_nat p))))
              (length h)).
Proof.
  intros Hn Hl Hp Hpm. unfold four_dimensional_array, new_array at 1.
  destruct (Z.ltb_spec n 0) as [|_]; [lia|].
  unfold bind at 1. unfold alloc at 1.
  erewrite bind_done; [reflexivity|].
  unfold for_loop at 1.
  assert (Hsz2 : forall r,
             length (node_chunk (Z.to_nat m) (Z.to_nat p) 1
                       (leaf_chunk (Z.to_nat p)) r) = (1 + Z.to_nat p)%nat)
    by (intros r; rewrite (length_node_chunk _ _ 1) by reflexivity; lia).
  apply link_loop;
    [intros r; now rewrite (length_node_chunk _ _ (1 + Z.to_nat p)) by exact Hsz2
    |lia|].
  intros i cells rest Hi Hlen.
  apply (node_body h (Z.to_nat l) l (fun i v => store (length h) i v));
    [lia|reflexivity|lia|reflexivity|].
  intros base -> . unfold for_loop at 1.
  assert (Hx : (h ++ Block ByNewArray true
                       (<[i := Vptr (length h + 1 + length rest)]> cells) :: rest)
               !! length h
               = Some (Block ByNewArray true
                         (<[i := Vptr (length h + 1 + length rest)]> cells)))
    by (apply list_lookup_middle; reflexivity).
  assert (Hxi : <[i := Vptr (length h + 1 + length rest)]> cells !! i
                = Some (Vptr (length h + 1 + length rest)))
    by (apply list_lookup_insert_eq; lia).
  apply link_loop; [exact Hsz2|lia|].
  intros j cells2 rest2 Hj Hlen2. unfold for_loop.
  apply (node_of_leaves_body _ (Z.to_nat m) (Z.to_nat p) m p
           (fun jj v => store2 (length h) (Z.of_nat i) jj v)
           (fun jj k v => store3 (length h) (Z.of_nat i) jj k v));
    [lia|reflexivity|lia|lia|lia| |].
  - intros v ext.
    rewrite (store2_resolves _ (length h) i ByNewArray _ Hx).
    + reflexivity.
    + now rewrite length_parent.
  - intros base -> k v ext.
    assert (Hroot : (length h + 1 + length rest)%nat
                    = length (h ++ Block ByNewArray true
                                     (<[i := Vptr (length h + 1 + length rest)]> cells)
                                :: rest))
      by (symmetry; apply length_parent).
    set (H' := h ++ Block ByNewArray true
                      (<[i := Vptr (length h + 1 + length rest)]> cells) :: rest)
      in *.
    eapply (store3_resolves _ (length h) i j).
    + apply lookup_app_l_Some. exact Hx.
    + exact Hxi.
    + rewrite Hroot. apply list_lookup_middle. reflexivity.
    + rewrite length_parent. apply list_lookup_insert_eq. lia.
Qed.

Lemma bind_undefined {A B} (c : M A) (k : A -> M B) h f :
  c h = Undefined f -> bind c k h = Undefined f.
Proof. intros H. unfold bind. now rewrite H. Qed.

Lemma for_from_first_fault (k : nat) (body : Z -> M unit) (i0 : Z) h f :
  body i0 h = Undefined f -> for_from (S k) i0 body h = Undefined f.
Proof. intros H. simpl. now apply bind_undefined. Qed.

Lemma node_body_fault h (N' : nat) (l : Z) (link : Z -> value -> M unit)
    (inner : M unit) (f : fault) (j : nat) cells rest :
  0 <= l -> Z.to_nat l = N' -> (j < length cells)%nat ->
  (forall v ext,
     link (Z.of_nat j) v (h ++ Block ByNewArray true cells :: ext)
     = store (length h) (Z.of_nat j) v (h ++ Block ByNewArray true cells :: ext)) ->
  (forall base,
     base = h ++ Block ByNewArray true
                   (<[j := Vptr (length h + 1 + length rest)]> cells) :: rest ->
     inner (base ++ [Block ByNewArray true (replicate N' Vundef)])
     = Undefined f) ->
  (xi <- new_array l ;; link (Z.of_nat j) (Vptr xi) ;;; inner)
    (h ++ Block ByNewArray true cells :: rest)
  = Undefined f.
Proof.
  intros Hl HN Hj Hlink Hinner.
  unfold new_array at 1. destruct (Z.ltb_spec l 0); [lia|].
  unfold bind at 1. unfold alloc. rewrite length_parent, HN.
  rewrite <- app_assoc, <- app_comm_cons.
  unfold bind at 1. rewrite Hlink, store_parent by exact Hj.
  set (base := h ++ Block ByNewArray true
                     (<[j := Vptr (length h + 1 + length rest)]> cells) :: rest).
  replace (h ++ Block ByNewArray true
                  (<[j := Vptr (length h + 1 + length rest)]> cells)
             :: rest ++ [Block ByNewArray true (replicate N' Vundef)])
    with (base ++ [Block ByNewArray true (replicate N' Vundef)])
    by (unfold base; now rewrite <- app_assoc, <- app_comm_cons).
  apply (Hinner base eq_refl).
Qed.

Lemma four_dimensional_array_overflow h (n l m p : Z) :
  1 <= n -> 1 <= l -> 0 <= m -> m < p ->
  four_dimensional_array n l m p h = Undefined OutOfBounds.
Proof.
  intros Hn Hl Hm Hmp. unfold four_dimensional_array, new_array at 1.
  destruct (Z.ltb_spec n 0) as [|_]; [lia|].
  unfold bind at 1. unfold alloc at 1.
  apply bind_undefined. unfold for_loop at 1.
  replace (Z.to_nat n) with (S (Z.to_nat n - 1)) at 1 by lia.
  apply for_from_first_fault.
  apply (node_body_fault h (Z.to_nat l) l (fun i v => store (length h) i v)
           _ _ 0%nat (replicate (Z.to_nat n) Vundef) []);
    [lia|reflexivity|rewrite length_replicate; lia|reflexivity|].
  intros base ->. unfold for_loop at 1.
  replace (Z.to_nat l) with (S (Z.to_nat l - 1)) at 1 by lia.
  apply for_from_first_fault.
  set (cells := <[0%nat := Vptr (length h + 1 + length (@nil block))]>
                  (replicate (Z.to_nat n) Vundef)).
  assert (Hx : (h ++ [Block ByNewArray true cells]) !! length h
               = Some (Block ByNewArray true cells))
    by (apply list_lookup_middle; reflexivity).
  assert (Hxi : cells !! 0%nat = Some (Vptr (length h + 1 + length (@nil block))))
    by (apply list_lookup_insert_eq; rewrite length_replicate; lia).
  apply (node_body_fault _ (Z.to_nat m) m
           (fun jj v => store2 (length h) (Z.of_nat 0) jj v)
           _ _ 0%nat
           (replicate (Z.to_nat l) Vundef) []);
    [lia|reflexivity|rewrite length_replicate; lia| |].
  - intros v ext.
    rewrite (store2_resolves _ (length h) 0%nat ByNewArray _ Hx).
    + reflexivity.
    + now rewrite length_parent.
  - intros base ->. unfold for_loop.
    apply fill_leaves_overflow; [lia|lia|].
    intros k v ext.
    eapply (store3_resolves _ (length h) 0%nat 0%nat).
    + apply lookup_app_l_Some. exact Hx.
    + exact Hxi.
    + rewrite <- (length_parent h (Block ByNewArray true cells) []).
      apply list_lookup_middle. reflexivity.
    + rewrite list_lookup_insert_eq by (rewrite length_replicate; lia).
      do 2 f_equal. rewrite !length_app. simpl. lia.
Qed.

(** ** Where the blocks of a nested allocation are *)

Lemma sits_at_fresh h chunk : sits_at (h ++ chunk) (length h) chunk.
Proof.
  intros r b Hr. rewrite lookup_app_r by lia.
  now replace (length h + r - length h)%nat with r by lia.
Qed.

Lemma sits_at_head h root b rest :
  sits_at h root (b :: rest) -> h !! root = Some b.
Proof. intros Hs. specialize (Hs 0%nat b eq_refl). now rewrite Nat.add_0_r in Hs. Qed.

Lemma lookup_concat_uniform {A} (sz : nat) (g : nat -> list A) (js : list nat) :
  (forall r, length (g r) = sz) ->
  forall j i r b, js !! j = Some i -> g i !! r = Some b ->
    concat (g <$> js) !! (j * sz + r)%nat = Some b.
Proof.
  intros Hg. induction js as [|i0 js IH]; intros j i r b Hj Hr; [discriminate|].
  rewrite fmap_cons. change (concat (?x :: ?l)) with (x ++ concat l).
  destruct j as [|j].
  - injection Hj as ->. simpl. now apply lookup_app_l_Some.
  - rewrite lookup_app_r by (rewrite Hg; lia).
    replace (S j * sz + r - length (g i0))%nat with (j * sz + r)%nat
      by (rewrite Hg; lia).
    now apply (IH j i).
Qed.

Lemma sits_at_child h root N K sz child (j : nat) :
  (forall r, length (child r) = sz) ->
  sits_at h root (node_chunk N K sz child root) -> (j < K)%nat ->
  sits_at h (root + 1 + j * sz) (child (root + 1 + j * sz)%nat).
Proof.
  intros Hsz Hs Hj r b Hr.
  replace (root + 1 + j * sz + r)%nat with (root + S (j * sz + r))%nat by lia.
  apply Hs. unfold node_chunk. simpl.
  apply (lookup_concat_uniform sz (fun j => child (root + 1 + j * sz)%nat)
           (seq 0 K) (fun r' => Hsz _) j j r b); [|exact Hr].
  now apply lookup_seq_lt.
Qed.

Lemma node_chunk_head h root N K sz child :
  sits_at h root (node_chunk N K sz child root) ->
  exists cells,
    h !! root = Some (Block ByNewArray true cells)
    /\ length cells = (K + (N - K))%nat
    /\ (forall j, (j < K)%nat ->
          cells !! j = Some (Vptr (root + 1 + j * sz)))
    /\ (forall j, (K <= j)%nat -> (j < N)%nat -> cells !! j = Some Vundef).
Proof.
  intros Hs. eexists. split; [exact (sits_at_head _ _ _ _ Hs)|]. split; [|split].
  - now rewrite length_app, !length_fmap, length_seq, length_replicate.
  - intros j Hj. apply lookup_app_l_Some.
    now rewrite !list_lookup_fmap, lookup_seq_lt.
  - intros j HK HN. rewrite lookup_app_r by (rewrite !length_fmap, length_seq; lia).
    apply lookup_replicate_2. rewrite !length_fmap, length_seq. lia.
Qed.

Lemma load_ptr_unset h p k cells (i : Z) :
  h !! p = Some (Block k true cells) -> 0 <= i ->
  cells !! Z.to_nat i = Some Vundef ->
  load_ptr p i h = Undefined Uninitialized.
Proof.
  intros Hp Hi Hc. unfold load_ptr.
  now rewrite (bind_done _ _ h Vundef h) by (eapply load_at; eassumption).
Qed.

(** X18: for non-negative dimensions [three_dimensional_array] returns a
    pointer that was not in use; every x[i][j] with i < n and j < l points
    to its own live array of m cells, none of which is initialised; the
    call adds 1 + n*(1 + l) blocks and changes no earlier block. *)
Theorem three_dimensional_array_leaves (h : heap) (n l m : Z) :
  0 <= n -> 0 <= l -> 0 <= m ->
  exists h',
    three_dimensional_array n l m h = Done (length h) h'
    /\ length h' = (length h + 1 + Z.to_nat n * (1 + Z.to_nat l))%nat
    /\ (forall p b, h !! p = Some b -> h' !! p = Some b)
    /\ (forall i j : nat, (i < Z.to_nat n)%nat -> (j < Z.to_nat l)%nat ->
          let xi := (length h + 1 + i * (1 + Z.to_nat l))%nat in
          let leaf := (xi + 1 + j)%nat in
          load_ptr (length h) (Z.of_nat i) h' = Done xi h'
          /\ load_ptr xi (Z.of_nat j) h' = Done leaf h'
          /\ h' !! leaf
             = Some (Block ByNewArray true (replicate (Z.to_nat m) Vundef))).
Proof.
  intros Hn Hl Hm. eexists.
  split; [now apply three_dimensional_array_run|].
  set (child := node_chunk (Z.to_nat l) (Z.to_nat l) 1 (leaf_chunk (Z.to_nat m))).
  assert (Hsz : forall r, length (child r) = (1 + Z.to_nat l)%nat)
    by (intros r; unfold child;
        rewrite (length_node_chunk _ _ 1) by reflexivity; lia).
  split; [rewrite length_app, (length_node_chunk _ _ _ _ _ Hsz); lia|].
  split; [intros p b Hp; now apply lookup_app_l_Some|].
  intros i j Hi Hj xi leaf.
  pose proof (sits_at_fresh h
                (node_chunk (Z.to_nat n) (Z.to_nat n) (1 + Z.to_nat l) child
                   (length h))) as Htop.
  destruct (node_chunk_head _ _ _ _ _ _ Htop) as (cells & Hx & _ & Hset & _).
  pose proof (sits_at_child _ _ _ _ _ _ i Hsz Htop Hi) as Hnode.
  fold xi in Hnode. unfold child in Hnode.
  destruct (node_chunk_head _ _ _ _ _ _ Hnode) as (cells2 & Hxi & _ & Hset2 & _).
  pose proof (sits_at_child _ xi (Z.to_nat l) (Z.to_nat l) 1
                (leaf_chunk (Z.to_nat m)) j (fun _ => eq_refl) Hnode Hj) as Hleaf.
  split; [|split].
  - eapply load_ptr_cell; [exact Hx|lia|]. rewrite Nat2Z.id. now apply Hset.
  - eapply load_ptr_cell; [exact Hxi|lia|]. rewrite Nat2Z.id.
    rewrite (Hset2 j Hj). do 2 f_equal. unfold leaf. lia.
  - replace leaf with (xi + 1 + j * 1)%nat by (unfold leaf; lia).
    exact (sits_at_head _ _ _ _ Hleaf).
Qed.

Lemma three_dimensional_array_leaves_witness :
  exists h',
    three_dimensional_array 2 3 4 sample_heap = Done (length sample_heap) h'
    /\ length h' = (length sample_heap + 1 + Z.to_nat 2 * (1 + Z.to_nat 3))%nat.
Proof.
  destruct (three_dimensional_array_leaves sample_heap 2 3 4)
    as (h' & H1 & H2 & _); [lia|lia|lia|].
  exists h'. split; assumption.
Defined.

Lemma four_dimensional_array_shape h (n l m p : Z) :
  0 <= n -> 0 <= l -> 0 <= p -> p <= m ->
  exists h',
    four_dimensional_array n l m p h = Done (length h) h'
    /\ (forall q b, h !! q = Some b -> h' !! q = Some b)
    /\ (forall i j : nat, (i < Z.to_nat n)%nat -> (j < Z.to_nat l)%nat ->
          let xi := (length h + 1
                     + i * (1 + Z.to_nat l * (1 + Z.to_nat p)))%nat in
          let xij := (xi + 1 + j * (1 + Z.to_nat p))%nat in
          load_ptr (length h) (Z.of_nat i) h' = Done xi h'
          /\ load_ptr xi (Z.of_nat j) h' = Done xij h'
          /\ (forall k : nat, (k < Z.to_nat p)%nat ->
                load_ptr xij (Z.of_nat k) h' = Done (xij + 1 + k)%nat h'
                /\ h' !! (xij + 1 + k)%nat
                   = Some (Block ByNewArray true (replicate (Z.to_nat p) Vundef)))
          /\ (forall k : nat, (Z.to_nat p <= k)%nat -> (k < Z.to_nat m)%nat ->
                load_ptr xij (Z.of_nat k) h' = Undefined Uninitialized)).
Proof.
  intros Hn Hl Hp Hpm. eexists.
  split; [now apply four_dimensional_array_run|].
  split; [intros q b Hq; now apply lookup_app_l_Some|].
  set (P := Z.to_nat p). set (L := Z.to_nat l). set (Mm := Z.to_nat m).
  set (child2 := node_chunk Mm P 1 (leaf_chunk P)).
  set (child3 := node_chunk L L (1 + P) child2).
  assert (Hsz2 : forall r, length (child2 r) = (1 + P)%nat)
    by (intros r; unfold child2;
        rewrite (length_node_chunk _ _ 1) by reflexivity; lia).
  assert (Hsz3 : forall r, length (child3 r) = (1 + L * (1 + P))%nat)
    by (intros r; unfold child3;
        now rewrite (length_node_chunk _ _ _ _ _ Hsz2)).
  intros i j Hi Hj xi xij.
  pose proof (sits_at_fresh h
                (node_chunk (Z.to_nat n) (Z.to_nat n) (1 + L * (1 + P)) child3
                   (length h))) as Htop.
  destruct (node_chunk_head _ _ _ _ _ _ Htop) as (cells & Hx & _ & Hset & _).
  pose proof (sits_at_child _ _ _ _ _ _ i Hsz3 Htop Hi) as Hnode.
  fold xi in Hnode. unfold child3 in Hnode.
  destruct (node_chunk_head _ _ _ _ _ _ Hnode) as (cells2 & Hxi & _ & Hset2 & _).
  pose proof (sits_at_child _ _ _ _ _ _ j Hsz2 Hnode Hj) as Hnode2.
  fold xij in Hnode2. unfold child2 in Hnode2.
  destruct (node_chunk_head _ _ _ _ _ _ Hnode2)
    as (cells3 & Hxij & _ & Hset3 & Hunset3).
  split; [|split; [|split]].
  - eapply load_ptr_cell; [exact Hx|lia|]. rewrite Nat2Z.id. now apply Hset.
  - eapply load_ptr_cell; [exact Hxi|lia|]. rewrite Nat2Z.id. now apply Hset2.
  - intros k Hk.
    pose proof (sits_at_child _ xij Mm P 1 (leaf_chunk P) k
                  (fun _ => eq_refl) Hnode2 Hk) as Hleaf.
    replace (xij + 1 + k * 1)%nat with (xij + 1 + k)%nat in Hleaf by lia.
    split; [|exact (sits_at_head _ _ _ _ Hleaf)].
    eapply load_ptr_cell; [exact Hxij|lia|]. rewrite Nat2Z.id.
    rewrite (Hset3 k Hk). do 2 f_equal. lia.
  - intros k HPk HkM.
    eapply load_ptr_unset; [exact Hxij|lia|]. rewrite Nat2Z.id.
    now apply Hunset3.
Qed.

(** X19: when 0 <= p <= m, [four_dimensional_array] returns; in every
    x[i][j] the first p pointers refer to their own live, uninitialised
    arrays of p cells and the remaining m - p pointers are never set.  So
    every leaf is allocated when p = m, and not when p < m (with n, l >= 1). *)
Theorem four_dimensional_array_partial_leaves (h : heap) (n l m p : Z) :
  0 <= n -> 0 <= l -> 0 <= p -> p <= m ->
  exists h',
    four_dimensional_array n l m p h = Done (length h) h'
    /\ (forall q b, h !! q = Some b -> h' !! q = Some b)
    /\ (forall i j k, 0 <= i < n -> 0 <= j < l -> 0 <= k < p ->
          leaf_at h' (length h) i j k p)
    /\ (forall i j k, 0 <= i < n -> 0 <= j < l -> p <= k < m ->
          exists xi xij,
            load_ptr (length h) i h' = Done xi h'
            /\ load_ptr xi j h' = Done xij h'
            /\ load_ptr xij k h' = Undefined Uninitialized)
    /\ (p = m -> every_leaf_allocated h' (length h) n l m p)
    /\ (1 <= n -> 1 <= l -> p < m ->
        ~ every_leaf_allocated h' (length h) n l m p).
Proof.
  intros Hn Hl Hp Hpm.
  destruct (four_dimensional_array_shape h n l m p Hn Hl Hp Hpm)
    as (h' & Hrun & Hold & Hshape).
  exists h'. split; [exact Hrun|]. split; [exact Hold|].
  assert (Hleaf : forall i j k, 0 <= i < n -> 0 <= j < l -> 0 <= k < p ->
                    leaf_at h' (length h) i j k p).
  { intros i j k Hi Hj Hk.
    destruct (Hshape (Z.to_nat i) (Z.to_nat j) ltac:(lia) ltac:(lia))
      as (H1 & H2 & H3 & _).
    destruct (H3 (Z.to_nat k) ltac:(lia)) as [H4 H5].
    rewrite !Z2Nat.id in * by lia.
    eexists _, _, _, _. repeat split; try eassumption.
    apply length_replicate. }
  assert (Hgap : forall i j k, 0 <= i < n -> 0 <= j < l -> p <= k < m ->
                   exists xi xij,
                     load_ptr (length h) i h' = Done xi h'
                     /\ load_ptr xi j h' = Done xij h'
                     /\ load_ptr xij k h' = Undefined Uninitialized).
  { intros i j k Hi Hj Hk.
    destruct (Hshape (Z.to_nat i) (Z.to_nat j) ltac:(lia) ltac:(lia))
      as (H1 & H2 & _ & H4).
    specialize (H4 (Z.to_nat k) ltac:(lia) ltac:(lia)).
    rewrite !Z2Nat.id in * by lia. eauto. }
  split; [exact Hleaf|]. split; [exact Hgap|]. split.
  - intros -> i j k Hi Hj Hk. now apply Hleaf.
  - intros Hn1 Hl1 Hlt Hall.
    destruct (Hall 0 0 p) as (xi & xij & leaf & cells & G1 & G2 & G3 & _);
      try lia.
    destruct (Hgap 0 0 p) as (xi' & xij' & G1' & G2' & G3'); try lia.
    rewrite G1 in G1'. injection G1' as <-.
    rewrite G2 in G2'. injection G2' as <-.
    rewrite G3 in G3'. discriminate.
Qed.

Lemma four_dimensional_array_partial_leaves_witness :
  exists h',
    four_dimensional_array 1 1 2 1 sample_heap = Done (length sample_heap) h'
    /\ ~ every_leaf_allocated h' (length sample_heap) 1 1 2 1.
Proof.
  destruct (four_dimensional_array_partial_leaves sample_heap 1 1 2 1)
    as (h' & H1 & _ & _ & _ & _ & H2); [lia|lia|lia|lia|].
  exists h'. split; [exact H1|]. apply H2; lia.
Defined.

(** X20: when p exceeds m (and n, l >= 1), the first pass of the
    innermost loop of [four_dimensional_array] already writes past the m
    pointers of x[0][0]. *)
Theorem four_dimensional_array_out_of_bounds (h : heap) (n l m p : Z) :
  1 <= n -> 1 <= l -> 0 <= m -> m < p ->
  four_dimensional_array n l m p h = Undefined OutOfBounds.
Proof. apply four_dimensional_array_overflow. Qed.

Lemma four_dimensional_array_out_of_bounds_witness :
  four_dimensional_array 2 3 1 2 sample_heap = Undefined OutOfBounds.
Proof. apply (four_dimensional_array_out_of_bounds sample_heap 2 3 1 2); lia. Defined.

(** ** Releasing nested arrays *)

Ltac bool_lia :=
  unfold span;
  repeat match goal with
         | |- context [(?a <=? ?b)%nat] => destruct (Nat.leb_spec a b)
         | |- context [(?a <? ?b)%nat] => destruct (Nat.ltb_spec a b)
         | |- context [(?a =? ?b)%nat] => destruct (Nat.eqb_spec a b)
         end;
  simpl; rewrite ?orb_false_r, ?orb_true_r; try reflexivity; try lia.

Lemma kill_ext D D' (h : heap) :
  (forall q, (q < length h)%nat -> D q = D' q) -> kill D h = kill D' h.
Proof.
  intros Hext. apply list_eq. intros q. unfold kill.
  rewrite !list_lookup_imap.
  destruct (h !! q) as [b|] eqn:Hq; [|reflexivity]. simpl.
  now rewrite (Hext q) by (now apply lookup_lt_Some in Hq).
Qed.

Lemma kill_nothing (h : heap) : kill (fun _ => false) h = h.
Proof.
  apply list_eq. intros q. unfold kill. rewrite list_lookup_imap.
  now destruct (h !! q).
Qed.

Lemma kill_lookup_live D (h : heap) q b :
  h !! q = Some b -> D q = false -> kill D h !! q = Some b.
Proof.
  intros Hq HD. unfold kill. rewrite list_lookup_imap, Hq. simpl.
  now rewrite HD.
Qed.

Lemma load_ptr_kill D h p k cells (i : nat) q :
  h !! p = Some (Block k true cells) -> D p = false ->
  cells !! i = Some (Vptr q) ->
  load_ptr p (Z.of_nat i) (kill D h) = Done q (kill D h).
Proof.
  intros Hp HD Hq.
  eapply load_ptr_cell;
    [apply kill_lookup_live; [exact Hp|exact HD]|lia|].
  now rewrite Nat2Z.id.
Qed.

Lemma release_kill D h q cells :
  h !! q = Some (Block ByNewArray true cells) -> D q = false ->
  delete_array q (kill D h)
  = Done tt (kill (fun i => D i || (i =? q)%nat) h).
Proof.
  intros Hq HD. unfold delete_array, release.
  rewrite (kill_lookup_live D h q _ Hq HD). simpl. f_equal.
  apply list_eq. intros i. unfold kill.
  destruct (Nat.eq_dec i q) as [->|Hne].
  - rewrite list_lookup_insert_eq
      by (rewrite length_imap; now apply lookup_lt_Some in Hq).
    rewrite !list_lookup_imap, Hq. simpl.
    now rewrite HD, Nat.eqb_refl.
  - rewrite list_lookup_insert_ne by congruence.
    rewrite !list_lookup_imap.
    destruct (Nat.eqb_spec i q); [contradiction|].
    rewrite orb_false_r. now destruct (h !! i).
Qed.

Lemma delete_kill_mismatch D h q cells :
  h !! q = Some (Block ByNewArray true cells) -> D q = false ->
  delete q (kill D h) = Undefined MismatchedRelease.
Proof.
  intros Hq HD. unfold delete, release.
  now rewrite (kill_lookup_live D h q _ Hq HD).
Qed.

(** One level of a release: iteration j releases the whole j-th child,
    that is the [sz] blocks from [root + 1 + j*sz] on. *)
Lemma release_loop h D (root K sz : nat) (body : Z -> M unit) :
  (forall j, (j < K)%nat ->
     body (Z.of_nat j)
       (kill (fun q => D q || span (root + 1) (root + 1 + j * sz) q) h)
     = Done tt
         (kill (fun q => D q || span (root + 1) (root + 1 + S j * sz) q) h)) ->
  for_from K 0 body (kill D h)
  = Done tt (kill (fun q => D q || span (root + 1) (root + 1 + K * sz) q) h).
Proof.
  intros Hbody.
  destruct (for_from_inv K
              (fun j hh =>
                 hh = kill (fun q => D q
                                     || span (root + 1) (root + 1 + j * sz) q) h)
              body 0 (kill D h)) as (h' & Hrun & ->); [| |exact Hrun].
  - intros j hh Hj ->. eexists. split; [|reflexivity].
    rewrite Z.add_0_l. now apply Hbody.
  - apply kill_ext. intros q _. bool_lia.
Qed.

(** Releasing the leaves of a node and then the node itself releases the
    [1 + K] blocks from [root] on.  The loop bodies reach the blocks
    through pointers stored at or before [root]. *)
Lemma release_node_of_leaves h D (root N K c : nat)
    (leaf_body : Z -> M unit) (node_release : M unit) :
  sits_at h root (node_chunk N K 1 (leaf_chunk c) root) ->
  (forall q, (root <= q)%nat -> (q <= root + K)%nat -> D q = false) ->
  (forall k D', (k < K)%nat ->
     (forall q, (q <= root)%nat -> D' q = D q) ->
     leaf_body (Z.of_nat k) (kill D' h)
     = delete_array (root + 1 + k)%nat (kill D' h)) ->
  (forall D', (forall q, (q <= root)%nat -> D' q = D q) ->
     node_release (kill D' h) = delete_array root (kill D' h)) ->
  (for_from K 0 leaf_body ;;; node_release) (kill D h)
  = Done tt (kill (fun q => D q || span root (root + 1 + K) q) h).
Proof.
  intros Hs HD Hleaf Hnode.
  destruct (node_chunk_head _ _ _ _ _ _ Hs) as (cells & Hroot & _).
  erewrite bind_done; cycle 1.
  { apply (release_loop h D root K 1). intros k Hk.
    rewrite Hleaf by (try exact Hk; intros q Hq; bool_lia).
    pose proof (sits_at_child _ root N K 1 (leaf_chunk c) k
                  (fun _ => eq_refl) Hs Hk) as Hl.
    apply sits_at_head in Hl.
    replace (root + 1 + k * 1)%nat with (root + 1 + k)%nat in Hl by lia.
    rewrite (release_kill _ h _ _ Hl)
      by (rewrite (HD (root + 1 + k)%nat) by lia; bool_lia).
    f_equal. apply kill_ext. intros q _. bool_lia. }
  rewrite Hnode by (intros q Hq; bool_lia).
  rewrite (release_kill _ h _ _ Hroot)
    by (rewrite (HD root) by lia; bool_lia).
  f_equal. apply kill_ext. intros q _. bool_lia.
Qed.

Lemma three_dimensional_release_loops h (n l m : Z) :
  0 <= n -> 0 <= l -> 0 <= m ->
  let x := length h in
  let h1 := h ++ node_chunk (Z.to_nat n) (Z.to_nat n) (1 + Z.to_nat l)
                   (node_chunk (Z.to_nat l) (Z.to_nat l) 1
                      (leaf_chunk (Z.to_nat m))) (length h) in
  for_loop n (fun i =>
    for_loop l (fun j =>
      xi <- load_ptr x i ;;
      xij <- load_ptr xi j ;;
      delete_array xij) ;;;
    xi <- load_ptr x i ;;
    delete_array xi) h1
  = Done tt (kill (span (x + 1) (length h1)) h1)
  /\ delete x (kill (span (x + 1) (length h1)) h1) = Undefined MismatchedRelease.
Proof.
  intros Hn Hl Hm x.
  set (N := Z.to_nat n). set (L := Z.to_nat l). set (Mm := Z.to_nat m).
  set (child := node_chunk L L 1 (leaf_chunk Mm)).
  intros h1.
  assert (Hsz : forall r, length (child r) = (1 + L)%nat)
    by (intros r; unfold child;
        rewrite (length_node_chunk _ _ 1) by reflexivity; lia).
  assert (Hlen : length h1 = (x + 1 + N * (1 + L))%nat)
    by (unfold h1, x; rewrite length_app, (length_node_chunk _ _ _ _ _ Hsz); lia).
  pose proof (sits_at_fresh h (node_chunk N N (1 + L) child (length h))) as Htop.
  fold h1 x in Htop.
  destruct (node_chunk_head _ _ _ _ _ _ Htop) as (cells & Hx & _ & Hset & _).
  split; [|eapply delete_kill_mismatch; [exact Hx|bool_lia]].
  unfold for_loop at 1. fold N.
  rewrite <- (kill_nothing h1) at 1.
  rewrite (release_loop h1 (fun _ => false) x N (1 + L)).
  - f_equal. apply kill_ext. intros q _. rewrite Hlen. bool_lia.
  - intros i Hi.
    pose proof (sits_at_child _ _ _ _ _ _ i Hsz Htop Hi) as Hnode.
    unfold child in Hnode.
    destruct (node_chunk_head _ _ _ _ _ _ Hnode) as (cells2 & Hxi & _ & Hset2 & _).
    unfold for_loop. fold L.
    rewrite (release_node_of_leaves h1 _ _ L L Mm _ _ Hnode).
    + f_equal. apply kill_ext. intros q _. bool_lia.
    + intros q Hq1 Hq2. bool_lia.
    + intros k D' Hk HD'.
      erewrite bind_done
        by (eapply load_ptr_kill;
            [exact Hx|rewrite HD' by lia; bool_lia|now apply Hset]).
      erewrite bind_done
        by (eapply load_ptr_kill;
            [exact Hxi|rewrite HD' by lia; bool_lia|now apply Hset2]).
      now replace (x + 1 + i * (1 + L) + 1 + k * 1)%nat
        with (x + 1 + i * (1 + L) + 1 + k)%nat by lia.
    + intros D' HD'.
      erewrite bind_done
        by (eapply load_ptr_kill;
            [exact Hx|rewrite HD' by lia; bool_lia|now apply Hset]).
      reflexivity.
Qed.

Lemma four_dimensional_release_loops h (n l m p : Z) :
  0 <= n -> 0 <= l -> 0 <= p -> p <= m ->
  let x := length h in
  let h1 := h ++ node_chunk (Z.to_nat n) (Z.to_nat n)
                   (1 + Z.to_nat l * (1 + Z.to_nat p))
                   (node_chunk (Z.to_nat l) (Z.to_nat l) (1 + Z.to_nat p)
                      (node_chunk (Z.to_nat m) (Z.to_nat p) 1
                         (leaf_chunk (Z.to_nat p)))) (length h) in
  for_loop n (fun i =>
    for_loop l (fun j =>
      for_loop p (fun k =>
        xi <- load_ptr x i ;;
        xij <- load_ptr xi j ;;
        leaf <- load_ptr xij k ;;
        delete_array leaf) ;;;
      xi <- load_ptr x i ;;
      xij <- load_ptr xi j ;;
      delete_array xij) ;;;
    xi <- load_ptr x i ;;
    delete_array xi) h1
  = Done tt (kill (span (x + 1) (length h1)) h1)
  /\ delete x (kill (span (x + 1) (length h1)) h1) = Undefined MismatchedRelease.
Proof.
  intros Hn Hl Hp Hpm x.
  set (N := Z.to_nat n). set (L := Z.to_nat l).
  set (Mm := Z.to_nat m). set (P := Z.to_nat p).
  set (child2 := node_chunk Mm P 1 (leaf_chunk P)).
  set (child3 := node_chunk L L (1 + P) child2).
  intros h1.
  assert (Hsz2 : forall r, length (child2 r) = (1 + P)%nat)
    by (intros r; unfold child2;
        rewrite (length_node_chunk _ _ 1) by reflexivity; lia).
  assert (Hsz3 : forall r, length (child3 r) = (1 + L * (1 + P))%nat)
    by (intros r; unfold child3;
        now rewrite (length_node_chunk _ _ _ _ _ Hsz2)).
  assert (Hlen : length h1 = (x + 1 + N * (1 + L * (1 + P)))%nat)
    by (unfold h1, x; rewrite length_app, (length_node_chunk _ _ _ _ _ Hsz3); lia).
  pose proof (sits_at_fresh h
                (node_chunk N N (1 + L * (1 + P)) child3 (length h))) as Htop.
  fold h1 x in Htop.
  destruct (node_chunk_head _ _ _ _ _ _ Htop) as (cells & Hx & _ & Hset & _).
  split; [|eapply delete_kill_mismatch; [exact Hx|bool_lia]].
  unfold for_loop at 1. fold N.
  rewrite <- (kill_nothing h1) at 1.
  rewrite (release_loop h1 (fun _ => false) x N (1 + L * (1 + P)));
    [f_equal; apply kill_ext; intros q _; rewrite Hlen; bool_lia|].
  { intros i Hi.
    pose proof (sits_at_child _ _ _ _ _ _ i Hsz3 Htop Hi) as Hnode.
    unfold child3 in Hnode.
    destruct (node_chunk_head _ _ _ _ _ _ Hnode) as (cells2 & Hxi & _ & Hset2 & _).
    set (xi := (x + 1 + i * (1 + L * (1 + P)))%nat) in *.
    set (Di := fun q => false || span (x + 1) xi q).
    unfold for_loop at 1. fold L.
    erewrite bind_done; cycle 1.
    { apply (release_loop h1 Di xi L (1 + P)).
      intros j Hj.
      pose proof (sits_at_child _ _ _ _ _ _ j Hsz2 Hnode Hj) as Hnode2.
      unfold child2 in Hnode2.
      unfold for_loop. fold P.
      rewrite (release_node_of_leaves h1 _ _ Mm P P _ _ Hnode2).
      - f_equal. apply kill_ext. intros q _. unfold Di. bool_lia.
      - intros q Hq1 Hq2. unfold Di, xi. bool_lia.
      - intros k D' Hk HD'.
        destruct (node_chunk_head _ _ _ _ _ _ Hnode2)
          as (cells3 & Hxij & _ & Hset3 & _).
        erewrite bind_done
          by (eapply load_ptr_kill;
              [exact Hx|rewrite HD' by (unfold xi; lia); unfold Di; bool_lia
               |now apply Hset]).
        erewrite bind_done
          by (eapply load_ptr_kill;
              [exact Hxi|rewrite HD' by (unfold xi; lia); unfold Di, xi; bool_lia
               |now apply Hset2]).
        erewrite bind_done
          by (eapply load_ptr_kill;
              [exact Hxij|rewrite HD' by (unfold xi; lia); unfold Di, xi; bool_lia
               |now apply Hset3]).
        now replace (xi + 1 + j * (1 + P) + 1 + k * 1)%nat
          with (xi + 1 + j * (1 + P) + 1 + k)%nat by lia.
      - intros D' HD'.
        erewrite bind_done
          by (eapply load_ptr_kill;
              [exact Hx|rewrite HD' by (unfold xi; lia); unfold Di; bool_lia
               |now apply Hset]).
        erewrite bind_done
          by (eapply load_ptr_kill;
              [exact Hxi|rewrite HD' by (unfold xi; lia); unfold Di, xi; bool_lia
               |now apply Hset2]).
        reflexivity. }
    erewrite bind_done
      by (eapply load_ptr_kill; [exact Hx|unfold Di; bool_lia|now apply Hset]).
    fold xi.
    rewrite (release_kill _ h1 _ _ Hxi) by (unfold Di; bool_lia).
    f_equal. apply kill_ext. intros q _. unfold Di, xi. bool_lia. }
Qed.

(** X21: for all non-negative dimensions and every memory, after
    [three_dimensional_array] the loop nest of
    [deallocate_three_dimensional_array] releases every block the
    allocator added except the top one, each once and through live
    pointers; the final [delete x] is then a mismatched release, which is
    the result of the whole round trip. *)
Theorem three_dimensional_round_trip_mismatch (h : heap) (n l m : Z) :
  0 <= n -> 0 <= l -> 0 <= m ->
  exists h1,
    three_dimensional_array n l m h = Done (length h) h1
    /\ for_loop n (fun i =>
         for_loop l (fun j =>
           xi <- load_ptr (length h) i ;;
           xij <- load_ptr xi j ;;
           delete_array xij) ;;;
         xi <- load_ptr (length h) i ;;
         delete_array xi) h1
       = Done tt (kill (span (length h + 1) (length h1)) h1)
    /\ deallocate_three_dimensional_array (length h) n l m h1
       = Undefined MismatchedRelease.
Proof.
  intros Hn Hl Hm. eexists.
  split; [now apply three_dimensional_array_run|].
  destruct (three_dimensional_release_loops h n l m Hn Hl Hm) as [Hloops Hdel].
  split; [exact Hloops|].
  unfold deallocate_three_dimensional_array.
  now rewrite (bind_done _ _ _ _ _ Hloops).
Qed.

Lemma three_dimensional_round_trip_mismatch_witness :
  exists h1,
    three_dimensional_array 2 3 4 sample_heap = Done (length sample_heap) h1
    /\ deallocate_three_dimensional_array (length sample_heap) 2 3 4 h1
       = Undefined MismatchedRelease.
Proof.
  destruct (three_dimensional_round_trip_mismatch sample_heap 2 3 4)
    as (h1 & H1 & _ & H3); [lia|lia|lia|].
  exists h1. split; assumption.
Defined.

(** X22: for 0 <= p <= m the same holds of the 4-D round trip: the
    deallocator bounds its innermost loop by p like the allocator, so its
    loop nest releases exactly the blocks that were allocated (every
    block but the top one, each once) and never reads one of the unset
    pointers; the final [delete x] is a mismatched release. *)
Theorem four_dimensional_round_trip_mismatch (h : heap) (n l m p : Z) :
  0 <= n -> 0 <= l -> 0 <= p -> p <= m ->
  exists h1,
    four_dimensional_array n l m p h = Done (length h) h1
    /\ for_loop n (fun i =>
         for_loop l (fun j =>
           for_loop p (fun k =>
             xi <- load_ptr (length h) i ;;
             xij <- load_ptr xi j ;;
             leaf <- load_ptr xij k ;;
             delete_array leaf) ;;;
           xi <- load_ptr (length h) i ;;
           xij <- load_ptr xi j ;;
           delete_array xij) ;;;
         xi <- load_ptr (length h) i ;;
         delete_array xi) h1
       = Done tt (kill (span (length h + 1) (length h1)) h1)
    /\ deallocate_four_dimensional_array (length h) n l m p h1
       = Undefined MismatchedRelease.
Proof.
  intros Hn Hl Hp Hpm. eexists.
  split; [now apply four_dimensional_array_run|].
  destruct (four_dimensional_release_loops h n l m p Hn Hl Hp Hpm)
    as [Hloops Hdel].
  split; [exact Hloops|].
  unfold deallocate_four_dimensional_array.
  now rewrite (bind_done _ _ _ _ _ Hloops).
Qed.

Lemma four_dimensional_round_trip_mismatch_witness :
  exists h1,
    four_dimensional_array 2 2 3 2 sample_heap = Done (length sample_heap) h1
    /\ deallocate_four_dimensional_array (length sample_heap) 2 2 3 2 h1
       = Undefined MismatchedRelease.
Proof.
  destruct (four_dimensional_round_trip_mismatch sample_heap 2 2 3 2)
    as (h1 & H1 & _ & H3); [lia|lia|lia|lia|].
  exists h1. split; assumption.
Defined.

Lemma two_dimensional_release_loops h (N : nat) (cells : list value) :
  let h1 := grid h (replicate N cells) in
  for_from N 0 (fun i => xi <- load_ptr (length h) i ;; delete_array xi) h1
  = Done tt (kill (span (length h + 1) (length h1)) h1)
  /\ delete (length h) (kill (span (length h + 1) (length h1)) h1)
     = Undefined MismatchedRelease.
Proof.
  intros h1.
  assert (Hlen : length h1 = (length h + 1 + N)%nat).
  { unfold h1, grid. rewrite length_app. simpl.
    rewrite length_fmap, length_replicate. lia. }
  pose proof (grid_lookup_top h (replicate N cells)) as Hx.
  rewrite length_replicate in Hx. fold h1 in Hx.
  split; [|eapply delete_kill_mismatch; [exact Hx|bool_lia]].
  rewrite <- (kill_nothing h1) at 1.
  rewrite (release_loop h1 (fun _ => false) (length h) N 1).
  - f_equal. apply kill_ext. intros q _. rewrite Hlen. bool_lia.
  - intros i Hi.
    erewrite bind_done
      by (eapply load_ptr_kill;
          [exact Hx|bool_lia|rewrite list_lookup_fmap, lookup_seq_lt by lia;
                             reflexivity]).
    rewrite (release_kill _ h1 _ cells).
    + f_equal. apply kill_ext. intros q _. bool_lia.
    + apply grid_lookup_row. now apply lookup_replicate_2.
    + bool_lia.
Qed.

(** X15: for all non-negative dimensions and every memory, after
    [two_dimensional_array] the loop of [deallocate_two_dimensional_array]
    releases every row, each once; the final [delete x] is then a
    mismatched release, which is the result of the whole round trip. *)
Theorem two_dimensional_round_trip_mismatch (h : heap) (n l : Z) :
  0 <= n -> 0 <= l ->
  exists h1,
    two_dimensional_array n l h = Done (length h) h1
    /\ for_loop n (fun i =>
         xi <- load_ptr (length h) i ;;
         delete_array xi) h1
       = Done tt (kill (span (length h + 1) (length h1)) h1)
    /\ deallocate_two_dimensional_array (length h) n l h1
       = Undefined MismatchedRelease.
Proof.
  intros Hn Hl. eexists.
  split; [now apply two_dimensional_array_run|].
  destruct (two_dimensional_release_loops h (Z.to_nat n)
              (replicate (Z.to_nat l) (Vdouble 0))) as [Hloops Hdel].
  split; [exact Hloops|].
  unfold deallocate_two_dimensional_array.
  now rewrite (bind_done _ _ _ _ _ Hloops).
Qed.

Lemma two_dimensional_round_trip_mismatch_witness :
  exists h1,
    two_dimensional_array 2 3 sample_heap = Done (length sample_heap) h1
    /\ deallocate_two_dimensional_array (length sample_heap) 2 3 h1
       = Undefined MismatchedRelease.
Proof.
  destruct (two_dimensional_round_trip_mismatch sample_heap 2 3)
    as (h1 & H1 & _ & H3); [lia|lia|].
  exists h1. split; assumption.
Defined.

(** ** Deallocation with a row count other than the allocated one *)

Lemma two_dimensional_release_prefix h (N K : nat) (cells : list value) :
  (K <= N)%nat ->
  let h1 := grid h (replicate N cells) in
  for_from K 0 (fun i => xi <- load_ptr (length h) i ;; delete_array xi) h1
  = Done tt (kill (span (length h + 1) (length h + 1 + K)) h1).
Proof.
  intros HK h1.
  pose proof (grid_lookup_top h (replicate N cells)) as Hx.
  rewrite length_replicate in Hx. fold h1 in Hx.
  rewrite <- (kill_nothing h1) at 1.
  rewrite (release_loop h1 (fun _ => false) (length h) K 1).
  - f_equal. apply kill_ext. intros q _. bool_lia.
  - intros i Hi.
    erewrite bind_done
      by (eapply load_ptr_kill;
          [exact Hx|bool_lia|rewrite list_lookup_fmap, lookup_seq_lt by lia;
                             reflexivity]).
    rewrite (release_kill _ h1 _ cells).
    + f_equal. apply kill_ext. intros q _. bool_lia.
    + apply grid_lookup_row. apply lookup_replicate_2. lia.
    + bool_lia.
Qed.

(** X23: the deallocator trusts its row count.  After
    [two_dimensional_array n l], a count n' below n makes the loop
    release only the first n' rows and leaves the other rows live, and a
    count above n reads the row-pointer block out of bounds. *)
Theorem deallocate_two_dimensional_array_row_count (h : heap) (n l n' l' : Z) :
  0 <= n -> 0 <= l ->
  exists h1,
    two_dimensional_array n l h = Done (length h) h1
    /\ (0 <= n' <= n ->
        for_loop n' (fun i =>
          xi <- load_ptr (length h) i ;;
          delete_array xi) h1
        = Done tt (kill (span (length h + 1)
                           (length h + 1 + Z.to_nat n')) h1)
        /\ forall i : nat, (Z.to_nat n' <= i)%nat -> (i < Z.to_nat n)%nat ->
             kill (span (length h + 1) (length h + 1 + Z.to_nat n')) h1
               !! (length h + 1 + i)%nat
             = Some (Block ByNewArray true
                       (replicate (Z.to_nat l) (Vdouble 0))))
    /\ (n < n' ->
        deallocate_two_dimensional_array (length h) n' l' h1
        = Undefined OutOfBounds).
Proof.
  intros Hn Hl. eexists.
  split; [now apply two_dimensional_array_run|].
  set (cells := replicate (Z.to_nat l) (Vdouble 0)).
  set (h1 := grid h (replicate (Z.to_nat n) cells)).
  pose proof (grid_lookup_top h (replicate (Z.to_nat n) cells)) as Hx.
  rewrite length_replicate in Hx. fold h1 in Hx.
  split.
  - intros Hn'. split.
    + unfold for_loop.
      apply (two_dimensional_release_prefix h (Z.to_nat n) (Z.to_nat n') cells).
      lia.
    + intros i Hi1 Hi2. apply kill_lookup_live; [|bool_lia].
      replace (length h + 1 + i)%nat with (S (length h) + i)%nat by lia.
      apply grid_lookup_row. now apply lookup_replicate_2.
  - intros Hn'. unfold deallocate_two_dimensional_array, for_loop.
    apply bind_undefined.
    replace (Z.to_nat n') with (Z.to_nat n + S (Z.to_nat n' - S (Z.to_nat n)))%nat
      by lia.
    rewrite for_from_split.
    pose proof (two_dimensional_release_prefix h (Z.to_nat n) (Z.to_nat n) cells
                  (Nat.le_refl _)) as Hpre.
    cbv zeta in Hpre. fold h1 in Hpre. rewrite Hpre.
    apply for_from_first_fault. apply bind_undefined. rewrite Z.add_0_l.
    eapply load_ptr_out_of_bounds.
    + apply kill_lookup_live; [exact Hx|bool_lia].
    + rewrite length_seq. lia.
Qed.

Lemma deallocate_two_dimensional_array_row_count_witness :
  exists h1,
    two_dimensional_array 2 3 sample_heap = Done (length sample_heap) h1
    /\ (2 < 5 ->
        deallocate_two_dimensional_array (length sample_heap) 5 3 h1
        = Undefined OutOfBounds).
Proof.
  destruct (deallocate_two_dimensional_array_row_count sample_heap 2 3 5 3)
    as (h1 & H1 & _ & H3); [lia|lia|].
  exists h1. split; assumption.
Defined.

(** ** The two spline builders *)

(** X24: when every sample is positive, the log-log builder returns what
    the linear builder returns for the evaluator
    lx |-> log10(f(10^lx, params)) on the same abscissas. *)
Theorem create_log10_spline_as_linear {P} (func : R -> P -> R) (params : P)
    (h : heap) (log10x : ptr) (xs : list R) (n : Z) :
  0 <= n -> vec_at h log10x xs -> length xs = Z.to_nat n ->
  (forall i lx, xs !! i = Some lx -> (0 < func (pow10 lx) params)%R) ->
  create_log10_spline func log10x n params h
  = create_linear_spline (fun lx q => log10 (func (pow10 lx) q))
      log10x n params h.
Proof.
  intros Hn Hv Hlen Hpos.
  rewrite (create_linear_spline_run _ params h log10x xs Hv n Hn Hlen).
  rewrite (create_log10_spline_run func params h log10x xs Hv n Hn Hlen).
  destruct (list_find (fun lx => (sampled func params lx <= 0)%R) xs)
    as [[i lx]|] eqn:Hfind; [|reflexivity].
  apply list_find_Some in Hfind as (Hi & Hle & _).
  specialize (Hpos i lx Hi). unfold sampled in Hle. lra.
Qed.

Lemma create_log10_spline_as_linear_witness :
  create_log10_spline (fun x (_ : unit) => (x + 1)%R) 0%nat 2 tt sample_heap
  = create_linear_spline (fun lx q => log10 ((fun x (_ : unit) => (x + 1)%R) (pow10 lx) q))
      0%nat 2 tt sample_heap.
Proof.
  apply (create_log10_spline_as_linear (fun x (_ : unit) => (x + 1)%R) tt
           sample_heap 0%nat [1; 0]%R 2).
  - lia.
  - apply sample_vec_at. reflexivity.
  - reflexivity.
  - intros i lx _. pose proof (pow10_pos lx). lra.
Defined.

(** ** Dot product and magnitudes *)

Lemma square_bound (X Y : R) : (0 <= X)%R -> (Y * Y <= X * X)%R -> (Y <= X)%R.
Proof. intros HX HY. destruct (Rle_or_lt Y X) as [|Hlt]; [assumption|]. nra. Qed.

Lemma cauchy_schwarz_step (A B C a b : R) :
  (0 <= A)%R -> (0 <= C)%R -> (B * B <= A * C)%R ->
  ((B + a * b) * (B + a * b) <= (A + a * a) * (C + b * b))%R.
Proof.
  intros HA HC HB.
  assert (H2 : (2 * (a * b) * B <= A * (b * b) + (a * a) * C)%R).
  { apply square_bound.
    - pose proof (Rle_0_sqr a) as Ha. pose proof (Rle_0_sqr b) as Hb.
      unfold Rsqr in *. nra.
    - assert (Hd : (0 <= (A * (b * b) - a * a * C) * (A * (b * b) - a * a * C))%R)
        by apply Rle_0_sqr.
      assert (Hab : (0 <= (a * b) * (a * b))%R) by apply Rle_0_sqr.
      assert (Hm : ((a * b) * (a * b) * (B * B) <= (a * b) * (a * b) * (A * C))%R)
        by (apply Rmult_le_compat_l; assumption).
      nra. }
  nra.
Qed.

Lemma dot_of_cauchy_schwarz n xs ys :
  (dot_of n xs ys * dot_of n xs ys <= dot_of n xs xs * dot_of n ys ys)%R.
Proof.
  unfold dot_of. induction n as [|n IH]; simpl; [lra|].
  apply cauchy_schwarz_step; [| |exact IH];
    apply Rsum_nonneg; intros j _; apply Rle_0_sqr.
Qed.

(** X25: the Cauchy-Schwarz inequality.  On operands with at least n
    elements the absolute value of [vector_dot_product] never exceeds the
    product of the two [vector_magnitude]s. *)
Theorem dot_product_bounded_by_magnitudes (h : heap) (x y : ptr)
    (xs ys : list R) (n : Z) :
  vec_at h x xs -> vec_at h y ys ->
  (Z.to_nat n <= length xs)%nat -> (Z.to_nat n <= length ys)%nat ->
  exists d mx my,
    vector_dot_product x y n h = Done d h
    /\ vector_magnitude x n h = Done mx h
    /\ vector_magnitude y n h = Done my h
    /\ (Rabs d <= mx * my)%R.
Proof.
  intros Hx Hy Hlx Hly.
  exists (dot_of (Z.to_nat n) xs ys), (sqrt (dot_of (Z.to_nat n) xs xs)),
    (sqrt (dot_of (Z.to_nat n) ys ys)).
  split; [now apply vector_dot_product_run|].
  split; [|split].
  - unfold vector_magnitude. erewrite bind_done; [reflexivity|].
    fold (vector_dot_product x x n). now apply vector_dot_product_run.
  - unfold vector_magnitude. erewrite bind_done; [reflexivity|].
    fold (vector_dot_product y y n). now apply vector_dot_product_run.
  - rewrite <- sqrt_mult
      by (apply Rsum_nonneg; intros j _; apply Rle_0_sqr).
    rewrite <- sqrt_Rsqr_abs. apply sqrt_le_1_alt. unfold Rsqr.
    apply dot_of_cauchy_schwarz.
Qed.

Lemma dot_product_bounded_by_magnitudes_witness :
  exists d mx my,
    vector_dot_product 2%nat 3%nat 3 sample_heap = Done d sample_heap
    /\ vector_magnitude 2%nat 3 sample_heap = Done mx sample_heap
    /\ vector_magnitude 3%nat 3 sample_heap = Done my sample_heap
    /\ (Rabs d <= mx * my)%R.
Proof.
  apply (dot_product_bounded_by_magnitudes sample_heap 2%nat 3%nat
           [1; 0; 0]%R [0; 1; 0]%R 3).
  - apply sample_vec_at. reflexivity.
  - apply sample_vec_at. reflexivity.
  - simpl. lia.
  - simpl. lia.
Defined.
